(** * Task management API: tag vocabulary, task updates and the list query

    A shallow embedding of the service layer of the task management API
    (services/taskService.js, services/tagService.js and the query
    schema of middleware/validation.js), with the SQLite store written
    out as three tables of rows.

    Conventions of the embedding.
    - Strings are [string]s of 7-bit ASCII text.  On such text the
      JavaScript [trim] and [toLowerCase] and the SQL [lower()] and
      [COLLATE NOCASE] are the functions below; characters above 127 are
      left alone by all of them.
    - A table is the list of its rows in rowid order.  A query without
      [ORDER BY] yields rows in the order of the scan that produces them.
    - Every [await] is run to completion before the next one starts:
      [Promise.all] over a mapped array is the calls one after another in
      array order. *)

From Stdlib Require Import List ZArith Lia Bool Ascii String Permutation Sorted.
Import ListNotations.
Local Open Scope string_scope.
Local Open Scope list_scope.
Local Open Scope Z_scope.


(* ================================================================= *)
(** ** JavaScript strings *)

Section JsStrings.

(** The white space that [String.prototype.trim] strips, within ASCII:
    TAB, LF, VT, FF, CR and the space. *)
Definition is_space (c : ascii) : bool :=
  let n := nat_of_ascii c in
  ((9 <=? n)%nat && (n <=? 13)%nat) || (n =? 32)%nat.

Definition is_upper (c : ascii) : bool :=
  let n := nat_of_ascii c in (65 <=? n)%nat && (n <=? 90)%nat.

Definition lower_char (c : ascii) : ascii :=
  if is_upper c then ascii_of_nat (nat_of_ascii c + 32) else c.

Definition upper_char (c : ascii) : ascii :=
  let n := nat_of_ascii c in
  if (97 <=? n)%nat && (n <=? 122)%nat then ascii_of_nat (n - 32) else c.

Fixpoint toLowerCase (s : string) : string :=
  match s with
  | EmptyString => EmptyString
  | String c r => String (lower_char c) (toLowerCase r)
  end.

Fixpoint toUpperCase (s : string) : string :=
  match s with
  | EmptyString => EmptyString
  | String c r => String (upper_char c) (toUpperCase r)
  end.

Fixpoint trimStart (s : string) : string :=
  match s with
  | EmptyString => EmptyString
  | String c r => if is_space c then trimStart r else s
  end.

Fixpoint trimEnd (s : string) : string :=
  match s with
  | EmptyString => EmptyString
  | String c r =>
      match trimEnd r with
      | EmptyString => if is_space c then EmptyString else String c EmptyString
      | r' => String c r'
      end
  end.

Definition trim (s : string) : string := trimEnd (trimStart s).

(** [s.split(sep)] for a one-character separator. *)
Fixpoint split (sep : ascii) (s : string) : list string :=
  match s with
  | EmptyString => [EmptyString]
  | String c r =>
      if Ascii.eqb c sep then EmptyString :: split sep r
      else match split sep r with
           | h :: t => String c h :: t
           | [] => [String c EmptyString]
           end
  end.

(** [hay.includes(needle)]. *)
Definition includes (hay needle : string) : bool :=
  match index 0 needle hay with Some _ => true | None => false end.

(** A string is truthy when it is not empty. *)
Definition truthy (s : string) : bool :=
  match s with EmptyString => false | _ => true end.

End JsStrings.

(* ================================================================= *)
(** ** The store *)

Record task_row := mkTaskRow {
  id : Z;
  title : string;
  description : string;
  completed : Z;            (* BOOLEAN column: 0 or 1 *)
  createdAt : string;       (* ISO-8601 text *)
  updatedAt : string;
  userId : Z
}.

Record tag_row := mkTag { tag_id : Z; tag_name : string }.

Record task_tag_row := mkTaskTag { tt_task_id : Z; tt_tag_id : Z }.

(** [tags_seq] is the [sqlite_sequence] entry of the AUTOINCREMENT
    column [tags.id]: the largest id ever handed out. *)
Record Db := mkDb {
  tasks : list task_row;
  tags : list tag_row;
  task_tags : list task_tag_row;
  tags_seq : Z
}.

Definition task_row_eq_dec (a b : task_row) : {a = b} + {a <> b}.
Proof. decide equality; first [apply Z.eq_dec | apply string_dec]. Defined.

Definition tag_row_eq_dec (a b : tag_row) : {a = b} + {a <> b}.
Proof. decide equality; first [apply Z.eq_dec | apply string_dec]. Defined.

(** *** Errors and the store monad *)

Inductive error :=
| AppError (message : string) (statusCode : Z)
| SqliteError (message : string).

Definition error_message (e : error) : string :=
  match e with AppError m _ => m | SqliteError m => m end.

Inductive result (A : Type) :=
| Ok (a : A)
| Err (e : error).
Arguments Ok {A} a.
Arguments Err {A} e.

(** A statement runs against the store and either returns or throws; what
    it wrote before throwing stays written (each statement commits on its
    own, the service opens no transaction). *)
Definition M (A : Type) : Type := Db -> result A * Db.

Definition ret {A} (a : A) : M A := fun d => (Ok a, d).
Definition throw {A} (e : error) : M A := fun d => (Err e, d).
Definition bind {A B} (m : M A) (k : A -> M B) : M B :=
  fun d => match m d with
           | (Ok a, d') => k a d'
           | (Err e, d') => (Err e, d')
           end.
Definition try_catch {A} (m : M A) (h : error -> M A) : M A :=
  fun d => match m d with
           | (Ok a, d') => (Ok a, d')
           | (Err e, d') => h e d'
           end.
Definition query {A} (q : Db -> A) : M A := fun d => (Ok (q d), d).

Notation "x <- m ;; k" := (bind m (fun x => k))
  (at level 61, m at next level, right associativity).
Notation "m ;;; k" := (bind m (fun _ => k))
  (at level 61, right associativity).

Fixpoint mapM {A B} (f : A -> M B) (l : list A) : M (list B) :=
  match l with
  | [] => ret []
  | x :: r => y <- f x ;; ys <- mapM f r ;; ret (y :: ys)
  end.

(* ================================================================= *)
(** ** SQL building blocks *)

(** [SELECT DISTINCT]: the first occurrence of every row, in scan order. *)
Fixpoint distinct {A} (eq_dec : forall a b : A, {a = b} + {a <> b})
         (l : list A) : list A :=
  match l with
  | [] => []
  | x :: r =>
      x :: filter (fun y => if eq_dec x y then false else true)
                  (distinct eq_dec r)
  end.

(** [LIMIT ? OFFSET ?] as SQLite reads them: a negative offset is no
    offset, a negative limit is no limit. *)
Definition limit_offset {A} (limit offset : Z) (l : list A) : list A :=
  let l' := skipn (Z.to_nat offset) l in
  if limit <? 0 then l' else firstn (Z.to_nat limit) l'.

(** [ORDER BY]: a stable insertion sort on a "comes no later than" test. *)
Fixpoint insert_sorted {A} (le : A -> A -> bool) (x : A) (l : list A) : list A :=
  match l with
  | [] => [x]
  | y :: r => if le x y then x :: l else y :: insert_sorted le x r
  end.

Fixpoint order_by {A} (le : A -> A -> bool) (l : list A) : list A :=
  match l with
  | [] => []
  | x :: r => insert_sorted le x (order_by le r)
  end.

(** [lower(a) = lower(b)], which on ASCII text is also equality under
    [COLLATE NOCASE]. *)
Definition nocase_eqb (a b : string) : bool :=
  String.eqb (toLowerCase a) (toLowerCase b).

(** The next AUTOINCREMENT rowid of [tags]. *)
Definition next_tag_id (d : Db) : Z :=
  Z.max (fold_right Z.max 0 (map tag_id (tags d))) (tags_seq d) + 1.

Definition unique_tags_name_message : string :=
  "SQLITE_CONSTRAINT: UNIQUE constraint failed: tags.name".

Definition foreign_key_message : string :=
  "SQLITE_CONSTRAINT: FOREIGN KEY constraint failed".

(** [SELECT id, name FROM tags WHERE lower(name) = lower(?)] *)
Definition select_tag_by_name (name : string) (d : Db) : option tag_row :=
  find (fun t => nocase_eqb (tag_name t) name) (tags d).

(** [INSERT INTO tags (name) VALUES (?)], returning [lastID]. *)
Definition insert_tag (name : string) : M Z :=
  fun d =>
    if existsb (fun t => nocase_eqb (tag_name t) name) (tags d)
    then (Err (SqliteError unique_tags_name_message), d)
    else let i := next_tag_id d in
         (Ok i, mkDb (tasks d) (tags d ++ [mkTag i name]) (task_tags d) i).

(** [INSERT OR IGNORE INTO task_tags (task_id, tag_id) VALUES (?, ?)]:
    a row that is already there is skipped; the foreign keys are enforced
    ([PRAGMA foreign_keys = ON]). *)
Definition insert_or_ignore_task_tag (taskId tagId : Z) : M unit :=
  fun d =>
    if existsb (fun r => (tt_task_id r =? taskId) && (tt_tag_id r =? tagId))
               (task_tags d)
    then (Ok tt, d)
    else if existsb (fun t => id t =? taskId) (tasks d)
            && existsb (fun t => tag_id t =? tagId) (tags d)
    then (Ok tt, mkDb (tasks d) (tags d)
                      (task_tags d ++ [mkTaskTag taskId tagId]) (tags_seq d))
    else (Err (SqliteError foreign_key_message), d).

(** [DELETE FROM task_tags WHERE task_id = ?] *)
Definition delete_task_tags_of (taskId : Z) : M unit :=
  fun d => (Ok tt, mkDb (tasks d) (tags d)
                        (filter (fun r => negb (tt_task_id r =? taskId)) (task_tags d))
                        (tags_seq d)).

(* ================================================================= *)
(** ** taskService.js: the tag vocabulary *)

(** The canonical form of a tag name. *)
Definition canonical (name : string) : string := toLowerCase (trim name).

(** [findOrCreateTag(name)]; [None] is the JavaScript [null]. *)
Definition findOrCreateTag (name : string) : M (option tag_row) :=
  let originalTrimmedTagName := trim name in
  if negb (truthy originalTrimmedTagName) then ret None
  else
    let canonicalTagName := toLowerCase originalTrimmedTagName in
    tag <- query (select_tag_by_name canonicalTagName) ;;
    match tag with
    | None =>
        try_catch
          (lastID <- insert_tag canonicalTagName ;;
           ret (Some (mkTag lastID canonicalTagName)))
          (fun e =>
             if includes (error_message e) "SQLITE_CONSTRAINT"
                && includes (error_message e) "tags.name"
             then
               again <- query (select_tag_by_name canonicalTagName) ;;
               match again with
               | None => throw e
               | Some t => ret (Some t)
               end
             else throw e)
    | Some t => ret (Some (mkTag (tag_id t) canonicalTagName))
    end.

(** [getTagsForTask(taskId)] *)
Definition getTagsForTask (taskId : Z) (d : Db) : list tag_row :=
  flat_map (fun t =>
    flat_map (fun r =>
      if (tag_id t =? tt_tag_id r) && (tt_task_id r =? taskId) then [t] else [])
      (task_tags d))
    (tags d).

(** Keeps the tags that are not [null]. *)
Fixpoint somes {A} (l : list (option A)) : list A :=
  match l with
  | [] => []
  | Some a :: r => a :: somes r
  | None :: r => somes r
  end.

Fixpoint forM_ {A} (f : A -> M unit) (l : list A) : M unit :=
  match l with
  | [] => ret tt
  | x :: r => f x ;;; forM_ f r
  end.

(** [addTagsToTask(taskId, tagNames, userId)] *)
Definition addTagsToTask (taskId : Z) (tagNames : list string) (user : Z) : M unit :=
  match tagNames with
  | [] => ret tt
  | _ =>
      task <- query (fun d =>
                find (fun t => (id t =? taskId) && (userId t =? user)) (tasks d)) ;;
      match task with
      | None => ret tt
      | Some _ =>
          found <- mapM findOrCreateTag tagNames ;;
          forM_ (fun tag => insert_or_ignore_task_tag taskId (tag_id tag))
                (somes found)
      end
  end.

(** [clearTagsForTask(taskId)] *)
Definition clearTagsForTask (taskId : Z) : M unit := delete_task_tags_of taskId.

(* ================================================================= *)
(** ** taskService.js: task records *)

(** A task as the service returns it: [completed] is a boolean and the
    tag list is attached. *)
Record task := mkTask {
  t_id : Z;
  t_title : string;
  t_description : string;
  t_completed : bool;
  t_createdAt : string;
  t_updatedAt : string;
  t_userId : Z;
  t_tags : list tag_row
}.

(** [{ ...transformTaskFromDb(task), tags }] *)
Definition transformTaskFromDb (r : task_row) (tgs : list tag_row) : task :=
  mkTask (id r) (title r) (description r) (completed r =? 1)
         (createdAt r) (updatedAt r) (userId r) tgs.

(** [getTaskById(id, userId)]; [None] is [undefined]. *)
Definition getTaskById (taskId user : Z) (d : Db) : option task :=
  match find (fun t => (id t =? taskId) && (userId t =? user)) (tasks d) with
  | None => None
  | Some taskFromDb =>
      Some (transformTaskFromDb taskFromDb (getTagsForTask (id taskFromDb) d))
  end.

(** The body of a PUT request; an absent key is [None]. *)
Record updateData := mkUpdate {
  u_title : option string;
  u_description : option string;
  u_completed : option bool;
  u_tags : option (list string)
}.

(** [UPDATE tasks SET title = ?, description = ?, completed = ?,
    updatedAt = ? WHERE id = ? AND userId = ?] *)
Definition update_task_row (newTitle newDescription : string) (newCompleted : bool)
           (newUpdatedAt : string) (taskId user : Z) : M unit :=
  fun d =>
    (Ok tt,
     mkDb (map (fun t =>
                  if (id t =? taskId) && (userId t =? user)
                  then mkTaskRow (id t) newTitle newDescription
                                 (if newCompleted then 1 else 0)
                                 (createdAt t) newUpdatedAt (userId t)
                  else t)
               (tasks d))
          (tags d) (task_tags d) (tags_seq d)).

(** The tag step of [updateTask]: [if (updateData.tags !== undefined)
    { clear; if (tags.length > 0) add }]. *)
Definition update_tags (taskId : Z) (newTags : option (list string)) (user : Z)
  : M unit :=
  match newTags with
  | Some names =>
      clearTagsForTask taskId ;;;
      match names with
      | [] => ret tt
      | _ => addTagsToTask taskId names user
      end
  | None => ret tt
  end.

(** [updateTask(id, updateData, userId)]; [now] is what
    [new Date().toISOString()] reads during the call, [Ok None] is the
    [null] returned for a task that is missing or not owned. *)
Definition updateTask (now : string) (taskId : Z) (upd : updateData) (user : Z)
  : M (option task) :=
  existing <- query (getTaskById taskId user) ;;
  match existing with
  | None => ret None
  | Some existingTask =>
      let newTitle :=
        match u_title upd with Some x => x | None => t_title existingTask end in
      let newDescription :=
        match u_description upd with
        | Some x => x | None => t_description existingTask end in
      let newCompletedInput :=
        match u_completed upd with
        | Some b => b | None => t_completed existingTask end in
      let newUpdatedAt := now in
      update_task_row newTitle newDescription newCompletedInput newUpdatedAt
                      taskId user ;;;
      update_tags taskId (u_tags upd) user ;;;
      query (getTaskById taskId user)
  end.

(** A step that leaves the tasks table alone, whether it returns or throws. *)
Definition keeps_tasks {A} (m : M A) : Prop :=
  forall d, tasks (snd (m d)) = tasks d.

(** The names a tag list stands for: blank entries dropped, the others in
    canonical form. *)
Definition canonical_names (names : list string) : list string :=
  map canonical (filter (fun n => truthy (trim n)) names).

(** Store invariants that the schema and the write paths maintain: [tags.id]
    is a primary key, and stored tag names are in lower case. *)
Definition tag_ids_unique (d : Db) : Prop := NoDup (map tag_id (tags d)).

Definition tags_lowercase (d : Db) : Prop :=
  forall t, In t (tags d) -> toLowerCase (tag_name t) = tag_name t.

(* ================================================================= *)
(** ** tagService.js: deleting a tag *)

(** [SELECT 1 FROM task_tags tt JOIN tasks t ON tt.task_id = t.id
    WHERE tt.tag_id = ? AND t.userId = ?] *)
Definition user_tag_rows (tagId user : Z) (d : Db) : list (task_tag_row * task_row) :=
  flat_map (fun r =>
    flat_map (fun t =>
      if (tt_task_id r =? id t) && (tt_tag_id r =? tagId) && (userId t =? user)
      then [(r, t)] else [])
      (tasks d))
    (task_tags d).

(** [DELETE FROM tags WHERE id = ?], returning [changes]; the rows of
    [task_tags] that point at the tag go with it ([ON DELETE CASCADE]). *)
Definition delete_tag_row (tagId : Z) : M Z :=
  fun d =>
    (Ok (Z.of_nat (List.length (filter (fun t => tag_id t =? tagId) (tags d)))),
     mkDb (tasks d)
          (filter (fun t => negb (tag_id t =? tagId)) (tags d))
          (filter (fun r => negb (tt_tag_id r =? tagId)) (task_tags d))
          (tags_seq d)).

Definition tag_not_found : error := AppError "Tag not found." 404.

Definition delete_not_permitted : error :=
  AppError "You do not have permission to delete this tag as it is not associated with your tasks." 403.

Definition tag_in_use : error :=
  AppError "Tag cannot be deleted as it is still associated with one or more tasks." 400.

Definition tag_vanished : error :=
  AppError "Tag not found or could not be deleted (it may have been removed by another process)." 404.

(** [deleteTag(tagId, userId)] *)
Definition deleteTag (tagId user : Z) : M bool :=
  tagExists <- query (fun d => find (fun t => tag_id t =? tagId) (tags d)) ;;
  match tagExists with
  | None => throw tag_not_found
  | Some _ =>
      userUsesTag <- query (fun d => hd_error (user_tag_rows tagId user d)) ;;
      match userUsesTag with
      | None => throw delete_not_permitted
      | Some _ =>
          anyTaskUsingTag <-
            query (fun d => find (fun r => tt_tag_id r =? tagId) (task_tags d)) ;;
          match anyTaskUsingTag with
          | Some _ => throw tag_in_use
          | None =>
              changes <- delete_tag_row tagId ;;
              if changes =? 0 then throw tag_vanished else ret true
          end
      end
  end.

(* ================================================================= *)
(** ** taskService.js: the list query *)

(** What [options.completed] can hold: the query string as the controller
    passes it on, or a boolean from a direct caller. *)
Inductive js_value :=
| JsString (s : string)
| JsBool (b : bool).

(** The [options] argument of [getAllTasks]; an absent key is [None]. *)
Record options := mkOptions {
  opt_page : option Z;
  opt_limit : option Z;
  opt_completed : option js_value;
  opt_sortBy : option string;
  opt_tags : option string;
  opt_tagMatchMode : option string
}.

(** What [getAllTasks] returns. *)
Record tasks_page := mkPage {
  r_tasks : list task;
  r_total : Z;
  r_page : Z;
  r_limit : Z;
  r_totalPages : Z
}.

(** [options.tags.split(',').map(tag => tag.trim().toLowerCase())
    .filter(tag => tag.length > 0)], or [[]] when [options.tags] is absent
    or empty. *)
Definition tagNamesToFilter (o : options) : list string :=
  match opt_tags o with
  | Some s =>
      if truthy s
      then filter (fun tag => (0 <? String.length tag)%nat)
                  (map (fun tag => toLowerCase (trim tag)) (split "," s))
      else []
  | None => []
  end.

(** [options.tagMatchMode || 'all'] *)
Definition tagMatchMode (o : options) : string :=
  match opt_tagMatchMode o with
  | Some m => if truthy m then m else "all"
  | None => "all"
  end.

(** [options.completed === 'true' || options.completed === true ? 1 : 0] *)
Definition completedValue (v : js_value) : Z :=
  match v with
  | JsString s => if s =? "true" then 1 else 0
  | JsBool b => if b then 1 else 0
  end%string.

(** [t.userId = ?] and, when [options.completed] is given, [t.completed = ?]. *)
Definition where_task (user : Z) (o : options) (t : task_row) : bool :=
  (userId t =? user)
  && match opt_completed o with
     | Some v => completed t =? completedValue v
     | None => true
     end.

(** [lower(ta.name) IN (lower(?), ..., lower(?))] *)
Definition where_tag (names : list string) (ta : tag_row) : bool :=
  existsb (fun n => nocase_eqb (tag_name ta) n) names.

(** [FROM tasks t INNER JOIN task_tags tt ON t.id = tt.task_id
    INNER JOIN tags ta ON tt.tag_id = ta.id] *)
Definition task_tag_join (d : Db) : list (task_row * tag_row) :=
  flat_map (fun t =>
    flat_map (fun r =>
      if tt_task_id r =? id t
      then flat_map (fun ta =>
             if tag_id ta =? tt_tag_id r then [(t, ta)] else []) (tags d)
      else [])
      (task_tags d))
    (tasks d).

(** The joined rows that pass the [WHERE] clause. *)
Definition matching_join (user : Z) (o : options) (names : list string) (d : Db)
  : list (task_row * tag_row) :=
  filter (fun p => where_task user o (fst p) && where_tag names (snd p))
         (task_tag_join d).

(** [GROUP BY key HAVING COUNT(DISTINCT lower(ta.name)) = n], yielding the
    key of every group that is kept. *)
Definition group_having {K} (eq_dec : forall a b : K, {a = b} + {a <> b})
           (key : task_row -> K) (n : Z) (rows : list (task_row * tag_row))
  : list K :=
  filter (fun k =>
            Z.of_nat (List.length
              (distinct string_dec
                 (map (fun p => toLowerCase (tag_name (snd p)))
                      (filter (fun p => if eq_dec (key (fst p)) k then true else false)
                              rows))))
            =? n)
         (distinct eq_dec (map (fun p => key (fst p)) rows)).

(** The page query up to its [HAVING] clause: every task the filters
    select, before [ORDER BY] and [LIMIT]. *)
Definition select_tasks (user : Z) (o : options) (d : Db) : list task_row :=
  let names := tagNamesToFilter o in
  match names with
  | [] => distinct task_row_eq_dec (filter (where_task user o) (tasks d))
  | _ =>
      let rows := matching_join user o names d in
      if (tagMatchMode o =? "all")%string
      then distinct task_row_eq_dec
             (group_having task_row_eq_dec (fun t => t)
                           (Z.of_nat (List.length names)) rows)
      else distinct task_row_eq_dec (map fst rows)
  end.

(** The count query. *)
Definition count_tasks (user : Z) (o : options) (d : Db) : Z :=
  let names := tagNamesToFilter o in
  match names with
  | [] => Z.of_nat (List.length (filter (where_task user o) (tasks d)))
  | _ =>
      let rows := matching_join user o names d in
      if (tagMatchMode o =? "all")%string
      then Z.of_nat (List.length
             (distinct Z.eq_dec
                (group_having Z.eq_dec id (Z.of_nat (List.length names)) rows)))
      else if (tagMatchMode o =? "any")%string
      then Z.of_nat (List.length
             (distinct Z.eq_dec (map (fun p => id (fst p)) rows)))
      else Z.of_nat (List.length rows)
  end.

Definition allowedFields : list string :=
  ["createdAt"; "updatedAt"; "title"; "completed"].

(** How SQLite compares two rows on a sort column: text columns by their
    bytes, [completed] as a number. *)
Definition column_leb (field : string) (a b : task_row) : bool :=
  if (field =? "createdAt")%string then String.leb (createdAt a) (createdAt b)
  else if (field =? "updatedAt")%string then String.leb (updatedAt a) (updatedAt b)
  else if (field =? "title")%string then String.leb (title a) (title b)
  else completed a <=? completed b.

(** [ORDER BY t.field ASC] or [DESC]. *)
Definition order_by_column (field : string) (desc : bool) (rows : list task_row)
  : list task_row :=
  order_by (fun a b => if desc then column_leb field b a else column_leb field a b)
           rows.

(** The sorting step of [getAllTasks]. *)
Definition apply_sort (o : options) (rows : list task_row) : list task_row :=
  match opt_sortBy o with
  | Some s =>
      if truthy s then
        let parts := split "_" s in
        let field := hd "" parts in
        let desc :=
          match nth_error parts 1 with
          | Some order => truthy order && (toUpperCase order =? "DESC")%string
          | None => false
          end in
        if existsb (String.eqb field) allowedFields
        then order_by_column field desc rows
        else rows
      else order_by_column "createdAt" true rows
  | None => order_by_column "createdAt" true rows
  end.

(** [parseInt(x, 10) || dflt] for [x] an integer or absent. *)
Definition int_or (x : option Z) (dflt : Z) : Z :=
  match x with
  | Some n => if n =? 0 then dflt else n
  | None => dflt
  end.

(** [Math.ceil(a / b)] for [b] not zero. *)
Definition ceil_div (a b : Z) : Z := - ((- a) / b).

(** [getAllTasks(userId, options)] *)
Definition getAllTasks (user : Z) (o : options) (d : Db) : tasks_page :=
  let total := count_tasks user o d in
  let page := int_or (opt_page o) 1 in
  let limit := int_or (opt_limit o) 10 in
  let offset := (page - 1) * limit in
  let tasksFromDb :=
    limit_offset limit offset (apply_sort o (select_tasks user o d)) in
  let tasksWithTags :=
    map (fun t => transformTaskFromDb t (getTagsForTask (id t) d)) tasksFromDb in
  mkPage tasksWithTags total page limit (ceil_div total limit).

(** [options] with another page number. *)
Definition with_page (o : options) (p : Z) : options :=
  mkOptions (Some p) (opt_limit o) (opt_completed o) (opt_sortBy o)
            (opt_tags o) (opt_tagMatchMode o).

(** [options] with another [tagMatchMode]. *)
Definition with_tagMatchMode (o : options) (m : option string) : options :=
  mkOptions (opt_page o) (opt_limit o) (opt_completed o) (opt_sortBy o)
            (opt_tags o) m.

(** [options] with another [sortBy]. *)
Definition with_sortBy (o : options) (s : option string) : options :=
  mkOptions (opt_page o) (opt_limit o) (opt_completed o) s
            (opt_tags o) (opt_tagMatchMode o).

(** [options] with another [tags] string. *)
Definition with_tags (o : options) (s : option string) : options :=
  mkOptions (opt_page o) (opt_limit o) (opt_completed o) (opt_sortBy o)
            s (opt_tagMatchMode o).

(* ================================================================= *)
(** ** validation.js: the query schema *)

(** [Joi.string().trim().valid('all', 'any').optional()]: the value is
    trimmed, then it has to be one of the two modes.  [None] as the result
    is a rejected request (status 400). *)
Definition validate_tagMatchMode (v : option string) : option (option string) :=
  match v with
  | None => Some None
  | Some s =>
      let s' := trim s in
      if ((s' =? "all") || (s' =? "any"))%string then Some (Some s') else None
  end.

(** [Joi.string().regex(/^(createdAt|updatedAt|title|completed)_(ASC|DESC)$/i)
    .optional()] *)
Definition validate_sortBy (v : option string) : option (option string) :=
  match v with
  | None => Some None
  | Some s =>
      if existsb (fun field =>
           existsb (fun dir =>
             (toLowerCase s =? toLowerCase (field ++ "_" ++ dir))%string)
             ["ASC"; "DESC"])
           allowedFields
      then Some (Some s) else None
  end.

(** The store after [INSERT INTO tags (name) VALUES (name)]. *)
Definition with_new_tag (name : string) (d : Db) : Db :=
  mkDb (tasks d) (tags d ++ [mkTag (next_tag_id d) name]) (task_tags d)
       (next_tag_id d).

(* ================================================================= *)
(** ** Who uses a tag *)

(** The user owns a task that carries the tag. *)
Definition owns_task_with_tag (tagId user : Z) (d : Db) : Prop :=
  exists r t, In r (task_tags d) /\ In t (tasks d) /\
              tt_task_id r = id t /\ tt_tag_id r = tagId /\ userId t = user.

(** Some task of another user carries the tag. *)
Definition other_user_has_tag (tagId user : Z) (d : Db) : Prop :=
  exists r t, In r (task_tags d) /\ In t (tasks d) /\
              tt_task_id r = id t /\ tt_tag_id r = tagId /\ userId t <> user.

(* ================================================================= *)
(** ** Example stores *)

Definition empty_db : Db := mkDb [] [] [] 0.

(** Two users.  User 1 owns tasks 1 and 2, user 2 owns task 3.  Task 1
    carries the tags a and b, tasks 2 and 3 carry a. *)
Definition two_users_db : Db :=
  mkDb [mkTaskRow 1 "write report" "" 0
                  "2024-01-01T00:00:00.000Z" "2024-01-01T00:00:00.000Z" 1;
        mkTaskRow 2 "book flights" "" 1
                  "2024-01-02T00:00:00.000Z" "2024-01-02T00:00:00.000Z" 1;
        mkTaskRow 3 "call bank" "" 0
                  "2024-01-03T00:00:00.000Z" "2024-01-03T00:00:00.000Z" 2]
       [mkTag 1 "a"; mkTag 2 "b"]
       [mkTaskTag 1 1; mkTaskTag 1 2; mkTaskTag 2 1; mkTaskTag 3 1]
       2.

Definition no_options : options := mkOptions None None None None None None.

(** The task that a successful [updateTask] returns, given the task as it
    was and the tag list read back afterwards. *)
Definition after_update (now : string) (upd : updateData) (old : task)
           (tgs : list tag_row) : task :=
  mkTask (t_id old)
         (match u_title upd with Some x => x | None => t_title old end)
         (match u_description upd with Some x => x | None => t_description old end)
         (match u_completed upd with Some b => b | None => t_completed old end)
         (t_createdAt old) now (t_userId old) tgs.

(** Two updates of task 1 by its owner, both within the clock millisecond
    [2024-06-01T12:00:00.000Z]. *)
Definition same_millisecond : string := "2024-06-01T12:00:00.000Z".

Definition rename_update : updateData := mkUpdate (Some "write the report") None None None.

Definition complete_update : updateData := mkUpdate None None (Some true) None.

Definition after_first_update : Db :=
  snd (updateTask same_millisecond 1 rename_update 1 two_users_db).

(** The whole result of the page query, sorted, before [LIMIT] and
    [OFFSET] cut a page out of it. *)
Definition all_rows (user : Z) (o : options) (d : Db) : list task_row :=
  apply_sort o (select_tasks user o d).


(** The field part of [options.sortBy]: [sortBy.split('_')[0]]. *)
Definition sort_field (s : string) : string := hd "" (split "_" s).

(** [tasks.id] is a primary key. *)
Definition task_ids_unique (d : Db) : Prop := NoDup (map id (tasks d)).

(** A tag update for task 1 that spells one tag three ways. *)
Definition retag_update : updateData :=
  mkUpdate (Some "write the report") None None
           (Some ["Work"; " work "; "WORK"; "Urgent"]).

(** Tasks carrying a or b, one per page. *)
Definition paged_options : options :=
  mkOptions None (Some 1) None None (Some "a, B") (Some "any").

(** [options.tagMatchMode] is absent: [undefined], or the empty string
    that [||] also replaces. *)
Definition tagMatchMode_absent (o : options) : Prop :=
  opt_tagMatchMode o = None \/ opt_tagMatchMode o = Some "".

(** The canonical names of the tags a task carries. *)
Definition attached_names (t : task_row) (d : Db) : list string :=
  map (fun ta => toLowerCase (tag_name ta)) (getTagsForTask (id t) d).

(* ================================================================= *)
(** ** taskService.js: creating and deleting tasks *)

(** The body of a POST request; an absent key is [None]. *)
Record taskData := mkTaskData {
  td_title : string;
  td_description : option string;
  td_completed : option bool;
  td_tags : option (list string)
}.

(** The next AUTOINCREMENT rowid of [tasks]; [tasks_seq] is the
    [sqlite_sequence] entry of the table when the row is inserted. *)
Definition next_task_id (tasks_seq : Z) (d : Db) : Z :=
  Z.max (fold_right Z.max 0 (map id (tasks d))) tasks_seq + 1.

(** [INSERT INTO tasks (title, description, completed, createdAt,
    updatedAt, userId) VALUES (?, ?, ?, ?, ?, ?)], returning [lastID].
    The users table is outside the model: the owner is taken to exist. *)
Definition insert_task (tasks_seq : Z) (newTitle newDescription : string)
           (newCompleted : bool) (newCreatedAt newUpdatedAt : string) (user : Z)
  : M Z :=
  fun d =>
    let i := next_task_id tasks_seq d in
    (Ok i,
     mkDb (tasks d ++ [mkTaskRow i newTitle newDescription
                                 (if newCompleted then 1 else 0)
                                 newCreatedAt newUpdatedAt user])
          (tags d) (task_tags d) (tags_seq d)).

(** [createTask(taskData, userId)]; [now] is the clock reading of the
    call. *)
Definition createTask (now : string) (tasks_seq : Z) (data : taskData) (user : Z)
  : M (option task) :=
  let completedInput :=
    match td_completed data with None => false | Some b => b end in
  let createdAt := now in
  let updatedAt := createdAt in
  newTaskId <- insert_task tasks_seq (td_title data)
                 (match td_description data with
                  | Some s => if truthy s then s else ""
                  | None => ""
                  end)
                 completedInput createdAt updatedAt user ;;
  match td_tags data with
  | Some (n :: ns) => addTagsToTask newTaskId (n :: ns) user
  | _ => ret tt
  end ;;;
  query (getTaskById newTaskId user).

(** [DELETE FROM tasks WHERE id = ? AND userId = ?], returning
    [changes]; the associations of a deleted task go with it
    ([ON DELETE CASCADE]). *)
Definition delete_task_row (taskId user : Z) : M Z :=
  fun d =>
    let gone := filter (fun t => (id t =? taskId) && (userId t =? user)) (tasks d) in
    (Ok (Z.of_nat (List.length gone)),
     mkDb (filter (fun t => negb ((id t =? taskId) && (userId t =? user))) (tasks d))
          (tags d)
          (filter (fun r => negb (existsb (fun t => id t =? tt_task_id r) gone))
                  (task_tags d))
          (tags_seq d)).

(** [deleteTask(id, userId)] *)
Definition deleteTask (taskId user : Z) : M bool :=
  changes <- delete_task_row taskId user ;;
  ret (0 <? changes).

(* ================================================================= *)
(** ** tagService.js: renaming and listing tags *)

(** The double quote character. *)
Definition dquote : string := String (ascii_of_nat 34) EmptyString.

Definition empty_new_name : error := AppError "New tag name cannot be empty." 400.

Definition update_not_permitted : error :=
  AppError "You do not have permission to update this tag as it is not associated with your tasks." 403.

Definition name_conflict (shown : string) : error :=
  AppError ("A tag with the name " ++ dquote ++ shown ++ dquote ++ " already exists.") 409.

Definition name_conflict_constraint (shown : string) : error :=
  AppError ("A tag with the name " ++ dquote ++ shown ++ dquote
            ++ " already exists (database constraint).") 409.

Definition update_failed : error :=
  AppError "Could not update tag due to a server error." 500.

(** [UPDATE tags SET name = ? WHERE id = ?]; the [UNIQUE COLLATE NOCASE]
    constraint refuses the update when the row it rewrites would share its
    name with another row. *)
Definition update_tag_name (name : string) (tagId : Z) : M unit :=
  fun d =>
    if existsb (fun t => tag_id t =? tagId) (tags d)
       && existsb (fun t => negb (tag_id t =? tagId) && nocase_eqb (tag_name t) name)
                  (tags d)
    then (Err (SqliteError unique_tags_name_message), d)
    else (Ok tt,
          mkDb (tasks d)
               (map (fun t => if tag_id t =? tagId then mkTag (tag_id t) name else t)
                    (tags d))
               (task_tags d) (tags_seq d)).

(** [SELECT id FROM tags WHERE lower(name) = ? AND id != ?] *)
Definition select_conflicting_tag (canonicalNewName : string) (tagId : Z) (d : Db)
  : option tag_row :=
  find (fun t => (toLowerCase (tag_name t) =? canonicalNewName)%string
                 && negb (tag_id t =? tagId))
       (tags d).

(** [updateTag(tagId, newName, userId)] *)
Definition updateTag (tagId : Z) (newName : string) (user : Z) : M tag_row :=
  let originalTrimmedNewName := trim newName in
  if negb (truthy originalTrimmedNewName) then throw empty_new_name
  else
    let canonicalNewName := toLowerCase originalTrimmedNewName in
    existingTag <- query (fun d => find (fun t => tag_id t =? tagId) (tags d)) ;;
    match existingTag with
    | None => throw tag_not_found
    | Some _ =>
        userUsesTag <- query (fun d => hd_error (user_tag_rows tagId user d)) ;;
        match userUsesTag with
        | None => throw update_not_permitted
        | Some _ =>
            conflictingTag <- query (select_conflicting_tag canonicalNewName tagId) ;;
            match conflictingTag with
            | Some _ => throw (name_conflict originalTrimmedNewName)
            | None =>
                try_catch
                  (update_tag_name canonicalNewName tagId ;;;
                   ret (mkTag tagId canonicalNewName))
                  (fun e =>
                     if includes (toUpperCase (error_message e))
                                 "UNIQUE CONSTRAINT FAILED: TAGS.NAME"
                     then throw (name_conflict_constraint originalTrimmedNewName)
                     else throw update_failed)
            end
        end
    end.

(** How [ORDER BY lower(t.name) ASC] compares two tags. *)
Definition tag_name_leb (a b : tag_row) : bool :=
  String.leb (toLowerCase (tag_name a)) (toLowerCase (tag_name b)).

(** [FROM tags t JOIN task_tags tt ON t.id = tt.tag_id
    JOIN tasks task ON tt.task_id = task.id WHERE task.userId = ?] *)
Definition user_tags_join (user : Z) (d : Db) : list tag_row :=
  flat_map (fun t =>
    flat_map (fun r =>
      if tag_id t =? tt_tag_id r
      then flat_map (fun tk =>
             if (tt_task_id r =? id tk) && (userId tk =? user) then [t] else [])
             (tasks d)
      else [])
      (task_tags d))
    (tags d).

(** [getAllTagsForUser(userId)] *)
Definition getAllTagsForUser (user : Z) (d : Db) : list tag_row :=
  order_by tag_name_leb (distinct tag_row_eq_dec (user_tags_join user d)).

(** [getAllTags()] *)
Definition getAllTags (d : Db) : list tag_row := order_by tag_name_leb (tags d).

(** SQLite's [s LIKE p] without an escape character: [%] stands for any
    run of characters, [_] for any one character, and letters match
    whatever their case. *)
Fixpoint sql_like (p s : string) : bool :=
  match p with
  | EmptyString => match s with EmptyString => true | _ => false end
  | String c p' =>
      if Ascii.eqb c "%"
      then (fix any (s0 : string) : bool :=
              sql_like p' s0
              || match s0 with
                 | EmptyString => false
                 | String _ s1 => any s1
                 end) s
      else match s with
           | EmptyString => false
           | String c' s' =>
               (Ascii.eqb c "_" || Ascii.eqb (lower_char c) (lower_char c'))
               && sql_like p' s'
           end
  end.

(** [findTagsByPrefix(prefix, userId, limit)] *)
Definition findTagsByPrefix (prefix : string) (user : Z) (limit : Z) (d : Db)
  : list tag_row :=
  let searchPrefix := (toLowerCase prefix ++ "%")%string in
  limit_offset limit 0
    (order_by tag_name_leb
       (distinct tag_row_eq_dec
          (filter (fun t => sql_like searchPrefix (toLowerCase (tag_name t)))
                  (user_tags_join user d)))).

(* ================================================================= *)
(** ** tagController.js: autocomplete *)

Definition digit_of (c : ascii) : option Z :=
  let n := nat_of_ascii c in
  if (48 <=? n)%nat && (n <=? 57)%nat then Some (Z.of_nat (n - 48)) else None.

Fixpoint parse_digits (acc : option Z) (s : string) : option Z :=
  match s with
  | EmptyString => acc
  | String c r =>
      match digit_of c with
      | Some dgt =>
          parse_digits (Some (10 * match acc with Some a => a | None => 0 end + dgt)) r
      | None => acc
      end
  end.

(** [parseInt(s, 10)] on a string; [None] is [NaN].  Leading white space
    and one sign are skipped, then the longest run of digits is read. *)
Definition parseInt (s : string) : option Z :=
  match trimStart s with
  | String c r =>
      if Ascii.eqb c "-" then option_map Z.opp (parse_digits None r)
      else if Ascii.eqb c "+" then parse_digits None r
      else parse_digits None (String c r)
  | EmptyString => None
  end.

(** [autocompleteTags]: the tags sent back for [req.query] holding [q],
    [showAll] and [limit], each a string or absent. *)
Definition autocompleteTags (user : Z) (q showAll limit : option string) (d : Db)
  : list tag_row :=
  let query := match q with Some s => if truthy s then s else "" | None => "" end in
  let showAll := match showAll with Some s => (s =? "true")%string | None => false end in
  let limit := int_or (match limit with Some s => parseInt s | None => None end) 10 in
  if (String.length query <? 1)%nat && negb showAll then []
  else if showAll && (String.length query <? 1)%nat then getAllTagsForUser user d
  else findTagsByPrefix query user limit d.

(* ================================================================= *)
(** ** Store invariants *)

(** No two tags share a name, whatever the letter case ([UNIQUE COLLATE
    NOCASE]). *)
Definition tag_names_unique (d : Db) : Prop :=
  NoDup (map (fun t => toLowerCase (tag_name t)) (tags d)).

(** [(task_id, tag_id)] is the primary key of [task_tags]. *)
Definition associations_unique (d : Db) : Prop := NoDup (task_tags d).

(** Every association points at a task and at a tag that exist. *)
Definition foreign_keys_hold (d : Db) : Prop :=
  forall r, In r (task_tags d) ->
            In (tt_task_id r) (map id (tasks d)) /\
            In (tt_tag_id r) (map tag_id (tags d)).

(** What the schema and the write paths keep true of a store. *)
Record store_ok (d : Db) : Prop := mkStoreOk {
  ok_task_ids : task_ids_unique d;
  ok_tag_ids : tag_ids_unique d;
  ok_tag_names : tag_names_unique d;
  ok_lowercase : tags_lowercase d;
  ok_associations : associations_unique d;
  ok_foreign_keys : foreign_keys_hold d
}.

(** A task row carries a tag name. *)
Definition carries (taskId : Z) (name : string) (d : Db) : Prop :=
  In name (map tag_name (getTagsForTask taskId d)).

(** [s] starts with [p], letter case aside. *)
Fixpoint starts_with_nocase (p s : string) : bool :=
  match p with
  | EmptyString => true
  | String c p' =>
      match s with
      | EmptyString => false
      | String c' s' => Ascii.eqb (lower_char c) (lower_char c') && starts_with_nocase p' s'
      end
  end.

(** [p] holds none of the wildcards of [LIKE]. *)
Fixpoint no_wildcard (p : string) : bool :=
  match p with
  | EmptyString => true
  | String c p' => negb (Ascii.eqb c "%") && negb (Ascii.eqb c "_") && no_wildcard p'
  end.

(** A task of user 1 with a title, a description and three spellings of
    two tags. *)
Definition new_task_data : taskData :=
  mkTaskData "Task With Tags" None None (Some ["work"; "WORK"; " Work "; "home"]).

(** A step that keeps the store invariants, whether it returns or throws. *)
Definition keeps_ok {A} (m : M A) : Prop :=
  forall d, store_ok d -> store_ok (snd (m d)).

(** The row a rename leaves in place of a tag row. *)
Definition renamed (tagId : Z) (name : string) (t : tag_row) : tag_row :=
  if tag_id t =? tagId then mkTag (tag_id t) name else t.

(** One call of a service function that writes to the store. *)
Inductive call :=
| CallFindOrCreateTag (name : string)
| CallAddTagsToTask (taskId : Z) (names : list string) (user : Z)
| CallCreateTask (now : string) (tasks_seq : Z) (data : taskData) (user : Z)
| CallUpdateTask (now : string) (taskId : Z) (upd : updateData) (user : Z)
| CallDeleteTask (taskId user : Z)
| CallUpdateTag (tagId : Z) (newName : string) (user : Z)
| CallDeleteTag (tagId user : Z).

(** The store a call leaves behind, whether it returned or threw. *)
Definition run_call (d : Db) (c : call) : Db :=
  match c with
  | CallFindOrCreateTag name => snd (findOrCreateTag name d)
  | CallAddTagsToTask taskId names user => snd (addTagsToTask taskId names user d)
  | CallCreateTask now tasks_seq data user => snd (createTask now tasks_seq data user d)
  | CallUpdateTask now taskId upd user => snd (updateTask now taskId upd user d)
  | CallDeleteTask taskId user => snd (deleteTask taskId user d)
  | CallUpdateTag tagId newName user => snd (updateTag tagId newName user d)
  | CallDeleteTag tagId user => snd (deleteTag tagId user d)
  end.

(** The store after a sequence of calls, starting from the empty store. *)
Definition run_calls (calls : list call) : Db := fold_left run_call calls empty_db.

(** [a] comes no later than [b] under [ORDER BY lower(name) ASC]. *)
Definition tag_name_le (a b : tag_row) : Prop := tag_name_leb a b = true.

(** How [getAllTasks] dresses a row: [{ ...transformTaskFromDb(task), tags }]. *)
Definition with_tags_of (d : Db) (t : task_row) : task :=
  transformTaskFromDb t (getTagsForTask (id t) d).

(** [a] comes no later than [b] under [ORDER BY t.field] in the given
    direction. *)
Definition column_le (field : string) (desc : bool) (a b : task_row) : Prop :=
  (if desc then column_leb field b a else column_leb field a b) = true.

(* ================================================================= *)
(** ** taskController.js and the error handler *)

(** What a handler sends: the status and the JSON body. *)
Inductive json :=
| JsonTask (t : task)
| JsonMessage (message : string)
| NoBody.

Record response := mkResponse { res_status : Z; res_body : json }.

(** [errorHandler] on the errors the services throw (neither a Joi nor an
    [UnauthorizedError]): [err.statusCode || 500] and [err.message || ...];
    an error of the database driver has no [statusCode]. *)
Definition errorHandler (err : error) : response :=
  let statusCode :=
    match err with
    | AppError _ c => if c =? 0 then 500 else c
    | SqliteError _ => 500
    end in
  let message := error_message err in
  mkResponse statusCode
             (JsonMessage (if truthy message then message
                           else "An unexpected internal server error occurred.")).

(** [try { ... } catch (error) { next(error); }] *)
Definition handler (m : M response) : Db -> response * Db :=
  fun d => match m d with
           | (Ok res, d') => (res, d')
           | (Err e, d') => (errorHandler e, d')
           end.

Definition task_not_found : response :=
  mkResponse 404 (JsonMessage "Task not found or not owned by user").

Module taskController.

Definition getTaskById (taskId user : Z) : Db -> response * Db :=
  handler (task <- query (getTaskById taskId user) ;;
           match task with
           | None => ret task_not_found
           | Some t => ret (mkResponse 200 (JsonTask t))
           end).

Definition updateTask (now : string) (taskId : Z) (body : updateData) (user : Z)
  : Db -> response * Db :=
  handler (updatedTask <- updateTask now taskId body user ;;
           match updatedTask with
           | None => ret task_not_found
           | Some t => ret (mkResponse 200 (JsonTask t))
           end).

Definition deleteTask (taskId user : Z) : Db -> response * Db :=
  handler (success <- deleteTask taskId user ;;
           if success then ret (mkResponse 204 NoBody) else ret task_not_found).

End taskController.


(* ################################################################# *)
(** * Properties *)

(* ================================================================= *)
(** ** Canonical tag names *)

Lemma lower_char_idem (c : ascii) : lower_char (lower_char c) = lower_char c.
Proof. destruct c as [[] [] [] [] [] [] [] []]; reflexivity. Qed.

Lemma is_space_lower_char (c : ascii) : is_space (lower_char c) = is_space c.
Proof. destruct c as [[] [] [] [] [] [] [] []]; reflexivity. Qed.

Lemma toLowerCase_idem (s : string) : toLowerCase (toLowerCase s) = toLowerCase s.
Proof.
  induction s as [|c r IH]; simpl; [reflexivity|].
  now rewrite lower_char_idem, IH.
Qed.

Lemma truthy_toLowerCase (s : string) : truthy (toLowerCase s) = truthy s.
Proof. destruct s; reflexivity. Qed.

Lemma truthy_false_iff (s : string) : truthy s = false <-> s = "".
Proof. destruct s; simpl; split; congruence. Qed.

Lemma trimStart_toLowerCase (s : string) :
  trimStart (toLowerCase s) = toLowerCase (trimStart s).
Proof.
  induction s as [|c r IH]; simpl; [reflexivity|].
  rewrite is_space_lower_char. destruct (is_space c); [exact IH | reflexivity].
Qed.

Lemma trimEnd_toLowerCase (s : string) :
  trimEnd (toLowerCase s) = toLowerCase (trimEnd s).
Proof.
  induction s as [|c r IH]; simpl; [reflexivity|].
  rewrite IH, is_space_lower_char.
  destruct (trimEnd r); simpl; [destruct (is_space c)|]; reflexivity.
Qed.

Lemma trim_toLowerCase (s : string) : trim (toLowerCase s) = toLowerCase (trim s).
Proof. unfold trim. now rewrite trimStart_toLowerCase, trimEnd_toLowerCase. Qed.

Lemma trimEnd_idem (s : string) : trimEnd (trimEnd s) = trimEnd s.
Proof.
  induction s as [|c r IH]; simpl; [reflexivity|].
  destruct (trimEnd r) as [|c' r'] eqn:E.
  - destruct (is_space c) eqn:Hc; simpl; [reflexivity | now rewrite Hc].
  - simpl in *. now rewrite IH.
Qed.

Lemma trimStart_trimEnd_head (c : ascii) (r : string) :
  is_space c = false -> trimStart (trimEnd (String c r)) = trimEnd (String c r).
Proof.
  intros Hc. simpl.
  destruct (trimEnd r); simpl; rewrite ?Hc; simpl; rewrite ?Hc; reflexivity.
Qed.

Lemma trim_idem (s : string) : trim (trim s) = trim s.
Proof.
  unfold trim.
  assert (H : trimStart (trimEnd (trimStart s)) = trimEnd (trimStart s)).
  { induction s as [|c r IH]; [reflexivity|].
    simpl trimStart at 2 3. destruct (is_space c) eqn:Hc; [exact IH|].
    now apply trimStart_trimEnd_head. }
  now rewrite H, trimEnd_idem.
Qed.

Lemma trim_canonical (s : string) : trim (canonical s) = canonical s.
Proof. unfold canonical. now rewrite trim_toLowerCase, trim_idem. Qed.

Lemma canonical_idem (s : string) : canonical (canonical s) = canonical s.
Proof.
  unfold canonical at 1. rewrite trim_canonical.
  unfold canonical. apply toLowerCase_idem.
Qed.

Lemma nocase_eqb_refl (s : string) : nocase_eqb s s = true.
Proof. unfold nocase_eqb. apply String.eqb_refl. Qed.

(* ================================================================= *)
(** ** findOrCreateTag *)

Lemma find_none_existsb {A} (p : A -> bool) (l : list A) :
  find p l = None -> existsb p l = false.
Proof.
  induction l as [|x r IH]; simpl; [reflexivity|].
  destruct (p x); [discriminate | exact IH].
Qed.

Lemma find_app_none {A} (p : A -> bool) (l1 l2 : list A) :
  find p l1 = None -> find p (l1 ++ l2) = find p l2.
Proof.
  induction l1 as [|x r IH]; simpl; [reflexivity|].
  destruct (p x); [discriminate | exact IH].
Qed.

Lemma find_app_some {A} (p : A -> bool) (l1 l2 : list A) (a : A) :
  find p l1 = Some a -> find p (l1 ++ l2) = Some a.
Proof.
  induction l1 as [|x r IH]; simpl; [discriminate|].
  destruct (p x); [trivial | exact IH].
Qed.

(** What [findOrCreateTag] does for a name that is not blank: the row
    found under the canonical name, or else a fresh row. *)
Lemma findOrCreateTag_eq (s : string) (d : Db) :
  truthy (trim s) = true ->
  findOrCreateTag s d =
  match select_tag_by_name (canonical s) d with
  | Some t => (Ok (Some (mkTag (tag_id t) (canonical s))), d)
  | None => (Ok (Some (mkTag (next_tag_id d) (canonical s))),
             with_new_tag (canonical s) d)
  end.
Proof.
  intros Hs. unfold findOrCreateTag. rewrite Hs. simpl.
  fold (canonical s). unfold bind at 1, query at 1.
  destruct (select_tag_by_name (canonical s) d) as [t|] eqn:Hsel.
  - reflexivity.
  - unfold try_catch, bind, insert_tag.
    unfold select_tag_by_name in Hsel.
    now rewrite (find_none_existsb _ _ Hsel).
Qed.

Lemma select_after_insert (c : string) (d : Db) :
  select_tag_by_name c d = None ->
  select_tag_by_name c (with_new_tag c d) = Some (mkTag (next_tag_id d) c).
Proof.
  unfold select_tag_by_name, with_new_tag. simpl. intros H.
  rewrite (find_app_none _ _ _ H). simpl. now rewrite nocase_eqb_refl.
Qed.

(** C7. For every input whose trimmed form is not empty, [findOrCreateTag]
    on the input and on its canonical form (trimmed, lower case) are the
    same call: they return the same tag id, with the canonical name, and
    leave the same store; asking again under either spelling returns that
    same tag and writes nothing. *)
Theorem findOrCreateTag_canonical (s : string) (d : Db) :
  trim s <> "" ->
  exists t d1,
    findOrCreateTag s d = (Ok (Some t), d1) /\
    tag_name t = canonical s /\
    findOrCreateTag (canonical s) d = (Ok (Some t), d1) /\
    findOrCreateTag (canonical s) d1 = (Ok (Some t), d1) /\
    findOrCreateTag s d1 = (Ok (Some t), d1).
Proof.
  intros Hne.
  assert (Hs : truthy (trim s) = true).
  { destruct (truthy (trim s)) eqn:E; [reflexivity|].
    apply truthy_false_iff in E. contradiction. }
  assert (Hc : truthy (trim (canonical s)) = true).
  { rewrite trim_canonical. unfold canonical. now rewrite truthy_toLowerCase. }
  destruct (select_tag_by_name (canonical s) d) as [t|] eqn:Hsel.
  - exists (mkTag (tag_id t) (canonical s)), d.
    rewrite (findOrCreateTag_eq (canonical s) d Hc), (findOrCreateTag_eq s d Hs).
    rewrite canonical_idem, Hsel. repeat split; reflexivity.
  - exists (mkTag (next_tag_id d) (canonical s)), (with_new_tag (canonical s) d).
    rewrite (findOrCreateTag_eq (canonical s) d Hc), (findOrCreateTag_eq s d Hs).
    rewrite (findOrCreateTag_eq (canonical s) _ Hc), (findOrCreateTag_eq s _ Hs).
    rewrite canonical_idem, Hsel, (select_after_insert _ _ Hsel).
    repeat split; reflexivity.
Qed.

Lemma findOrCreateTag_canonical_witness :
  trim "  Work " <> "" /\
  exists t d1,
    findOrCreateTag "  Work " empty_db = (Ok (Some t), d1) /\
    tag_name t = canonical "  Work " /\
    findOrCreateTag (canonical "  Work ") empty_db = (Ok (Some t), d1) /\
    findOrCreateTag (canonical "  Work ") d1 = (Ok (Some t), d1) /\
    findOrCreateTag "  Work " d1 = (Ok (Some t), d1).
Proof.
  split; [discriminate|].
  apply (findOrCreateTag_canonical "  Work " empty_db). discriminate.
Defined.

(** C9, as the code has it. For every input whose trimmed form is empty,
    [findOrCreateTag] raises nothing: it returns [null], and the store
    (the tags table included) is left as it was. *)
Theorem findOrCreateTag_blank (s : string) (d : Db) :
  trim s = "" -> findOrCreateTag s d = (Ok None, d).
Proof.
  intros H. unfold findOrCreateTag. now rewrite H.
Qed.

Lemma findOrCreateTag_blank_witness :
  trim "   " = "" /\ findOrCreateTag "   " empty_db = (Ok None, empty_db).
Proof.
  split; [reflexivity|]. apply (findOrCreateTag_blank "   " empty_db). reflexivity.
Defined.

(** C9, counterexample. On the blank name made of three spaces the call is
    not an error: it returns normally, with [null]. *)
Lemma findOrCreateTag_blank_not_error :
  trim "   " = "" /\
  fst (findOrCreateTag "   " empty_db) = Ok None /\
  (forall e, fst (findOrCreateTag "   " empty_db) <> Err e).
Proof.
  split; [reflexivity|]. split; [reflexivity|]. intros e. discriminate.
Qed.

(* ================================================================= *)
(** ** deleteTag *)

Lemma find_some_of_In {A} (p : A -> bool) (l : list A) (a : A) :
  In a l -> p a = true -> exists b, find p l = Some b.
Proof.
  induction l as [|x r IH]; simpl; [contradiction|].
  intros [->|Hin] Hp.
  - rewrite Hp. eauto.
  - destruct (p x); eauto.
Qed.

Lemma find_none_of_not_In {A} (p : A -> bool) (l : list A) :
  (forall a, In a l -> p a = false) -> find p l = None.
Proof.
  induction l as [|x r IH]; simpl; [reflexivity|].
  intros H. rewrite (H x) by now left. apply IH. intros a Ha. apply H. now right.
Qed.

Lemma in_user_tag_rows (tagId user : Z) (d : Db) (r : task_tag_row) (t : task_row) :
  In (r, t) (user_tag_rows tagId user d) <->
  In r (task_tags d) /\ In t (tasks d) /\
  tt_task_id r = id t /\ tt_tag_id r = tagId /\ userId t = user.
Proof.
  unfold user_tag_rows. rewrite in_flat_map. split.
  - intros [r' [Hr Hin]]. rewrite in_flat_map in Hin.
    destruct Hin as [t' [Ht Hin]].
    destruct ((tt_task_id r' =? id t') && (tt_tag_id r' =? tagId) && (userId t' =? user))
      eqn:E; [|contradiction].
    destruct Hin as [Heq|[]]. inversion Heq; subst.
    apply andb_prop in E. destruct E as [E E3].
    apply andb_prop in E. destruct E as [E1 E2].
    apply Z.eqb_eq in E1, E2, E3. auto.
  - intros (Hr & Ht & E1 & E2 & E3). exists r. split; [exact Hr|].
    rewrite in_flat_map. exists t. split; [exact Ht|].
    rewrite E1, E2, E3, !Z.eqb_refl. simpl. now left.
Qed.

Lemma user_tag_rows_nil_iff (tagId user : Z) (d : Db) :
  user_tag_rows tagId user d = [] <-> ~ owns_task_with_tag tagId user d.
Proof.
  split.
  - intros Hnil (r & t & H). apply (proj2 (in_user_tag_rows tagId user d r t)) in H.
    rewrite Hnil in H. exact H.
  - intros Hno. destruct (user_tag_rows tagId user d) as [|[r t] rest] eqn:E;
      [reflexivity|].
    exfalso. apply Hno. exists r, t. apply in_user_tag_rows. rewrite E. now left.
Qed.

(** [deleteTag] on a tag that exists: without an owned task that carries
    the tag the permission check throws; with one, the global usage check
    finds that same association and throws. *)
Lemma deleteTag_existing (tagId user : Z) (d : Db) :
  In tagId (map tag_id (tags d)) ->
  deleteTag tagId user d =
  match user_tag_rows tagId user d with
  | [] => (Err delete_not_permitted, d)
  | _ :: _ => (Err tag_in_use, d)
  end.
Proof.
  intros Hin. apply in_map_iff in Hin. destruct Hin as [tg [Hid Htg]].
  destruct (find_some_of_In (fun t => tag_id t =? tagId) _ tg Htg) as [tg' Hf].
  { apply Z.eqb_eq. exact Hid. }
  unfold deleteTag, bind, query. rewrite Hf.
  destruct (user_tag_rows tagId user d) as [|[r t] rest] eqn:E; simpl.
  - reflexivity.
  - assert (Hrt : In (r, t) (user_tag_rows tagId user d)) by (rewrite E; now left).
    apply in_user_tag_rows in Hrt. destruct Hrt as (Hr & _ & _ & E2 & _).
    destruct (find_some_of_In (fun r => tt_tag_id r =? tagId) _ r Hr) as [r' Hf'].
    { apply Z.eqb_eq. exact E2. }
    now rewrite Hf'.
Qed.

(** C10. [deleteTag] never removes a tag row: every call throws and leaves
    the store (so the tags table) as it was.  For a tag that exists, a
    requester who owns no task carrying it gets the permission error, and
    a requester who owns one gets the still-in-use error, because that very
    task still references the tag. *)
Theorem deleteTag_never_deletes (tagId user : Z) (d : Db) :
  exists e,
    deleteTag tagId user d = (Err e, d) /\
    (In tagId (map tag_id (tags d)) ->
     (~ owns_task_with_tag tagId user d -> e = delete_not_permitted) /\
     (owns_task_with_tag tagId user d -> e = tag_in_use)).
Proof.
  destruct (in_dec Z.eq_dec tagId (map tag_id (tags d))) as [Hin|Hnot].
  - rewrite (deleteTag_existing tagId user d Hin).
    destruct (user_tag_rows tagId user d) as [|p rest] eqn:E.
    + exists delete_not_permitted. split; [reflexivity|]. intros _. split; [trivial|].
      intros Hown. apply user_tag_rows_nil_iff in E. contradiction.
    + exists tag_in_use. split; [reflexivity|]. intros _. split; [|trivial].
      intros Hno. apply user_tag_rows_nil_iff in Hno. congruence.
  - exists tag_not_found. split; [|contradiction].
    unfold deleteTag, bind, query.
    rewrite find_none_of_not_In; [reflexivity|].
    intros a Ha. apply Z.eqb_neq. intros Heq. apply Hnot.
    apply in_map_iff. eauto.
Qed.

Lemma deleteTag_never_deletes_witness :
  In 2 (map tag_id (tags two_users_db)) /\
  exists e,
    deleteTag 2 1 two_users_db = (Err e, two_users_db) /\
    (In 2 (map tag_id (tags two_users_db)) ->
     (~ owns_task_with_tag 2 1 two_users_db -> e = delete_not_permitted) /\
     (owns_task_with_tag 2 1 two_users_db -> e = tag_in_use)).
Proof.
  split; [simpl; auto|]. apply (deleteTag_never_deletes 2 1 two_users_db).
Defined.

(** C4, as the code has it. When the tag is carried by a task of another
    user and by no task of the requester, [deleteTag] throws the permission
    error (status 403): the ownership check runs before the usage check.
    The tag row and every association are left as they were. *)
Theorem deleteTag_others_tag_not_permitted (tagId user : Z) (d : Db) :
  In tagId (map tag_id (tags d)) ->
  other_user_has_tag tagId user d ->
  ~ owns_task_with_tag tagId user d ->
  deleteTag tagId user d = (Err delete_not_permitted, d).
Proof.
  intros Hin _ Hno. rewrite (deleteTag_existing tagId user d Hin).
  apply user_tag_rows_nil_iff in Hno. now rewrite Hno.
Qed.

Lemma two_users_db_tag_b :
  In 2 (map tag_id (tags two_users_db)) /\
  other_user_has_tag 2 2 two_users_db /\
  ~ owns_task_with_tag 2 2 two_users_db.
Proof.
  split; [simpl; auto|]. split.
  - exists (mkTaskTag 1 2), (mkTaskRow 1 "write report" ""  0
             "2024-01-01T00:00:00.000Z" "2024-01-01T00:00:00.000Z" 1).
    simpl. repeat split; auto. discriminate.
  - apply user_tag_rows_nil_iff. reflexivity.
Defined.

Lemma deleteTag_others_tag_not_permitted_witness :
  deleteTag 2 2 two_users_db = (Err delete_not_permitted, two_users_db).
Proof.
  apply (deleteTag_others_tag_not_permitted 2 2 two_users_db);
    apply two_users_db_tag_b.
Defined.

(** C4, counterexample. Tag 2 is carried by a task of user 1 only; user 2
    asks for its deletion and gets the permission error, not the
    still-in-use error. *)
Lemma deleteTag_others_tag_is_not_in_use_error :
  In 2 (map tag_id (tags two_users_db)) /\
  other_user_has_tag 2 2 two_users_db /\
  ~ owns_task_with_tag 2 2 two_users_db /\
  fst (deleteTag 2 2 two_users_db) = Err delete_not_permitted /\
  fst (deleteTag 2 2 two_users_db) <> Err tag_in_use.
Proof.
  destruct two_users_db_tag_b as (H1 & H2 & H3).
  repeat split; try assumption; try reflexivity.
  vm_compute. discriminate.
Qed.

(* ================================================================= *)
(** ** Steps that leave the tasks table alone *)

Lemma keeps_tasks_ret {A} (a : A) : keeps_tasks (ret a).
Proof. intros d. reflexivity. Qed.

Lemma keeps_tasks_throw {A} (e : error) : keeps_tasks (@throw A e).
Proof. intros d. reflexivity. Qed.

Lemma keeps_tasks_query {A} (q : Db -> A) : keeps_tasks (query q).
Proof. intros d. reflexivity. Qed.

Lemma keeps_tasks_bind {A B} (m : M A) (k : A -> M B) :
  keeps_tasks m -> (forall a, keeps_tasks (k a)) -> keeps_tasks (bind m k).
Proof.
  intros Hm Hk d. unfold bind. specialize (Hm d).
  destruct (m d) as [[a|e] d1]; simpl in *.
  - now rewrite Hk.
  - exact Hm.
Qed.

Lemma keeps_tasks_try_catch {A} (m : M A) (h : error -> M A) :
  keeps_tasks m -> (forall e, keeps_tasks (h e)) -> keeps_tasks (try_catch m h).
Proof.
  intros Hm Hh d. unfold try_catch. specialize (Hm d).
  destruct (m d) as [[a|e] d1]; simpl in *.
  - exact Hm.
  - now rewrite Hh.
Qed.

Lemma keeps_tasks_mapM {A B} (f : A -> M B) (l : list A) :
  (forall a, keeps_tasks (f a)) -> keeps_tasks (mapM f l).
Proof.
  intros Hf. induction l as [|x r IH]; simpl.
  - apply keeps_tasks_ret.
  - apply keeps_tasks_bind; [apply Hf|]. intros y.
    apply keeps_tasks_bind; [exact IH|]. intros ys. apply keeps_tasks_ret.
Qed.

Lemma keeps_tasks_forM_ {A} (f : A -> M unit) (l : list A) :
  (forall a, keeps_tasks (f a)) -> keeps_tasks (forM_ f l).
Proof.
  intros Hf. induction l as [|x r IH]; simpl.
  - apply keeps_tasks_ret.
  - apply keeps_tasks_bind; [apply Hf | intros _; exact IH].
Qed.

Lemma keeps_tasks_insert_tag (name : string) : keeps_tasks (insert_tag name).
Proof. intros d. unfold insert_tag. now destruct (existsb _ _). Qed.

Lemma keeps_tasks_insert_or_ignore (taskId tagId : Z) :
  keeps_tasks (insert_or_ignore_task_tag taskId tagId).
Proof.
  intros d. unfold insert_or_ignore_task_tag.
  destruct (existsb _ (task_tags d)); [reflexivity|].
  now destruct (_ && _).
Qed.

Lemma keeps_tasks_findOrCreateTag (name : string) : keeps_tasks (findOrCreateTag name).
Proof.
  unfold findOrCreateTag. destruct (negb (truthy (trim name))).
  - apply keeps_tasks_ret.
  - apply keeps_tasks_bind; [apply keeps_tasks_query|]. intros [t|].
    + apply keeps_tasks_ret.
    + apply keeps_tasks_try_catch.
      * apply keeps_tasks_bind; [apply keeps_tasks_insert_tag|].
        intros i. apply keeps_tasks_ret.
      * intros e. destruct (_ && _); [|apply keeps_tasks_throw].
        apply keeps_tasks_bind; [apply keeps_tasks_query|].
        intros [t|]; [apply keeps_tasks_ret | apply keeps_tasks_throw].
Qed.

Lemma keeps_tasks_addTagsToTask (taskId : Z) (names : list string) (user : Z) :
  keeps_tasks (addTagsToTask taskId names user).
Proof.
  unfold addTagsToTask. destruct names as [|n ns]; [apply keeps_tasks_ret|].
  apply keeps_tasks_bind; [apply keeps_tasks_query|]. intros [t|].
  - apply keeps_tasks_bind.
    + apply keeps_tasks_mapM. apply keeps_tasks_findOrCreateTag.
    + intros found. apply keeps_tasks_forM_. intros tag.
      apply keeps_tasks_insert_or_ignore.
  - apply keeps_tasks_ret.
Qed.

Lemma keeps_tasks_update_tags (taskId : Z) (newTags : option (list string)) (user : Z) :
  keeps_tasks (update_tags taskId newTags user).
Proof.
  unfold update_tags. destruct newTags as [names|]; [|apply keeps_tasks_ret].
  apply keeps_tasks_bind; [intros d; reflexivity|]. intros _.
  destruct names; [apply keeps_tasks_ret | apply keeps_tasks_addTagsToTask].
Qed.

(* ================================================================= *)
(** ** updateTask *)

Lemma find_map_same_pred {A} (p : A -> bool) (f : A -> A) (l : list A) :
  (forall x, p (f x) = p x) -> find p (map f l) = option_map f (find p l).
Proof.
  intros Hp. induction l as [|x r IH]; simpl; [reflexivity|].
  rewrite Hp. destruct (p x); [reflexivity | exact IH].
Qed.

Lemma getTaskById_some (taskId user : Z) (d : Db) (old : task) :
  getTaskById taskId user d = Some old ->
  exists r,
    find (fun t => (id t =? taskId) && (userId t =? user)) (tasks d) = Some r /\
    old = transformTaskFromDb r (getTagsForTask (id r) d) /\
    id r = taskId /\ userId r = user.
Proof.
  unfold getTaskById. intros H.
  destruct (find _ (tasks d)) as [r|] eqn:Hf; [|discriminate].
  exists r. injection H as <-. split; [reflexivity|]. split; [reflexivity|].
  apply find_some in Hf. destruct Hf as [_ Hp].
  apply andb_prop in Hp. destruct Hp as [H1 H2].
  now apply Z.eqb_eq in H1, H2.
Qed.

(** [updateTask] on an owned task: the row is rewritten, the tag step
    runs, and the task is read back. *)
Lemma updateTask_eq (now : string) (taskId user : Z) (upd : updateData)
      (d : Db) (old : task) :
  getTaskById taskId user d = Some old ->
  updateTask now taskId upd user d =
  match update_tags taskId (u_tags upd) user
          (snd (update_task_row
                  (match u_title upd with Some x => x | None => t_title old end)
                  (match u_description upd with
                   | Some x => x | None => t_description old end)
                  (match u_completed upd with
                   | Some b => b | None => t_completed old end)
                  now taskId user d)) with
  | (Ok _, d2) => (Ok (getTaskById taskId user d2), d2)
  | (Err e, d2) => (Err e, d2)
  end.
Proof.
  intros Hold. unfold updateTask. unfold bind at 1, query at 1. rewrite Hold.
  unfold bind at 1. simpl. unfold bind, query.
  destruct (update_tags _ _ _ _) as [[u|e] d2]; reflexivity.
Qed.

(** Reading the task back from any store whose tasks table is the one the
    [UPDATE] left. *)
Lemma getTaskById_updated (now : string) (taskId user : Z) (upd : updateData)
      (d d2 : Db) (old : task) (nt nd : string) (nc : bool) :
  getTaskById taskId user d = Some old ->
  tasks d2 = tasks (snd (update_task_row nt nd nc now taskId user d)) ->
  getTaskById taskId user d2 =
  Some (mkTask (t_id old) nt nd nc (t_createdAt old) now (t_userId old)
               (getTagsForTask taskId d2)).
Proof.
  intros Hold Htasks.
  destruct (getTaskById_some _ _ _ _ Hold) as (r & Hf & -> & Hid & Hu).
  unfold getTaskById. rewrite Htasks. simpl.
  rewrite find_map_same_pred.
  - rewrite Hf. simpl. unfold transformTaskFromDb. simpl.
    rewrite Hid, Hu, !Z.eqb_refl. simpl. rewrite ?Hid.
    now destruct nc.
  - intros x. destruct ((id x =? taskId) && (userId x =? user)) eqn:E;
      simpl; now rewrite E.
Qed.

(** Every update that succeeds returns the old task with the present
    fields replaced, the clock reading as [updatedAt], and the tag list as
    the store then has it. *)
Lemma updateTask_result (now : string) (taskId user : Z) (upd : updateData)
      (d d' : Db) (old : task) (res : option task) :
  getTaskById taskId user d = Some old ->
  updateTask now taskId upd user d = (Ok res, d') ->
  res = Some (after_update now upd old (getTagsForTask taskId d')).
Proof.
  intros Hold Hrun. rewrite (updateTask_eq now taskId user upd d old Hold) in Hrun.
  destruct (update_tags _ _ _ _) as [[u|e] d2] eqn:Htags; [|discriminate].
  injection Hrun as <- <-.
  pose proof (keeps_tasks_update_tags taskId (u_tags upd) user) as Hk.
  specialize (Hk (snd (update_task_row
                  (match u_title upd with Some x => x | None => t_title old end)
                  (match u_description upd with
                   | Some x => x | None => t_description old end)
                  (match u_completed upd with
                   | Some b => b | None => t_completed old end)
                  now taskId user d))).
  rewrite Htags in Hk. simpl fst in Hk. simpl snd in Hk at 1.
  exact (getTaskById_updated now taskId user upd d d2 old _ _ _ Hold Hk).
Qed.

(** What a successful [updateTask] returns is the task as the store has
    it once the call is over. *)
Lemma updateTask_reads_back (now : string) (taskId user : Z) (upd : updateData)
      (d d' : Db) (old : task) (res : option task) :
  getTaskById taskId user d = Some old ->
  updateTask now taskId upd user d = (Ok res, d') ->
  getTaskById taskId user d' = res.
Proof.
  intros Hold Hrun. rewrite (updateTask_eq now taskId user upd d old Hold) in Hrun.
  destruct (update_tags _ _ _ _) as [[u|e] d2]; [|discriminate].
  injection Hrun as Hres Hd. now subst.
Qed.

(** C5, as the code has it. A successful update stores the clock reading
    of that update as [updatedAt]: the task read from the store after the
    update is the task returned, and its [updatedAt] is that reading.  So
    the stored [updatedAt] is strictly greater than the one stored before
    exactly when the clock reading is. *)
Theorem updateTask_updatedAt_is_clock (now : string) (taskId user : Z)
        (upd : updateData) (d d' : Db) (old new : task) :
  getTaskById taskId user d = Some old ->
  updateTask now taskId upd user d = (Ok (Some new), d') ->
  getTaskById taskId user d' = Some new /\
  t_updatedAt new = now /\
  String.ltb (t_updatedAt old) (t_updatedAt new) = String.ltb (t_updatedAt old) now.
Proof.
  intros Hold Hrun.
  split; [exact (updateTask_reads_back now taskId user upd d d' old _ Hold Hrun)|].
  pose proof (updateTask_result now taskId user upd d d' old _ Hold Hrun) as H.
  injection H as ->. simpl. split; reflexivity.
Qed.

Lemma updateTask_updatedAt_is_clock_witness :
  exists old new d',
    getTaskById 1 1 two_users_db = Some old /\
    updateTask same_millisecond 1 rename_update 1 two_users_db = (Ok (Some new), d') /\
    getTaskById 1 1 d' = Some new /\
    t_updatedAt new = same_millisecond /\
    String.ltb (t_updatedAt old) (t_updatedAt new)
    = String.ltb (t_updatedAt old) same_millisecond.
Proof.
  eexists. eexists. eexists.
  split; [vm_compute; reflexivity|]. split; [vm_compute; reflexivity|].
  eapply (updateTask_updatedAt_is_clock same_millisecond 1 1 rename_update
            two_users_db); vm_compute; reflexivity.
Defined.

(** C5, counterexample. Two successful updates of task 1 in immediate
    succession, both within one clock millisecond: the task read from the
    store after the second one has the [updatedAt] it had in the store
    before it, not a strictly greater one. *)
Lemma updateTask_twice_same_millisecond :
  exists before after d2,
    getTaskById 1 1 after_first_update = Some before /\
    updateTask same_millisecond 1 complete_update 1 after_first_update
      = (Ok (Some after), d2) /\
    getTaskById 1 1 d2 = Some after /\
    t_completed after = true /\ t_completed before = false /\
    t_updatedAt after = t_updatedAt before /\
    String.ltb (t_updatedAt before) (t_updatedAt after) = false.
Proof.
  eexists. eexists. eexists.
  split; [vm_compute; reflexivity|].
  split; [vm_compute; reflexivity|].
  split; [vm_compute; reflexivity|].
  repeat split; reflexivity.
Qed.

(* ================================================================= *)
(** ** Replacing the tags of a task *)

Lemma fold_max_ge (l : list Z) (x : Z) : In x l -> x <= fold_right Z.max 0 l.
Proof.
  induction l as [|y r IH]; simpl; [contradiction|].
  intros [->|H]; [lia|]. specialize (IH H). lia.
Qed.

Lemma next_tag_id_fresh (d : Db) : ~ In (next_tag_id d) (map tag_id (tags d)).
Proof.
  intros H. apply fold_max_ge in H. unfold next_tag_id in H. lia.
Qed.

Lemma with_new_tag_ids_unique (c : string) (d : Db) :
  tag_ids_unique d -> tag_ids_unique (with_new_tag c d).
Proof.
  unfold tag_ids_unique, with_new_tag. simpl. intros H.
  rewrite map_app. apply NoDup_app; [exact H | |].
  - simpl. constructor; [intros [] | constructor].
  - simpl. intros a Ha [<-|[]]. exact (next_tag_id_fresh d Ha).
Qed.

Lemma with_new_tag_lowercase (s : string) (d : Db) :
  tags_lowercase d -> tags_lowercase (with_new_tag (canonical s) d).
Proof.
  unfold tags_lowercase, with_new_tag. simpl. intros H t Ht.
  apply in_app_or in Ht. destruct Ht as [Ht|[<-|[]]]; [now apply H|].
  simpl. unfold canonical. apply toLowerCase_idem.
Qed.

(** A tag found under a canonical name is stored under exactly that name
    when stored names are in lower case. *)
Lemma select_tag_by_name_canonical (s : string) (d : Db) (t : tag_row) :
  tags_lowercase d ->
  select_tag_by_name (canonical s) d = Some t ->
  In t (tags d) /\ mkTag (tag_id t) (canonical s) = t.
Proof.
  intros Hlow Hsel. unfold select_tag_by_name in Hsel.
  apply find_some in Hsel. destruct Hsel as [Hin Heq]. split; [exact Hin|].
  unfold nocase_eqb in Heq. apply String.eqb_eq in Heq.
  rewrite (Hlow t Hin) in Heq. unfold canonical in Heq at 1.
  rewrite toLowerCase_idem in Heq. fold (canonical s) in Heq.
  destruct t as [i n]. simpl in *. now subst.
Qed.

Lemma findOrCreateTag_no_name (s : string) (d : Db) :
  trim s = "" -> findOrCreateTag s d = (Ok None, d).
Proof.
  intros Hblank. unfold findOrCreateTag. rewrite Hblank. reflexivity.
Qed.

(** [findOrCreateTag] never throws; it touches only the tags table, and
    only by appending; it keeps the store invariants; and for a name that
    is not blank the tag it returns is a row of the table that carries the
    canonical name. *)
Lemma findOrCreateTag_spec (s : string) (d : Db) :
  tag_ids_unique d -> tags_lowercase d ->
  exists r d',
    findOrCreateTag s d = (Ok r, d') /\
    task_tags d' = task_tags d /\
    incl (tags d) (tags d') /\
    tag_ids_unique d' /\ tags_lowercase d' /\
    (if truthy (trim s)
     then exists t, r = Some t /\ In t (tags d') /\ tag_name t = canonical s
     else r = None).
Proof.
  intros Hu Hl. destruct (truthy (trim s)) eqn:Hs.
  - rewrite (findOrCreateTag_eq s d Hs).
    destruct (select_tag_by_name (canonical s) d) as [t|] eqn:Hsel.
    + destruct (select_tag_by_name_canonical s d t Hl Hsel) as [Hin Heq].
      exists (Some (mkTag (tag_id t) (canonical s))), d.
      repeat split; auto using incl_refl.
      exists (mkTag (tag_id t) (canonical s)).
      split; [reflexivity|]. split; [rewrite Heq; exact Hin | reflexivity].
    + exists (Some (mkTag (next_tag_id d) (canonical s))), (with_new_tag (canonical s) d).
      split; [reflexivity|]. split; [reflexivity|].
      split; [simpl; apply incl_appl, incl_refl|].
      split; [now apply with_new_tag_ids_unique|].
      split; [now apply with_new_tag_lowercase|].
      eexists. split; [reflexivity|]. split; [|reflexivity].
      simpl. apply in_or_app. right. now left.
  - apply truthy_false_iff in Hs. rewrite (findOrCreateTag_no_name s d Hs).
    exists None, d. repeat split; auto using incl_refl.
Qed.

Lemma mapM_findOrCreateTag_spec (names : list string) (d : Db) :
  tag_ids_unique d -> tags_lowercase d ->
  exists found d',
    mapM findOrCreateTag names d = (Ok found, d') /\
    task_tags d' = task_tags d /\
    incl (tags d) (tags d') /\
    tag_ids_unique d' /\ tags_lowercase d' /\
    (forall t, In t (somes found) -> In t (tags d')) /\
    map tag_name (somes found) = canonical_names names.
Proof.
  revert d. induction names as [|n ns IH]; intros d Hu Hl.
  - exists [], d. simpl. repeat split; auto using incl_refl. intros t [].
  - destruct (findOrCreateTag_spec n d Hu Hl)
      as (r & d1 & Hrun & Htt & Hincl & Hu1 & Hl1 & Hr).
    destruct (IH d1 Hu1 Hl1)
      as (found & d2 & Hrun2 & Htt2 & Hincl2 & Hu2 & Hl2 & Hin2 & Hnames).
    exists (r :: found), d2. simpl. unfold bind. rewrite Hrun, Hrun2. simpl.
    split; [reflexivity|]. split; [congruence|].
    split; [eapply incl_tran; eassumption|].
    split; [exact Hu2|]. split; [exact Hl2|].
    unfold canonical_names. simpl. fold (canonical_names ns).
    destruct (truthy (trim n)).
    + destruct Hr as (t & -> & Hin & Hname). simpl. split.
      * intros t' [<-|Ht']; [now apply Hincl2 | now apply Hin2].
      * now rewrite Hname, Hnames.
    + subst r. simpl. split; assumption.
Qed.

Lemma existsb_task_tag (taskId tagId : Z) (l : list task_tag_row) :
  existsb (fun r => (tt_task_id r =? taskId) && (tt_tag_id r =? tagId)) l = true
  <-> In (mkTaskTag taskId tagId) l.
Proof.
  rewrite existsb_exists. split.
  - intros [[a b] [Hin H]]. simpl in H. apply andb_prop in H. destruct H as [H1 H2].
    apply Z.eqb_eq in H1, H2. now subst.
  - intros H. exists (mkTaskTag taskId tagId). split; [exact H|].
    simpl. now rewrite !Z.eqb_refl.
Qed.

(** Attaching a list of tags that are rows of the tags table to a task
    that exists: nothing throws, and the associations afterwards are the
    old ones and one per attached tag. *)
Lemma attach_tags_spec (taskId : Z) (ts : list tag_row) (d : Db) :
  In taskId (map id (tasks d)) ->
  (forall t, In t ts -> In t (tags d)) ->
  exists d',
    forM_ (fun tag => insert_or_ignore_task_tag taskId (tag_id tag)) ts d = (Ok tt, d') /\
    tasks d' = tasks d /\ tags d' = tags d /\
    (forall r, In r (task_tags d') <->
               In r (task_tags d) \/
               (tt_task_id r = taskId /\ In (tt_tag_id r) (map tag_id ts))).
Proof.
  revert d. induction ts as [|t ts IH]; intros d Htask Hts.
  - exists d. simpl. split; [reflexivity|]. split; [reflexivity|].
    split; [reflexivity|]. intros r. tauto.
  - simpl. unfold bind.
    assert (Hstep : exists d1,
               insert_or_ignore_task_tag taskId (tag_id t) d = (Ok tt, d1) /\
               tasks d1 = tasks d /\ tags d1 = tags d /\
               (forall r, In r (task_tags d1) <->
                          In r (task_tags d) \/ r = mkTaskTag taskId (tag_id t))).
    { unfold insert_or_ignore_task_tag.
      destruct (existsb _ (task_tags d)) eqn:Hex.
      - exists d. split; [reflexivity|]. split; [reflexivity|].
        split; [reflexivity|]. intros r. split; [tauto|].
        intros [H| ->]; [exact H|]. now apply existsb_task_tag.
      - assert (H1 : existsb (fun t0 => id t0 =? taskId) (tasks d) = true).
        { apply in_map_iff in Htask. destruct Htask as [x [Hx Hin]].
          apply existsb_exists. exists x. split; [exact Hin|]. now apply Z.eqb_eq. }
        assert (H2 : existsb (fun t0 => tag_id t0 =? tag_id t) (tags d) = true).
        { apply existsb_exists. exists t. split; [apply Hts; now left|].
          apply Z.eqb_refl. }
        rewrite H1, H2. simpl. eexists. split; [reflexivity|]. simpl.
        split; [reflexivity|]. split; [reflexivity|]. intros r. split.
        + intros H. apply in_app_or in H. destruct H as [H|[<-|[]]]; auto.
        + intros [H| ->]; apply in_or_app; [now left | right; now left]. }
    destruct Hstep as (d1 & Hrun & Htasks1 & Htags1 & Hrows1).
    destruct (IH d1) as (d2 & Hrun2 & Htasks2 & Htags2 & Hrows2).
    { now rewrite Htasks1. }
    { intros t' Ht'. rewrite Htags1. apply Hts. now right. }
    exists d2. rewrite Hrun, Hrun2.
    split; [reflexivity|]. split; [congruence|]. split; [congruence|].
    intros r. rewrite Hrows2, Hrows1. simpl. split.
    + intros [[H| ->]|[H1 H2]]; auto.
    + intros [H|[H1 [H2|H2]]]; auto.
      left. right. destruct r as [a b]. simpl in *. now subst.
Qed.

Lemma in_getTagsForTask (taskId : Z) (d : Db) (t : tag_row) :
  In t (getTagsForTask taskId d) <->
  In t (tags d) /\
  exists r, In r (task_tags d) /\ tt_tag_id r = tag_id t /\ tt_task_id r = taskId.
Proof.
  unfold getTagsForTask. rewrite in_flat_map. split.
  - intros [t' [Ht' Hin]]. rewrite in_flat_map in Hin.
    destruct Hin as [r [Hr Hin]].
    destruct ((tag_id t' =? tt_tag_id r) && (tt_task_id r =? taskId)) eqn:E;
      [|contradiction].
    destruct Hin as [<-|[]]. apply andb_prop in E. destruct E as [E1 E2].
    apply Z.eqb_eq in E1, E2. split; [exact Ht'|]. exists r. auto.
  - intros [Ht [r (Hr & E1 & E2)]]. exists t. split; [exact Ht|].
    rewrite in_flat_map. exists r. split; [exact Hr|].
    rewrite E1, E2, !Z.eqb_refl. simpl. now left.
Qed.

Lemma tag_of_unique_id (l : list tag_row) (a b : tag_row) :
  NoDup (map tag_id l) -> In a l -> In b l -> tag_id a = tag_id b -> a = b.
Proof.
  induction l as [|x r IH]; simpl; [contradiction|].
  intros Hnd Ha Hb Hid. inversion Hnd as [|? ? Hnotin Hnd']; subst.
  destruct Ha as [<-|Ha], Hb as [<-|Hb]; auto.
  - exfalso. apply Hnotin. rewrite Hid. now apply in_map.
  - exfalso. apply Hnotin. rewrite <- Hid. now apply in_map.
Qed.

Lemma nil_of_no_member {A} (l : list A) : (forall x, ~ In x l) -> l = [].
Proof.
  destruct l as [|x r]; [reflexivity|]. intros H. exfalso. apply (H x). now left.
Qed.

Lemma getTagsForTask_after_clear (taskId : Z) (d : Db) :
  getTagsForTask taskId (snd (clearTagsForTask taskId d)) = [].
Proof.
  apply nil_of_no_member. intros t Ht. apply in_getTagsForTask in Ht.
  destruct Ht as [_ [r (Hr & _ & Hid)]]. simpl in Hr.
  apply filter_In in Hr. destruct Hr as [_ Hr].
  rewrite Hid, Z.eqb_refl in Hr. discriminate.
Qed.

(** For an owned task and a tag list that is not empty, [addTagsToTask]
    resolves every name and attaches what it found. *)
Lemma addTagsToTask_owned (taskId user : Z) (names : list string) (d : Db)
      (row : task_row) :
  names <> [] ->
  find (fun t => (id t =? taskId) && (userId t =? user)) (tasks d) = Some row ->
  addTagsToTask taskId names user d =
  (found <- mapM findOrCreateTag names ;;
   forM_ (fun tag => insert_or_ignore_task_tag taskId (tag_id tag)) (somes found)) d.
Proof.
  intros Hne Hrow. destruct names as [|n ns]; [congruence|].
  unfold addTagsToTask. unfold bind at 1, query. now rewrite Hrow.
Qed.

(** Replacing the tags of an owned task: the tag step of [updateTask]
    returns, and the tags then read back for the task are, by name, the
    canonical names of the new list. *)
Lemma update_tags_replace (taskId user : Z) (names : list string) (d : Db) (row : task_row) :
  tag_ids_unique d -> tags_lowercase d ->
  find (fun t => (id t =? taskId) && (userId t =? user)) (tasks d) = Some row ->
  exists d',
    update_tags taskId (Some names) user d = (Ok tt, d') /\
    (forall n, In n (map tag_name (getTagsForTask taskId d')) <->
               In n (canonical_names names)) /\
    (names = [] -> getTagsForTask taskId d' = []) /\
    tag_ids_unique d' /\ tags_lowercase d'.
Proof.
  intros Hu Hl Hrow. unfold update_tags, bind.
  pose proof (getTagsForTask_after_clear taskId d) as Hclear.
  destruct (clearTagsForTask taskId d) as [[[]|e] dc] eqn:Hc;
    [|discriminate Hc].
  assert (Hdc : dc = mkDb (tasks d) (tags d)
                  (filter (fun r => negb (tt_task_id r =? taskId)) (task_tags d))
                  (tags_seq d)).
  { unfold clearTagsForTask, delete_task_tags_of in Hc. now injection Hc as <-. }
  simpl in Hclear.
  destruct names as [|n ns].
  - exists dc. split; [reflexivity|]. rewrite Hclear. simpl.
    split; [tauto|]. split; [trivial|]. rewrite Hdc. split; assumption.
  - cbv iota.
    rewrite (addTagsToTask_owned taskId user (n :: ns) dc row);
      [|discriminate|now rewrite Hdc].
    set (names := n :: ns). unfold bind.
    destruct (mapM_findOrCreateTag_spec names dc)
      as (found & d1 & Hrun & Htt & Hincl & Hu1 & Hl1 & Hin1 & Hnm).
    { now rewrite Hdc. } { now rewrite Hdc. }
    rewrite Hrun.
    pose proof (keeps_tasks_mapM findOrCreateTag names keeps_tasks_findOrCreateTag dc)
      as Hk.
    rewrite Hrun in Hk. simpl in Hk.
    destruct (attach_tags_spec taskId (somes found) d1)
      as (d2 & Hrun2 & Htasks2 & Htags2 & Hrows2).
    { rewrite Hk, Hdc. simpl. apply find_some in Hrow. destruct Hrow as [Hin Hp].
      apply andb_prop in Hp. destruct Hp as [Hp _]. apply Z.eqb_eq in Hp.
      rewrite <- Hp. now apply in_map. }
    { exact Hin1. }
    exists d2. split; [exact Hrun2|].
    assert (Hinv : tag_ids_unique d2 /\ tags_lowercase d2).
    { unfold tag_ids_unique, tags_lowercase. rewrite Htags2. split; assumption. }
    split; [|split; [discriminate | exact Hinv]].
    assert (Hmem : forall t, In t (getTagsForTask taskId d2) <-> In t (somes found)).
    { intros t. rewrite in_getTagsForTask, Htags2. split.
      - intros [Ht [r (Hr & Hid & Htask)]]. apply Hrows2 in Hr.
        destruct Hr as [Hr|[_ Hr]].
        + exfalso. rewrite Htt, Hdc in Hr. simpl in Hr.
          apply filter_In in Hr. destruct Hr as [_ Hr].
          rewrite Htask, Z.eqb_refl in Hr. discriminate.
        + rewrite Hid in Hr. apply in_map_iff in Hr. destruct Hr as [t' [Hid' Ht']].
          assert (t' = t) as <-; [|exact Ht'].
          apply (tag_of_unique_id (tags d1)); auto.
      - intros Ht. split; [now apply Hin1|].
        exists (mkTaskTag taskId (tag_id t)). simpl. split; [|auto].
        apply Hrows2. right. simpl. split; [reflexivity|]. now apply in_map. }
    intros nm. rewrite <- Hnm. rewrite !in_map_iff. split.
    + intros [t [Hn Ht]]. exists t. split; [exact Hn|]. now apply Hmem.
    + intros [t [Hn Ht]]. exists t. split; [exact Hn|]. now apply Hmem.
Qed.

(** C6. A partial update of an owned task succeeds, and the task it
    returns is the task as the store has it afterwards, with the tags the
    store then associates with it.  In that task [title], [description]
    and [completed] are changed only where the update carries the field;
    with a [tags] key, the task's tags afterwards are, by name, exactly
    the canonical names of the new list (none for the empty array);
    without one, the task's tags and both tag tables are what they were.
    The store invariants assumed of the tags table hold again
    afterwards. *)
Theorem updateTask_partial_update (now : string) (taskId user : Z)
        (upd : updateData) (d : Db) (old : task) :
  tag_ids_unique d -> tags_lowercase d ->
  getTaskById taskId user d = Some old ->
  exists new d',
    updateTask now taskId upd user d = (Ok (Some new), d') /\
    getTaskById taskId user d' = Some new /\
    t_tags new = getTagsForTask taskId d' /\
    t_title new = match u_title upd with Some x => x | None => t_title old end /\
    t_description new =
      match u_description upd with Some x => x | None => t_description old end /\
    t_completed new =
      match u_completed upd with Some b => b | None => t_completed old end /\
    t_id new = t_id old /\ t_userId new = t_userId old /\
    t_createdAt new = t_createdAt old /\
    match u_tags upd with
    | Some names =>
        (forall n, In n (map tag_name (t_tags new)) <-> In n (canonical_names names)) /\
        (names = [] -> t_tags new = [])
    | None =>
        t_tags new = t_tags old /\ task_tags d' = task_tags d /\ tags d' = tags d
    end /\
    tag_ids_unique d' /\ tags_lowercase d'.
Proof.
  intros Hu Hl Hold.
  assert (Hrun : exists d',
             updateTask now taskId upd user d
             = (Ok (Some (after_update now upd old (getTagsForTask taskId d'))), d') /\
             match u_tags upd with
             | Some names =>
                 (forall n, In n (map tag_name (getTagsForTask taskId d')) <->
                            In n (canonical_names names)) /\
                 (names = [] -> getTagsForTask taskId d' = [])
             | None =>
                 getTagsForTask taskId d' = t_tags old /\
                 task_tags d' = task_tags d /\ tags d' = tags d
             end /\
             tag_ids_unique d' /\ tags_lowercase d').
  { assert (Hsucc : forall d' u,
              update_tags taskId (u_tags upd) user
                (snd (update_task_row
                  (match u_title upd with Some x => x | None => t_title old end)
                  (match u_description upd with
                   | Some x => x | None => t_description old end)
                  (match u_completed upd with
                   | Some b => b | None => t_completed old end)
                  now taskId user d)) = (Ok u, d') ->
              updateTask now taskId upd user d
              = (Ok (Some (after_update now upd old (getTagsForTask taskId d'))), d')).
    { intros d' u Htags.
      pose proof (updateTask_eq now taskId user upd d old Hold) as Heq.
      rewrite Htags in Heq.
      rewrite (updateTask_result now taskId user upd d d' old _ Hold Heq) in Heq.
      exact Heq. }
    destruct (getTaskById_some _ _ _ _ Hold) as (r & Hf & Hold' & Hid & Huser).
    destruct (u_tags upd) as [names|] eqn:Htags.
    - edestruct (update_tags_replace taskId user names
                   (snd (update_task_row
                     (match u_title upd with Some x => x | None => t_title old end)
                     (match u_description upd with
                      | Some x => x | None => t_description old end)
                     (match u_completed upd with
                      | Some b => b | None => t_completed old end)
                     now taskId user d)))
        as (d' & Hrun & Hnames & Hnil & Hinv); try assumption.
      + simpl. rewrite find_map_same_pred.
        * rewrite Hf. reflexivity.
        * intros x. destruct ((id x =? taskId) && (userId x =? user)) eqn:E;
            simpl; now rewrite E.
      + exists d'. split; [exact (Hsucc d' tt Hrun)|].
        split; [split; assumption | exact Hinv].
    - eexists. split; [apply (Hsucc _ tt); reflexivity|].
      simpl. split; [|split; assumption].
      split; [|split; reflexivity].
      rewrite Hold'. simpl. now rewrite Hid. }
  destruct Hrun as (d' & Hrun & Htags).
  exists (after_update now upd old (getTagsForTask taskId d')), d'.
  split; [exact Hrun|].
  split; [exact (updateTask_reads_back now taskId user upd d d' old _ Hold Hrun)|].
  simpl. repeat (split; [reflexivity|]). exact Htags.
Qed.

Lemma two_users_db_tag_ids_unique : tag_ids_unique two_users_db.
Proof.
  unfold tag_ids_unique. simpl.
  repeat constructor; simpl; intuition discriminate.
Defined.

Lemma two_users_db_tags_lowercase : tags_lowercase two_users_db.
Proof. intros t [<-|[<-|[]]]; reflexivity. Defined.

Lemma updateTask_partial_update_witness :
  exists old,
    getTaskById 1 1 two_users_db = Some old /\
    exists new d',
      updateTask same_millisecond 1 retag_update 1 two_users_db = (Ok (Some new), d') /\
      getTaskById 1 1 d' = Some new /\
      t_tags new = getTagsForTask 1 d' /\
      t_title new =
        match u_title retag_update with Some x => x | None => t_title old end /\
      t_description new =
        match u_description retag_update with
        | Some x => x | None => t_description old end /\
      t_completed new =
        match u_completed retag_update with
        | Some b => b | None => t_completed old end /\
      t_id new = t_id old /\ t_userId new = t_userId old /\
      t_createdAt new = t_createdAt old /\
      match u_tags retag_update with
      | Some names =>
          (forall n, In n (map tag_name (t_tags new)) <-> In n (canonical_names names)) /\
          (names = [] -> t_tags new = [])
      | None =>
          t_tags new = t_tags old /\ task_tags d' = task_tags two_users_db /\
          tags d' = tags two_users_db
      end /\
      tag_ids_unique d' /\ tags_lowercase d'.
Proof.
  eexists. split; [vm_compute; reflexivity|].
  apply (updateTask_partial_update same_millisecond 1 1 retag_update two_users_db).
  - exact two_users_db_tag_ids_unique.
  - exact two_users_db_tags_lowercase.
  - vm_compute. reflexivity.
Defined.

Example updateTask_retag_example :
  option_map (fun t => (t_title t, map tag_name (t_tags t)))
    (match fst (updateTask same_millisecond 1 retag_update 1 two_users_db) with
     | Ok r => r | Err _ => None end)
  = Some ("write the report", ["work"; "urgent"]).
Proof. vm_compute. reflexivity. Qed.

(* ================================================================= *)
(** ** SELECT DISTINCT, ORDER BY and LIMIT *)

Section Distinct.
Context {A : Type} (eq_dec : forall a b : A, {a = b} + {a <> b}).

Lemma in_distinct (l : list A) (x : A) : In x (distinct eq_dec l) <-> In x l.
Proof.
  induction l as [|y r IH]; simpl; [tauto|].
  rewrite filter_In, IH. split.
  - intros [H|[H _]]; auto.
  - intros [H|H]; [now left|].
    destruct (eq_dec y x) as [E|E]; [now left|].
    right. split; [exact H|]. now destruct (eq_dec y x).
Qed.

Lemma NoDup_distinct (l : list A) : NoDup (distinct eq_dec l).
Proof.
  induction l as [|y r IH]; simpl; constructor.
  - rewrite filter_In. intros [_ H]. now destruct (eq_dec y y).
  - now apply NoDup_filter.
Qed.

Lemma filter_all {B} (p : B -> bool) (l : list B) :
  (forall x, In x l -> p x = true) -> filter p l = l.
Proof.
  induction l as [|y r IH]; simpl; [reflexivity|]. intros H.
  rewrite (H y) by now left. f_equal. apply IH. intros x Hx. apply H. now right.
Qed.

Lemma distinct_NoDup (l : list A) : NoDup l -> distinct eq_dec l = l.
Proof.
  induction 1 as [|y r Hnot Hnd IH]; simpl; [reflexivity|].
  rewrite IH. f_equal. apply filter_all. intros x Hx.
  destruct (eq_dec y x) as [->|]; [contradiction | reflexivity].
Qed.

Lemma distinct_idem (l : list A) (p : A -> bool) :
  distinct eq_dec (filter p (distinct eq_dec l)) = filter p (distinct eq_dec l).
Proof. apply distinct_NoDup, NoDup_filter, NoDup_distinct. Qed.

End Distinct.

(** [DISTINCT] on a column that determines the row keeps the same rows. *)
Lemma distinct_map_inj {A B} (eqA : forall a b : A, {a = b} + {a <> b})
      (eqB : forall a b : B, {a = b} + {a <> b}) (f : A -> B) (l : list A) :
  (forall x y, In x l -> In y l -> f x = f y -> x = y) ->
  distinct eqB (map f l) = map f (distinct eqA l).
Proof.
  induction l as [|x r IH]; simpl; [reflexivity|]. intros Hinj.
  rewrite IH by (intros a b Ha Hb; apply Hinj; now right).
  f_equal. rewrite filter_map_swap. f_equal.
  apply filter_ext_in. intros y Hy. apply in_distinct in Hy.
  destruct (eqB (f x) (f y)) as [E|E], (eqA x y) as [E'|E']; try reflexivity.
  - exfalso. apply E'. apply Hinj; auto.
  - exfalso. apply E. now rewrite E'.
Qed.

Lemma insert_sorted_perm {A} (le : A -> A -> bool) (x : A) (l : list A) :
  Permutation (insert_sorted le x l) (x :: l).
Proof.
  induction l as [|y r IH]; simpl; [reflexivity|].
  destruct (le x y); [reflexivity|].
  rewrite IH. apply perm_swap.
Qed.

Lemma order_by_perm {A} (le : A -> A -> bool) (l : list A) :
  Permutation (order_by le l) l.
Proof.
  induction l as [|x r IH]; simpl; [reflexivity|].
  rewrite insert_sorted_perm. now constructor.
Qed.

Lemma apply_sort_perm (o : options) (rows : list task_row) :
  Permutation (apply_sort o rows) rows.
Proof.
  unfold apply_sort, order_by_column.
  destruct (opt_sortBy o) as [s|]; [|apply order_by_perm].
  destruct (truthy s); [|apply order_by_perm].
  destruct (existsb _ allowedFields); [apply order_by_perm | reflexivity].
Qed.

(* ================================================================= *)
(** ** The count query against the page query *)

Lemma in_task_tag_join (d : Db) (p : task_row * tag_row) :
  In p (task_tag_join d) -> In (fst p) (tasks d).
Proof.
  unfold task_tag_join. rewrite in_flat_map. intros [t [Ht Hin]].
  rewrite in_flat_map in Hin. destruct Hin as [r [Hr Hin]].
  destruct (tt_task_id r =? id t); [|contradiction].
  rewrite in_flat_map in Hin. destruct Hin as [ta [Hta Hin]].
  destruct (tag_id ta =? tt_tag_id r); [|contradiction].
  destruct Hin as [<-|[]]. exact Ht.
Qed.

Lemma in_matching_join (user : Z) (o : options) (names : list string) (d : Db)
      (p : task_row * tag_row) :
  In p (matching_join user o names d) -> In (fst p) (tasks d).
Proof.
  unfold matching_join. rewrite filter_In. intros [H _].
  now apply in_task_tag_join.
Qed.

Lemma task_of_unique_id (l : list task_row) (a b : task_row) :
  NoDup (map id l) -> In a l -> In b l -> id a = id b -> a = b.
Proof.
  induction l as [|x r IH]; simpl; [contradiction|].
  intros Hnd Ha Hb Hid. inversion Hnd as [|? ? Hnotin Hnd']; subst.
  destruct Ha as [<-|Ha], Hb as [<-|Hb]; auto.
  - exfalso. apply Hnotin. rewrite Hid. now apply in_map.
  - exfalso. apply Hnotin. rewrite <- Hid. now apply in_map.
Qed.

(** Grouping the joined rows by [t.id] or by all the columns of [t] keeps
    the same groups, since the id determines the row. *)
Lemma group_having_by_id (d : Db) (n : Z) (rows : list (task_row * tag_row)) :
  task_ids_unique d ->
  (forall p, In p rows -> In (fst p) (tasks d)) ->
  group_having Z.eq_dec id n rows
  = map id (group_having task_row_eq_dec (fun t => t) n rows).
Proof.
  intros Hu Hrows. unfold group_having.
  assert (Hinj : forall x y, In x (map fst rows) -> In y (map fst rows) ->
                             id x = id y -> x = y).
  { intros x y Hx Hy. apply in_map_iff in Hx, Hy.
    destruct Hx as [px [<- Hpx]], Hy as [py [<- Hpy]].
    apply (task_of_unique_id (tasks d)); auto. }
  rewrite <- (map_map fst id rows).
  rewrite (distinct_map_inj task_row_eq_dec Z.eq_dec id (map fst rows) Hinj).
  rewrite filter_map_swap. f_equal.
  change (map (fun p : task_row * tag_row => fst p) rows) with (map fst rows).
  apply filter_ext_in. intros t Ht. apply in_distinct in Ht.
  apply in_map_iff in Ht. destruct Ht as [pt [<- Hpt]].
  do 5 f_equal. apply filter_ext_in. intros p Hp.
  destruct (Z.eq_dec (id (fst p)) (id (fst pt))) as [E|E],
           (task_row_eq_dec (fst p) (fst pt)) as [E'|E']; try reflexivity.
  - exfalso. apply E'. apply (task_of_unique_id (tasks d)); auto.
  - exfalso. apply E. now rewrite E'.
Qed.

(** The total is the number of rows the page query selects. *)
Lemma count_tasks_select_tasks (user : Z) (o : options) (d : Db) :
  task_ids_unique d ->
  tagMatchMode o = "all" \/ tagMatchMode o = "any" ->
  count_tasks user o d = Z.of_nat (List.length (select_tasks user o d)).
Proof.
  intros Hu Hmode. unfold count_tasks, select_tasks.
  destruct (tagNamesToFilter o) as [|n ns] eqn:Hnames.
  - rewrite distinct_NoDup; [reflexivity|].
    apply NoDup_filter. exact (NoDup_map_inv id (tasks d) Hu).
  - set (names := n :: ns).
    set (rows := matching_join user o names d).
    assert (Hrows : forall p, In p rows -> In (fst p) (tasks d))
      by (intros p; apply in_matching_join).
    destruct Hmode as [-> | ->]; simpl String.eqb; cbv iota.
    + rewrite (group_having_by_id d _ rows Hu Hrows).
      unfold group_having. rewrite !distinct_idem.
      rewrite distinct_map_inj with (eqA := task_row_eq_dec).
      * now rewrite distinct_idem, length_map.
      * intros x y Hx Hy. apply filter_In in Hx, Hy.
        destruct Hx as [Hx _], Hy as [Hy _]. apply in_distinct in Hx, Hy.
        apply in_map_iff in Hx, Hy.
        destruct Hx as [px [<- Hpx]], Hy as [py [<- Hpy]].
        apply (task_of_unique_id (tasks d)); auto.
    + rewrite <- (map_map fst id rows).
      rewrite distinct_map_inj with (eqA := task_row_eq_dec).
      * now rewrite length_map.
      * intros x y Hx Hy. apply in_map_iff in Hx, Hy.
        destruct Hx as [px [<- Hpx]], Hy as [py [<- Hpy]].
        apply (task_of_unique_id (tasks d)); auto.
Qed.

(* ================================================================= *)
(** ** Pages *)

Lemma page_lengths_sum {A} (l : list A) (L k : nat) :
  list_sum (map (fun p => List.length (firstn L (skipn ((p - 1) * L) l))) (seq 1 k))
  = Nat.min (k * L) (List.length l).
Proof.
  induction k as [|k IH]; [reflexivity|].
  rewrite seq_S, map_app, list_sum_app, IH. simpl map. simpl list_sum.
  rewrite length_firstn, length_skipn.
  replace (1 + k - 1)%nat with k by lia.
  simpl Nat.mul. lia.
Qed.

Lemma ceil_div_covers (n L : Z) :
  0 <= n -> 0 < L -> 0 <= ceil_div n L /\ n <= ceil_div n L * L.
Proof.
  intros Hn HL. unfold ceil_div.
  pose proof (Z.div_mod (- n) L ltac:(lia)) as Hdm.
  pose proof (Z.mod_pos_bound (- n) L HL) as Hb.
  split; nia.
Qed.

Lemma all_rows_with_page (user : Z) (o : options) (d : Db) (p : Z) :
  all_rows user (with_page o p) d = all_rows user o d.
Proof. reflexivity. Qed.

Lemma count_tasks_with_page (user : Z) (o : options) (d : Db) (p : Z) :
  count_tasks user (with_page o p) d = count_tasks user o d.
Proof. reflexivity. Qed.

Lemma length_all_rows (user : Z) (o : options) (d : Db) :
  List.length (all_rows user o d) = List.length (select_tasks user o d).
Proof. apply Permutation_length, apply_sort_perm. Qed.

Lemma int_or_limit_pos (o : options) :
  (forall l, opt_limit o = Some l -> 0 <= l) -> 0 < int_or (opt_limit o) 10.
Proof.
  intros H. unfold int_or. destruct (opt_limit o) as [l|]; [|lia].
  specialize (H l eq_refl). destruct (Z.eqb_spec l 0); lia.
Qed.

(** The number of tasks on page [p], for a page number from 1 on and a
    positive page size. *)
Lemma page_length (user : Z) (o : options) (d : Db) (p : nat) :
  (1 <= p)%nat -> 0 < int_or (opt_limit o) 10 ->
  List.length (r_tasks (getAllTasks user (with_page o (Z.of_nat p)) d))
  = List.length (firstn (Z.to_nat (int_or (opt_limit o) 10))
                        (skipn ((p - 1) * Z.to_nat (int_or (opt_limit o) 10))
                               (all_rows user o d))).
Proof.
  intros Hp HL. unfold getAllTasks. simpl r_tasks. rewrite length_map.
  fold (all_rows user (with_page o (Z.of_nat p)) d). rewrite all_rows_with_page.
  simpl opt_limit. simpl opt_page. unfold limit_offset.
  set (L := int_or (opt_limit o) 10) in *.
  destruct (Z.ltb_spec L 0) as [Hneg|_]; [lia|].
  do 3 f_equal. unfold int_or.
  destruct (Z.eqb_spec (Z.of_nat p) 0) as [H0|_]; [lia|].
  rewrite Z2Nat.inj_mul by lia. f_equal. lia.
Qed.

(** C2. For every user, every filter (completed, tags, match mode "all" or
    "any") and every page size, the total that [getAllTasks] reports is the
    number of rows its page query selects, and the pages 1 to [totalPages]
    together hold exactly [total] tasks. *)
Theorem getAllTasks_count_consistent (user : Z) (o : options) (d : Db) :
  task_ids_unique d ->
  tagMatchMode o = "all" \/ tagMatchMode o = "any" ->
  (forall l, opt_limit o = Some l -> 0 <= l) ->
  r_total (getAllTasks user o d) = Z.of_nat (List.length (all_rows user o d)) /\
  Z.of_nat
    (list_sum
       (map (fun p => List.length
                        (r_tasks (getAllTasks user (with_page o (Z.of_nat p)) d)))
            (seq 1 (Z.to_nat (r_totalPages (getAllTasks user o d))))))
  = r_total (getAllTasks user o d).
Proof.
  intros Hu Hmode Hlimit.
  pose proof (int_or_limit_pos o Hlimit) as HL.
  assert (Htotal : r_total (getAllTasks user o d)
                   = Z.of_nat (List.length (all_rows user o d))).
  { simpl. rewrite length_all_rows. now apply count_tasks_select_tasks. }
  split; [exact Htotal|].
  rewrite Htotal. f_equal.
  rewrite (map_ext_in _
             (fun p => List.length
                (firstn (Z.to_nat (int_or (opt_limit o) 10))
                        (skipn ((p - 1) * Z.to_nat (int_or (opt_limit o) 10))
                               (all_rows user o d))))).
  - rewrite page_lengths_sum. apply Nat.min_r.
    change (r_totalPages (getAllTasks user o d))
      with (ceil_div (r_total (getAllTasks user o d)) (int_or (opt_limit o) 10)).
    rewrite Htotal.
    destruct (ceil_div_covers (Z.of_nat (List.length (all_rows user o d)))
                              (int_or (opt_limit o) 10)) as [H0 Hc]; [lia|lia|].
    apply Nat2Z.inj_le. rewrite Nat2Z.inj_mul, !Z2Nat.id by lia. exact Hc.
  - intros p Hp. apply in_seq in Hp. apply page_length; [lia | exact HL].
Qed.

Lemma two_users_db_task_ids_unique : task_ids_unique two_users_db.
Proof.
  unfold task_ids_unique. simpl.
  repeat constructor; simpl; intuition discriminate.
Defined.

Lemma getAllTasks_count_consistent_witness :
  r_total (getAllTasks 1 paged_options two_users_db)
  = Z.of_nat (List.length (all_rows 1 paged_options two_users_db)) /\
  Z.of_nat
    (list_sum
       (map (fun p => List.length
                        (r_tasks (getAllTasks 1 (with_page paged_options (Z.of_nat p))
                                              two_users_db)))
            (seq 1 (Z.to_nat (r_totalPages (getAllTasks 1 paged_options two_users_db))))))
  = r_total (getAllTasks 1 paged_options two_users_db).
Proof.
  apply (getAllTasks_count_consistent 1 paged_options two_users_db).
  - exact two_users_db_task_ids_unique.
  - right. reflexivity.
  - intros l H. injection H as <-. lia.
Defined.

Example getAllTasks_paged_example :
  let r := getAllTasks 1 paged_options two_users_db in
  (r_total r, r_totalPages r, map t_id (r_tasks r),
   map t_id (r_tasks (getAllTasks 1 (with_page paged_options 2) two_users_db)))
  = (2, 2, [2], [1]).
Proof. vm_compute. reflexivity. Qed.

(* ================================================================= *)
(** ** The match mode *)

(** What the query schema lets through as [tagMatchMode]. *)
Lemma validate_tagMatchMode_accepted (v v' : option string) :
  validate_tagMatchMode v = Some v' ->
  v' = None \/ v' = Some "all" \/ v' = Some "any".
Proof.
  unfold validate_tagMatchMode. destruct v as [s|].
  - destruct (String.eqb_spec (trim s) "all") as [->|_]; simpl.
    + intros H. injection H as <-. auto.
    + destruct (String.eqb_spec (trim s) "any") as [->|_]; [|discriminate].
      intros H. injection H as <-. auto.
  - intros H. injection H as <-. auto.
Qed.

(** C3, as the code has it. A request whose [tagMatchMode] is absent gets
    exactly what the same request with [tagMatchMode] "all" gets, page and
    total alike.  A mode that is neither "all" nor "any" once trimmed does
    not reach the list operation through the route: the query schema
    rejects it. *)
Theorem getAllTasks_tagMatchMode_absent (user : Z) (o : options) (d : Db) :
  (tagMatchMode_absent o ->
   getAllTasks user o d = getAllTasks user (with_tagMatchMode o (Some "all")) d) /\
  (forall m, opt_tagMatchMode o = Some m -> trim m <> "all" -> trim m <> "any" ->
             validate_tagMatchMode (opt_tagMatchMode o) = None).
Proof.
  split.
  - intros Habs.
    assert (Hmode : tagMatchMode o = "all").
    { unfold tagMatchMode. destruct Habs as [-> | ->]; reflexivity. }
    unfold getAllTasks, count_tasks, select_tasks, apply_sort. simpl.
    change (tagMatchMode (with_tagMatchMode o (Some "all"))) with "all".
    change (tagNamesToFilter (with_tagMatchMode o (Some "all")))
      with (tagNamesToFilter o).
    rewrite Hmode. reflexivity.
  - intros m Hm Hall Hany. rewrite Hm. unfold validate_tagMatchMode.
    destruct (String.eqb_spec (trim m) "all"); [contradiction|].
    destruct (String.eqb_spec (trim m) "any"); [contradiction|]. reflexivity.
Qed.

Lemma getAllTasks_tagMatchMode_absent_witness :
  (tagMatchMode_absent (with_tags no_options (Some "a,b")) /\
   getAllTasks 1 (with_tags no_options (Some "a,b")) two_users_db
   = getAllTasks 1 (with_tagMatchMode (with_tags no_options (Some "a,b")) (Some "all"))
                 two_users_db) /\
  validate_tagMatchMode (Some "sometimes") = None.
Proof.
  split.
  - split; [left; reflexivity|].
    apply (proj1 (getAllTasks_tagMatchMode_absent 1
                    (with_tags no_options (Some "a,b")) two_users_db)).
    left. reflexivity.
  - apply (proj2 (getAllTasks_tagMatchMode_absent 1
                    (with_tagMatchMode no_options (Some "sometimes")) two_users_db)
                 "sometimes"); [reflexivity | discriminate | discriminate].
Defined.

(** C3, counterexample. With the tags a and b asked for and the mode
    "sometimes", user 1 gets both tasks and a total of 3; with the mode
    "all" the same request gets task 1 alone and a total of 1. *)
Lemma getAllTasks_unknown_mode_is_not_all :
  let o := with_tags no_options (Some "a,b") in
  let r := getAllTasks 1 (with_tagMatchMode o (Some "sometimes")) two_users_db in
  let r_all := getAllTasks 1 (with_tagMatchMode o (Some "all")) two_users_db in
  (map t_id (r_tasks r), r_total r) = ([2; 1], 3) /\
  (map t_id (r_tasks r_all), r_total r_all) = ([1], 1) /\
  r_tasks r <> r_tasks r_all /\ r_total r <> r_total r_all.
Proof.
  vm_compute. repeat split; discriminate.
Qed.

(* ================================================================= *)
(** ** The sort option *)

Lemma existsb_eqb_false (x : string) (l : list string) :
  ~ In x l -> existsb (String.eqb x) l = false.
Proof.
  intros H. destruct (existsb (String.eqb x) l) eqn:E; [|reflexivity].
  apply existsb_exists in E. destruct E as [y [Hy Heq]].
  apply String.eqb_eq in Heq. subst. contradiction.
Qed.

Lemma insert_sorted_sorted {A} (le : A -> A -> bool) (x : A) (l : list A) :
  (forall a b, le a b = true \/ le b a = true) ->
  Sorted (fun a b => le a b = true) l ->
  Sorted (fun a b => le a b = true) (insert_sorted le x l).
Proof.
  intros Htot. induction l as [|y r IH]; intros Hs; simpl.
  - repeat constructor.
  - destruct (le x y) eqn:E.
    + constructor; [exact Hs | now constructor].
    + inversion Hs as [|? ? Hr Hhd]; subst.
      constructor; [now apply IH|].
      destruct r as [|z r']; simpl.
      * constructor. destruct (Htot x y); congruence.
      * destruct (le x z); constructor.
        -- destruct (Htot x y); congruence.
        -- now inversion Hhd.
Qed.

Lemma order_by_sorted {A} (le : A -> A -> bool) (l : list A) :
  (forall a b, le a b = true \/ le b a = true) ->
  Sorted (fun a b => le a b = true) (order_by le l).
Proof.
  intros Htot. induction l as [|x r IH]; simpl; [constructor|].
  now apply insert_sorted_sorted.
Qed.

Lemma column_leb_total (field : string) (a b : task_row) :
  column_leb field a b = true \/ column_leb field b a = true.
Proof.
  unfold column_leb.
  destruct (field =? "createdAt")%string; [apply String.leb_total|].
  destruct (field =? "updatedAt")%string; [apply String.leb_total|].
  destruct (field =? "title")%string; [apply String.leb_total|].
  destruct (Z.leb_spec (completed a) (completed b));
    [now left | right; apply Z.leb_le; lia].
Qed.

Lemma order_by_column_sorted (field : string) (desc : bool) (rows : list task_row) :
  Sorted (column_le field desc) (order_by_column field desc rows).
Proof.
  unfold order_by_column, column_le.
  apply (order_by_sorted (fun a b => if desc then column_leb field b a
                                     else column_leb field a b)).
  intros a b. destruct desc; apply column_leb_total.
Qed.








(** What the query schema does with such values: an unknown field is
    rejected, while a known field in another letter case gets through and
    is then not recognised by the sorting step. *)
Example validate_sortBy_examples :
  validate_sortBy (Some "priority_ASC") = None /\
  validate_sortBy (Some "TITLE_asc") = Some (Some "TITLE_asc") /\
  ~ In (sort_field "TITLE_asc") allowedFields.
Proof.
  split; [reflexivity|]. split; [reflexivity|].
  vm_compute. intuition discriminate.
Qed.

(* ================================================================= *)
(** ** Match mode "all" and repeated names *)


Lemma in_task_tag_join_iff (d : Db) (t : task_row) (ta : tag_row) :
  In (t, ta) (task_tag_join d) <->
  In t (tasks d) /\ In ta (getTagsForTask (id t) d).
Proof.
  rewrite in_getTagsForTask. unfold task_tag_join. rewrite in_flat_map. split.
  - intros [t' [Ht' Hin]]. rewrite in_flat_map in Hin. destruct Hin as [r [Hr Hin]].
    destruct (Z.eqb_spec (tt_task_id r) (id t')) as [E1|]; [|contradiction].
    rewrite in_flat_map in Hin. destruct Hin as [ta' [Hta' Hin]].
    destruct (Z.eqb_spec (tag_id ta') (tt_tag_id r)) as [E2|]; [|contradiction].
    destruct Hin as [Heq|[]]. injection Heq as <- <-.
    split; [exact Ht'|]. split; [exact Hta'|]. exists r. auto.
  - intros [Ht [Hta [r (Hr & E1 & E2)]]]. exists t. split; [exact Ht|].
    rewrite in_flat_map. exists r. split; [exact Hr|].
    rewrite E2, Z.eqb_refl. rewrite in_flat_map. exists ta. split; [exact Hta|].
    rewrite E1, Z.eqb_refl. now left.
Qed.

Lemma tagNamesToFilter_lower (o : options) (n : string) :
  In n (tagNamesToFilter o) -> toLowerCase n = n.
Proof.
  unfold tagNamesToFilter. destruct (opt_tags o) as [s|]; [|contradiction].
  destruct (truthy s); [|contradiction].
  rewrite filter_In, in_map_iff. intros [[x [<- _]] _]. apply toLowerCase_idem.
Qed.

Lemma where_tag_iff (names : list string) (ta : tag_row) :
  (forall n, In n names -> toLowerCase n = n) ->
  where_tag names ta = true <-> In (toLowerCase (tag_name ta)) names.
Proof.
  intros Hlow. unfold where_tag. rewrite existsb_exists. split.
  - intros [n [Hn Heq]]. unfold nocase_eqb in Heq. apply String.eqb_eq in Heq.
    rewrite (Hlow n Hn) in Heq. now rewrite Heq.
  - intros H. exists (toLowerCase (tag_name ta)). split; [exact H|].
    unfold nocase_eqb. rewrite toLowerCase_idem. apply String.eqb_refl.
Qed.

(** The distinct matching names counted for the group of task [t]. *)
Lemma in_group_names (user : Z) (o : options) (names : list string) (d : Db)
      (t : task_row) (n : string) :
  (forall x, In x names -> toLowerCase x = x) ->
  In n (distinct string_dec
          (map (fun p => toLowerCase (tag_name (snd p)))
               (filter (fun p => if task_row_eq_dec (fst p) t then true else false)
                       (matching_join user o names d))))
  <-> In t (tasks d) /\ where_task user o t = true /\
      In n names /\ In n (attached_names t d).
Proof.
  intros Hlow. rewrite in_distinct, in_map_iff. unfold attached_names. split.
  - intros [[t' ta] [<- Hin]]. apply filter_In in Hin. destruct Hin as [Hin Heq].
    simpl in *. destruct (task_row_eq_dec t' t) as [->|]; [|discriminate].
    unfold matching_join in Hin. apply filter_In in Hin. destruct Hin as [Hj Hw].
    simpl in Hw. apply andb_prop in Hw. destruct Hw as [Hw1 Hw2].
    apply in_task_tag_join_iff in Hj. destruct Hj as [Ht Hta].
    apply (where_tag_iff names ta Hlow) in Hw2.
    repeat split; auto. apply in_map_iff. eauto.
  - intros (Ht & Hw & Hn & Hatt). apply in_map_iff in Hatt.
    destruct Hatt as [ta [<- Hta]]. exists (t, ta). split; [reflexivity|].
    apply filter_In. simpl. split; [|now destruct (task_row_eq_dec t t)].
    unfold matching_join. apply filter_In. split.
    + apply in_task_tag_join_iff. auto.
    + simpl. rewrite Hw. simpl. now apply where_tag_iff.
Qed.

Lemma length_eq_iff_incl {A} (l l' : list A) :
  NoDup l -> NoDup l' -> incl l l' ->
  (List.length l = List.length l' <-> incl l' l).
Proof.
  intros Hl Hl' Hincl. split.
  - intros Hlen. apply NoDup_length_incl; [exact Hl | lia | exact Hincl].
  - intros Hrev. apply Nat.le_antisymm; now apply NoDup_incl_length.
Qed.

(** X18. Mode "all" on a list of names without repeats: a task is selected
    exactly when it is the user's, passes the completed filter, and the
    canonical names of its tags include every name asked for. *)
Lemma select_tasks_all_superset (user : Z) (o : options) (d : Db) (t : task_row) :
  tagMatchMode o = "all" ->
  tagNamesToFilter o <> [] ->
  NoDup (tagNamesToFilter o) ->
  (In t (select_tasks user o d) <->
   In t (tasks d) /\ where_task user o t = true /\
   incl (tagNamesToFilter o) (attached_names t d)).
Proof.
  intros Hmode Hne Hnd. unfold select_tasks.
  pose proof (tagNamesToFilter_lower o) as Hlow.
  destruct (tagNamesToFilter o) as [|n0 ns] eqn:Hnames; [congruence|].
  set (names := n0 :: ns) in *. rewrite Hmode. simpl String.eqb. cbv iota.
  unfold group_having. rewrite distinct_idem, filter_In, in_distinct.
  set (S_t := distinct string_dec _).
  assert (HS : forall n, In n S_t <->
                 In t (tasks d) /\ where_task user o t = true /\
                 In n names /\ In n (attached_names t d))
    by (intros n; apply in_group_names; exact Hlow).
  assert (Hlen : (Z.of_nat (List.length S_t) =? Z.of_nat (List.length names)) = true
                 <-> incl names S_t).
  { rewrite Z.eqb_eq, Nat2Z.inj_iff. apply length_eq_iff_incl.
    - apply NoDup_distinct.
    - exact Hnd.
    - intros n Hn. now apply HS in Hn. }
  rewrite Hlen. split.
  - intros [_ Hincl].
    assert (H0 : In n0 S_t) by (apply Hincl; now left).
    apply HS in H0. destruct H0 as (Ht & Hw & _ & _).
    repeat split; auto. intros n Hn. apply Hincl in Hn. now apply HS in Hn.
  - intros (Ht & Hw & Hincl).
    assert (Hall : incl names S_t).
    { intros n Hn. apply HS. repeat split; auto. }
    split; [|exact Hall].
    assert (H0 : In n0 S_t) by (apply Hall; now left).
    unfold S_t in H0. rewrite in_distinct, in_map_iff in H0.
    destruct H0 as [p [_ Hp]]. apply filter_In in Hp. destruct Hp as [Hp Heq].
    destruct (task_row_eq_dec (fst p) t) as [<-|]; [|discriminate].
    now apply in_map.
Qed.

Lemma filter_none {A} (p : A -> bool) (l : list A) :
  (forall x, In x l -> p x = false) -> filter p l = [].
Proof.
  induction l as [|y r IH]; simpl; [reflexivity|]. intros H.
  rewrite (H y) by now left. apply IH. intros x Hx. apply H. now right.
Qed.

(** With a name asked for twice, no group can reach the count that the
    [HAVING] clause asks for, whatever the grouping key. *)
Lemma group_having_repeated_names {K} (eq_dec : forall a b : K, {a = b} + {a <> b})
      (key : task_row -> K) (user : Z) (o : options) (names : list string) (d : Db) :
  (forall n, In n names -> toLowerCase n = n) ->
  ~ NoDup names ->
  group_having eq_dec key (Z.of_nat (List.length names))
               (matching_join user o names d) = [].
Proof.
  intros Hlow Hrep. unfold group_having. apply filter_none. intros k _.
  apply Z.eqb_neq. intros Hlen. apply Nat2Z.inj in Hlen. apply Hrep.
  eapply NoDup_incl_NoDup; [apply NoDup_distinct | rewrite Hlen; apply Nat.le_refl |].
  intros n Hn. apply in_distinct, in_map_iff in Hn. destruct Hn as [p [<- Hp]].
  apply filter_In in Hp. destruct Hp as [Hp _].
  unfold matching_join in Hp. apply filter_In in Hp. destruct Hp as [_ Hw].
  apply andb_prop in Hw. destruct Hw as [_ Hw].
  now apply (where_tag_iff names (snd p) Hlow).
Qed.

(** Mode "all" with a name that occurs twice in the request (after
    trimming and lower-casing): the page is empty and the total is 0,
    whatever the tasks carry. *)
Lemma getAllTasks_all_repeated_names_empty (user : Z) (o : options) (d : Db) :
  tagMatchMode o = "all" ->
  ~ NoDup (tagNamesToFilter o) ->
  r_tasks (getAllTasks user o d) = [] /\ r_total (getAllTasks user o d) = 0.
Proof.
  intros Hmode Hrep.
  pose proof (tagNamesToFilter_lower o) as Hlow.
  assert (Hsel : select_tasks user o d = []).
  { unfold select_tasks.
    destruct (tagNamesToFilter o) as [|n ns] eqn:Hn; [exfalso; apply Hrep; constructor|].
    rewrite Hmode. simpl String.eqb. cbv iota.
    now rewrite (group_having_repeated_names task_row_eq_dec (fun t => t)
                   user o (n :: ns) d Hlow Hrep). }
  split.
  - unfold getAllTasks. simpl r_tasks. rewrite Hsel.
    assert (Hsort : apply_sort o [] = []).
    { unfold apply_sort, order_by_column. destruct (opt_sortBy o) as [s|]; [|reflexivity].
      destruct (truthy s); [|reflexivity]. now destruct (existsb _ allowedFields). }
    rewrite Hsort. unfold limit_offset. rewrite skipn_nil.
    destruct (_ <? 0); [reflexivity|]. now rewrite firstn_nil.
  - simpl. unfold count_tasks.
    destruct (tagNamesToFilter o) as [|n ns] eqn:Hn; [exfalso; apply Hrep; constructor|].
    rewrite Hmode. simpl String.eqb. cbv iota.
    now rewrite (group_having_repeated_names Z.eq_dec id user o (n :: ns) d Hlow Hrep).
Qed.

(** C1, at the failing input. User 1 asks, in mode "all", for the tag a
    named twice.  The list of names keeps both entries, the [HAVING] clause
    asks for two distinct names, and nothing is returned; for the same
    request with a named once, tasks 2 and 1 are returned. *)
Lemma getAllTasks_all_repeated_name :
  let twice := mkOptions None None None None (Some "a, A") (Some "all") in
  let once := mkOptions None None None None (Some "a") (Some "all") in
  tagNamesToFilter twice = ["a"; "a"] /\
  tagNamesToFilter once = ["a"] /\
  (map t_id (r_tasks (getAllTasks 1 twice two_users_db)),
   r_total (getAllTasks 1 twice two_users_db)) = ([], 0) /\
  (map t_id (r_tasks (getAllTasks 1 once two_users_db)),
   r_total (getAllTasks 1 once two_users_db)) = ([2; 1], 2).
Proof. vm_compute. repeat split. Qed.

(* ################################################################# *)
(** * More of the services *)

(* ================================================================= *)
(** ** Who can read a task *)

Lemma getTaskById_none (taskId user : Z) (d : Db) :
  getTaskById taskId user d = None <->
  forall t, In t (tasks d) -> (id t =? taskId) && (userId t =? user) = false.
Proof.
  unfold getTaskById. split.
  - destruct (find _ (tasks d)) eqn:Hf; [discriminate|]. intros _ t Ht.
    exact (find_none _ _ Hf t Ht).
  - intros H. now rewrite (find_none_of_not_In _ _ H).
Qed.

(** X1. With [tasks.id] a primary key, a task is read back by its owner,
    with the tags it carries, and by nobody else: for every other user
    [getTaskById] answers as it does for an id that does not exist. *)
Theorem getTaskById_owner_only (row : task_row) (d : Db) :
  task_ids_unique d -> In row (tasks d) ->
  getTaskById (id row) (userId row) d
  = Some (transformTaskFromDb row (getTagsForTask (id row) d)) /\
  (forall other, other <> userId row -> getTaskById (id row) other d = None).
Proof.
  intros Hu Hin. split.
  - unfold getTaskById.
    destruct (find_some_of_In
                (fun t => (id t =? id row) && (userId t =? userId row)) _ row Hin)
      as [r Hf]; [now rewrite !Z.eqb_refl|].
    rewrite Hf. apply find_some in Hf. destruct Hf as [Hr Hp].
    apply andb_prop in Hp. destruct Hp as [Hp _]. apply Z.eqb_eq in Hp.
    now rewrite (task_of_unique_id (tasks d) r row Hu Hr Hin Hp).
  - intros other Hother. apply getTaskById_none. intros t Ht.
    destruct (Z.eqb_spec (id t) (id row)) as [E|]; [|reflexivity]. simpl.
    rewrite (task_of_unique_id (tasks d) t row Hu Ht Hin E).
    now apply Z.eqb_neq, not_eq_sym.
Qed.

Lemma getTaskById_owner_only_witness :
  getTaskById 3 2 two_users_db
  = Some (transformTaskFromDb
            (mkTaskRow 3 "call bank" "" 0
                       "2024-01-03T00:00:00.000Z" "2024-01-03T00:00:00.000Z" 2)
            (getTagsForTask 3 two_users_db)) /\
  (forall other, other <> 2 -> getTaskById 3 other two_users_db = None).
Proof.
  apply (getTaskById_owner_only
           (mkTaskRow 3 "call bank" "" 0
                      "2024-01-03T00:00:00.000Z" "2024-01-03T00:00:00.000Z" 2)
           two_users_db).
  - exact two_users_db_task_ids_unique.
  - simpl. auto.
Defined.

(* ================================================================= *)
(** ** Writes that need an owned task *)

Lemma db_eta (d : Db) : mkDb (tasks d) (tags d) (task_tags d) (tags_seq d) = d.
Proof. now destruct d. Qed.

(** X2. [updateTask] on a task that is missing or belongs to another user
    returns [null] and writes nothing: no field, no tag row and no
    association changes, whatever the update holds. *)
Theorem updateTask_not_owned (now : string) (taskId user : Z) (upd : updateData)
        (d : Db) :
  getTaskById taskId user d = None ->
  updateTask now taskId upd user d = (Ok None, d).
Proof.
  intros H. unfold updateTask. unfold bind at 1, query at 1. now rewrite H.
Qed.

Lemma updateTask_not_owned_witness :
  updateTask same_millisecond 3 retag_update 1 two_users_db = (Ok None, two_users_db).
Proof.
  apply (updateTask_not_owned same_millisecond 3 1 retag_update two_users_db).
  reflexivity.
Defined.

(** X3. [addTagsToTask] on a task that is missing or belongs to another
    user writes nothing: no association is made and no tag row is created
    for the names it was given. *)
Theorem addTagsToTask_not_owned (taskId user : Z) (names : list string) (d : Db) :
  getTaskById taskId user d = None ->
  addTagsToTask taskId names user d = (Ok tt, d).
Proof.
  intros H. unfold addTagsToTask. destruct names as [|n ns]; [reflexivity|].
  unfold bind at 1, query at 1. unfold getTaskById in H.
  destruct (find _ (tasks d)); [discriminate | reflexivity].
Qed.

Lemma addTagsToTask_not_owned_witness :
  addTagsToTask 3 ["fresh"; "names"] 1 two_users_db = (Ok tt, two_users_db).
Proof.
  apply (addTagsToTask_not_owned 3 1 ["fresh"; "names"] two_users_db). reflexivity.
Defined.

(* ================================================================= *)
(** ** deleteTask *)

Lemma deleteTask_no_row (taskId user : Z) (d : Db) :
  (forall t, In t (tasks d) -> (id t =? taskId) && (userId t =? user) = false) ->
  deleteTask taskId user d = (Ok false, d).
Proof.
  intros H. unfold deleteTask, bind, delete_task_row, ret.
  rewrite (filter_none _ (tasks d) H). simpl.
  rewrite (filter_all _ (tasks d)), (filter_all _ (task_tags d)).
  - now rewrite db_eta.
  - reflexivity.
  - intros t Ht. now rewrite (H t Ht).
Qed.

(** X4. [deleteTask] on a task that is missing or belongs to another user
    returns [false] and leaves the store as it was. *)
Theorem deleteTask_not_owned (taskId user : Z) (d : Db) :
  getTaskById taskId user d = None ->
  deleteTask taskId user d = (Ok false, d).
Proof.
  intros H. apply deleteTask_no_row. now apply getTaskById_none.
Qed.

Lemma deleteTask_not_owned_witness :
  deleteTask 3 1 two_users_db = (Ok false, two_users_db).
Proof. apply (deleteTask_not_owned 3 1 two_users_db). reflexivity. Defined.

(** X5. [deleteTask] on an owned task returns [true].  Afterwards the task
    cannot be read, no association of it is left, every other task and
    every association of another task is still there, and the tags table
    is untouched (a tag that lost its last task stays); deleting again
    returns [false]. *)
Theorem deleteTask_owned (taskId user : Z) (d : Db) (t : task) :
  getTaskById taskId user d = Some t ->
  exists d',
    deleteTask taskId user d = (Ok true, d') /\
    getTaskById taskId user d' = None /\
    getTagsForTask taskId d' = [] /\
    (forall r, In r (task_tags d') <-> In r (task_tags d) /\ tt_task_id r <> taskId) /\
    (forall t', In t' (tasks d') <->
                In t' (tasks d) /\ ~ (id t' = taskId /\ userId t' = user)) /\
    tags d' = tags d /\
    deleteTask taskId user d' = (Ok false, d').
Proof.
  intros Hold. destruct (getTaskById_some _ _ _ _ Hold) as (row & Hf & _ & Hid & Hu).
  apply find_some in Hf. destruct Hf as [Hrow Hp].
  set (p := fun t0 : task_row => (id t0 =? taskId) && (userId t0 =? user)) in *.
  assert (Hgone : In row (filter p (tasks d))) by (apply filter_In; auto).
  assert (Hlen : (0 <? Z.of_nat (List.length (filter p (tasks d)))) = true).
  { destruct (filter p (tasks d)); [contradiction|]. simpl. reflexivity. }
  exists (snd (delete_task_row taskId user d)). split.
  { unfold deleteTask, bind, ret, delete_task_row. fold p. now rewrite Hlen. }
  cbn [snd delete_task_row tasks tags task_tags]. fold p.
  assert (Hnone : forall t0, In t0 (filter (fun t1 => negb (p t1)) (tasks d)) ->
                             p t0 = false).
  { intros t0 Ht0. apply filter_In in Ht0. destruct Ht0 as [_ Hn].
    now apply negb_true_iff. }
  assert (Hrows : forall r,
             In r (filter (fun r0 => negb (existsb (fun t0 => id t0 =? tt_task_id r0)
                                                   (filter p (tasks d))))
                          (task_tags d))
             <-> In r (task_tags d) /\ tt_task_id r <> taskId).
  { intros r. rewrite filter_In, negb_true_iff. split.
    - intros [Hr Hex]. split; [exact Hr|]. intros E.
      assert (Hx : existsb (fun t0 => id t0 =? tt_task_id r) (filter p (tasks d)) = true).
      { apply existsb_exists. exists row. split; [exact Hgone|].
        apply Z.eqb_eq. congruence. }
      congruence.
    - intros [Hr Hne]. split; [exact Hr|].
      destruct (existsb _ (filter p (tasks d))) eqn:Hex; [|reflexivity].
      apply existsb_exists in Hex. destruct Hex as [t0 [Ht0 E]].
      apply filter_In in Ht0. destruct Ht0 as [_ Hp0]. unfold p in Hp0.
      apply andb_prop in Hp0. destruct Hp0 as [Hp0 _].
      apply Z.eqb_eq in Hp0, E. congruence. }
  split; [apply getTaskById_none; exact Hnone|].
  split.
  { apply nil_of_no_member. intros tg Htg. apply in_getTagsForTask in Htg.
    destruct Htg as [_ [r (Hr & _ & Hr2)]]. simpl in Hr. apply Hrows in Hr. tauto. }
  split; [exact Hrows|].
  split.
  { intros t'. rewrite filter_In, negb_true_iff. unfold p. split.
    - intros [Ht' Hp']. split; [exact Ht'|]. intros [E1 E2].
      now rewrite E1, E2, !Z.eqb_refl in Hp'.
    - intros [Ht' Hn]. split; [exact Ht'|].
      destruct (Z.eqb_spec (id t') taskId), (Z.eqb_spec (userId t') user);
        simpl; tauto. }
  split; [reflexivity|].
  apply deleteTask_no_row. exact Hnone.
Qed.

Lemma deleteTask_owned_witness :
  exists t, getTaskById 1 1 two_users_db = Some t /\
  exists d',
    deleteTask 1 1 two_users_db = (Ok true, d') /\
    getTaskById 1 1 d' = None /\
    getTagsForTask 1 d' = [] /\
    (forall r, In r (task_tags d') <-> In r (task_tags two_users_db) /\ tt_task_id r <> 1) /\
    (forall t', In t' (tasks d') <->
                In t' (tasks two_users_db) /\ ~ (id t' = 1 /\ userId t' = 1)) /\
    tags d' = tags two_users_db /\
    deleteTask 1 1 d' = (Ok false, d').
Proof.
  eexists. split; [vm_compute; reflexivity|].
  eapply (deleteTask_owned 1 1 two_users_db). vm_compute. reflexivity.
Defined.

(* ================================================================= *)
(** ** The store invariants *)

Lemma keeps_ok_ret {A} (a : A) : keeps_ok (ret a).
Proof. intros d H. exact H. Qed.

Lemma keeps_ok_throw {A} (e : error) : keeps_ok (@throw A e).
Proof. intros d H. exact H. Qed.

Lemma keeps_ok_query {A} (q : Db -> A) : keeps_ok (query q).
Proof. intros d H. exact H. Qed.

Lemma keeps_ok_bind {A B} (m : M A) (k : A -> M B) :
  keeps_ok m -> (forall a, keeps_ok (k a)) -> keeps_ok (bind m k).
Proof.
  intros Hm Hk d Hd. unfold bind. specialize (Hm d Hd).
  destruct (m d) as [[a|e] d1]; simpl in *; [now apply Hk | exact Hm].
Qed.

Lemma keeps_ok_try_catch {A} (m : M A) (h : error -> M A) :
  keeps_ok m -> (forall e, keeps_ok (h e)) -> keeps_ok (try_catch m h).
Proof.
  intros Hm Hh d Hd. unfold try_catch. specialize (Hm d Hd).
  destruct (m d) as [[a|e] d1]; simpl in *; [exact Hm | now apply Hh].
Qed.

Lemma keeps_ok_mapM {A B} (f : A -> M B) (l : list A) :
  (forall a, keeps_ok (f a)) -> keeps_ok (mapM f l).
Proof.
  intros Hf. induction l as [|x r IH]; simpl; [apply keeps_ok_ret|].
  apply keeps_ok_bind; [apply Hf|]. intros y.
  apply keeps_ok_bind; [exact IH|]. intros ys. apply keeps_ok_ret.
Qed.

Lemma keeps_ok_forM_ {A} (f : A -> M unit) (l : list A) :
  (forall a, keeps_ok (f a)) -> keeps_ok (forM_ f l).
Proof.
  intros Hf. induction l as [|x r IH]; simpl; [apply keeps_ok_ret|].
  apply keeps_ok_bind; [apply Hf | intros _; exact IH].
Qed.

Lemma NoDup_map_filter {K R : Type} (key : R -> K) (kept : R -> bool) (rows : list R)
      (Hkey : NoDup (map key rows)) :
  NoDup (map key (filter kept rows)).
Proof.
  revert Hkey. induction rows as [|x r IH]; simpl; [trivial|]. intros H.
  inversion H as [|? ? Hnot Hnd]; subst. destruct (kept x); [|now apply IH].
  simpl. constructor; [|now apply IH].
  intros Hin. apply Hnot. apply in_map_iff in Hin. destruct Hin as [y [E Hy]].
  apply filter_In in Hy. apply in_map_iff. exists y. tauto.
Qed.

Lemma NoDup_snoc {A} (l : list A) (x : A) : NoDup l -> ~ In x l -> NoDup (l ++ [x]).
Proof.
  intros Hl Hx. apply NoDup_app; [exact Hl | constructor; [intros []|constructor] |].
  intros a Ha [<-|[]]. contradiction.
Qed.

Lemma existsb_nocase_false (name : string) (l : list tag_row) :
  existsb (fun t => nocase_eqb (tag_name t) name) l = false ->
  ~ In (toLowerCase name) (map (fun t => toLowerCase (tag_name t)) l).
Proof.
  intros H Hin. apply in_map_iff in Hin. destruct Hin as [t [E Ht]].
  assert (Hx : existsb (fun t => nocase_eqb (tag_name t) name) l = true).
  { apply existsb_exists. exists t. split; [exact Ht|].
    unfold nocase_eqb. now apply String.eqb_eq. }
  congruence.
Qed.

Lemma keeps_ok_insert_tag (name : string) :
  toLowerCase name = name -> keeps_ok (insert_tag name).
Proof.
  intros Hlow d [H1 H2 H3 H4 H5 H6]. unfold insert_tag.
  destruct (existsb _ (tags d)) eqn:Hex; [now constructor|].
  simpl. constructor.
  - exact H1.
  - exact (with_new_tag_ids_unique name d H2).
  - unfold tag_names_unique. simpl. rewrite map_app. simpl.
    apply NoDup_snoc; [exact H3 | now apply existsb_nocase_false].
  - intros t Ht. simpl in Ht. apply in_app_or in Ht.
    destruct Ht as [Ht|[<-|[]]]; [now apply H4 | exact Hlow].
  - exact H5.
  - intros r Hr. destruct (H6 r Hr) as [Ha Hb]. split; [exact Ha|].
    simpl. rewrite map_app. apply in_or_app. now left.
Qed.

Lemma keeps_ok_insert_or_ignore (taskId tagId : Z) :
  keeps_ok (insert_or_ignore_task_tag taskId tagId).
Proof.
  intros d [H1 H2 H3 H4 H5 H6]. unfold insert_or_ignore_task_tag.
  destruct (existsb _ (task_tags d)) eqn:Hex; [now constructor|].
  destruct (existsb (fun t => id t =? taskId) (tasks d)) eqn:Ht;
    [|now constructor].
  destruct (existsb (fun t => tag_id t =? tagId) (tags d)) eqn:Hg;
    [|now constructor].
  simpl. constructor; try assumption.
  - unfold associations_unique. simpl. apply NoDup_snoc; [exact H5|].
    intros Hin. apply existsb_task_tag in Hin. congruence.
  - intros r Hr. simpl in Hr. apply in_app_or in Hr.
    destruct Hr as [Hr|[<-|[]]]; [now apply H6|]. simpl.
    apply existsb_exists in Ht, Hg.
    destruct Ht as [t [Hin E]], Hg as [g [Hin' E']].
    apply Z.eqb_eq in E, E'. subst. split; now apply in_map.
Qed.

Lemma keeps_ok_delete_task_tags_of (taskId : Z) : keeps_ok (delete_task_tags_of taskId).
Proof.
  intros d [H1 H2 H3 H4 H5 H6]. simpl. constructor; try assumption.
  - unfold associations_unique. simpl. now apply NoDup_filter.
  - intros r Hr. simpl in Hr. apply filter_In in Hr. now apply H6.
Qed.

Lemma map_id_update_task_row (nt nd : string) (nc : bool) (now : string)
      (taskId user : Z) (d : Db) :
  map id (tasks (snd (update_task_row nt nd nc now taskId user d))) = map id (tasks d).
Proof.
  simpl. rewrite map_map. apply map_ext. intros t.
  now destruct ((id t =? taskId) && (userId t =? user)).
Qed.

Lemma keeps_ok_update_task_row (nt nd : string) (nc : bool) (now : string)
      (taskId user : Z) :
  keeps_ok (update_task_row nt nd nc now taskId user).
Proof.
  intros d [H1 H2 H3 H4 H5 H6].
  pose proof (map_id_update_task_row nt nd nc now taskId user d) as Hid.
  constructor; try assumption.
  - unfold task_ids_unique. now rewrite Hid.
  - intros r Hr. destruct (H6 r Hr) as [Ha Hb]. split; [|exact Hb].
    now rewrite Hid.
Qed.

Lemma next_task_id_fresh (tasks_seq : Z) (d : Db) :
  ~ In (next_task_id tasks_seq d) (map id (tasks d)).
Proof.
  intros H. apply fold_max_ge in H. unfold next_task_id in H. lia.
Qed.

Lemma keeps_ok_insert_task (tasks_seq : Z) (nt nd : string) (nc : bool)
      (c u : string) (user : Z) :
  keeps_ok (insert_task tasks_seq nt nd nc c u user).
Proof.
  intros d [H1 H2 H3 H4 H5 H6]. simpl. constructor; try assumption.
  - unfold task_ids_unique. simpl. rewrite map_app. simpl.
    apply NoDup_snoc; [exact H1 | apply next_task_id_fresh].
  - intros r Hr. destruct (H6 r Hr) as [Ha Hb]. split; [|exact Hb].
    simpl. rewrite map_app. apply in_or_app. now left.
Qed.

Lemma keeps_ok_delete_task_row (taskId user : Z) : keeps_ok (delete_task_row taskId user).
Proof.
  intros d [H1 H2 H3 H4 H5 H6]. simpl. constructor; try assumption.
  - unfold task_ids_unique. simpl. now apply NoDup_map_filter.
  - unfold associations_unique. simpl. now apply NoDup_filter.
  - intros r Hr. simpl in Hr. apply filter_In in Hr. destruct Hr as [Hr Hex].
    destruct (H6 r Hr) as [Ha Hb]. split; [|exact Hb]. simpl.
    apply in_map_iff in Ha. destruct Ha as [t [E Ht]].
    apply in_map_iff. exists t. split; [exact E|]. apply filter_In.
    split; [exact Ht|].
    destruct ((id t =? taskId) && (userId t =? user)) eqn:Hp; [|reflexivity].
    exfalso. apply negb_true_iff in Hex.
    assert (Hx : existsb (fun t0 => id t0 =? tt_task_id r)
                   (filter (fun t0 => (id t0 =? taskId) && (userId t0 =? user))
                           (tasks d)) = true).
    { apply existsb_exists. exists t. split; [now apply filter_In|].
      now apply Z.eqb_eq. }
    congruence.
Qed.

Lemma keeps_ok_delete_tag_row (tagId : Z) : keeps_ok (delete_tag_row tagId).
Proof.
  intros d [H1 H2 H3 H4 H5 H6]. simpl. constructor; try assumption.
  - unfold tag_ids_unique. simpl. now apply NoDup_map_filter.
  - unfold tag_names_unique. simpl. now apply NoDup_map_filter.
  - intros t Ht. simpl in Ht. apply filter_In in Ht. now apply H4.
  - unfold associations_unique. simpl. now apply NoDup_filter.
  - intros r Hr. simpl in Hr. apply filter_In in Hr. destruct Hr as [Hr Hne].
    destruct (H6 r Hr) as [Ha Hb]. split; [exact Ha|]. simpl.
    apply in_map_iff in Hb. destruct Hb as [t [E Ht]].
    apply in_map_iff. exists t. split; [exact E|]. apply filter_In.
    split; [exact Ht|]. now rewrite E.
Qed.

Lemma renamed_names_unique (tagId : Z) (name : string) (l : list tag_row) :
  NoDup (map tag_id l) ->
  NoDup (map (fun t => toLowerCase (tag_name t)) l) ->
  (forall t, In t l -> tag_id t <> tagId ->
             toLowerCase (tag_name t) <> toLowerCase name) ->
  NoDup (map (fun t => toLowerCase (tag_name t)) (map (renamed tagId name) l)).
Proof.
  induction l as [|x r IH]; simpl; [constructor|].
  intros Hids Hnames Hother.
  inversion Hids as [|? ? Hxid Hids']; subst.
  inversion Hnames as [|? ? Hxname Hnames']; subst.
  constructor.
  - intros Hin. apply in_map_iff in Hin. destruct Hin as [y' [E Hy']].
    apply in_map_iff in Hy'. destruct Hy' as [y [<- Hy]].
    unfold renamed in E.
    destruct (Z.eqb_spec (tag_id x) tagId) as [Ex|Ex],
             (Z.eqb_spec (tag_id y) tagId) as [Ey|Ey]; simpl in E.
    + apply Hxid. rewrite Ex, <- Ey. now apply in_map.
    + apply (Hother y); auto.
    + apply (Hother x); auto.
    + apply Hxname. rewrite <- E. apply in_map_iff. eauto.
  - apply IH; auto.
Qed.

Lemma keeps_ok_update_tag_name (name : string) (tagId : Z) :
  toLowerCase name = name -> keeps_ok (update_tag_name name tagId).
Proof.
  intros Hlow d [H1 H2 H3 H4 H5 H6]. unfold update_tag_name.
  destruct (existsb (fun t => tag_id t =? tagId) (tags d)) eqn:Hex; simpl.
  - destruct (existsb (fun t => negb (tag_id t =? tagId) && nocase_eqb (tag_name t) name)
                      (tags d)) eqn:Hother; [now constructor|].
    simpl. constructor; try assumption.
    + unfold tag_ids_unique. simpl. rewrite map_map.
      erewrite map_ext; [exact H2|]. intros t. now destruct (tag_id t =? tagId).
    + unfold tag_names_unique. simpl. apply (renamed_names_unique tagId name); auto.
      intros t Ht Hne E.
      assert (Hx : existsb (fun t0 => negb (tag_id t0 =? tagId)
                                      && nocase_eqb (tag_name t0) name) (tags d) = true).
      { apply existsb_exists. exists t. split; [exact Ht|].
        apply Z.eqb_neq in Hne. rewrite Hne. simpl.
        unfold nocase_eqb. now apply String.eqb_eq. }
      congruence.
    + intros t Ht. simpl in Ht. apply in_map_iff in Ht. destruct Ht as [t0 [<- Ht0]].
      destruct (tag_id t0 =? tagId); [exact Hlow | now apply H4].
    + intros r Hr. destruct (H6 r Hr) as [Ha Hb]. split; [exact Ha|].
      simpl. rewrite map_map. erewrite map_ext; [exact Hb|].
      intros t. now destruct (tag_id t =? tagId).
  - assert (Hsame : map (fun t => if tag_id t =? tagId then mkTag (tag_id t) name else t)
                        (tags d) = tags d).
    { rewrite <- (map_id (tags d)) at 2. apply map_ext_in. intros t Ht.
      destruct (tag_id t =? tagId) eqn:E; [|reflexivity].
      assert (Hx : existsb (fun t0 => tag_id t0 =? tagId) (tags d) = true)
        by (apply existsb_exists; eauto).
      congruence. }
    rewrite Hsame. rewrite db_eta. now constructor.
Qed.

Lemma keeps_ok_findOrCreateTag (name : string) : keeps_ok (findOrCreateTag name).
Proof.
  unfold findOrCreateTag. destruct (negb (truthy (trim name))); [apply keeps_ok_ret|].
  apply keeps_ok_bind; [apply keeps_ok_query|]. intros [t|]; [apply keeps_ok_ret|].
  apply keeps_ok_try_catch.
  - apply keeps_ok_bind; [apply keeps_ok_insert_tag, toLowerCase_idem|].
    intros i. apply keeps_ok_ret.
  - intros e. destruct (_ && _); [|apply keeps_ok_throw].
    apply keeps_ok_bind; [apply keeps_ok_query|].
    intros [t|]; [apply keeps_ok_ret | apply keeps_ok_throw].
Qed.

Lemma keeps_ok_addTagsToTask (taskId : Z) (names : list string) (user : Z) :
  keeps_ok (addTagsToTask taskId names user).
Proof.
  unfold addTagsToTask. destruct names as [|n ns]; [apply keeps_ok_ret|].
  apply keeps_ok_bind; [apply keeps_ok_query|]. intros [t|]; [|apply keeps_ok_ret].
  apply keeps_ok_bind.
  - apply keeps_ok_mapM, keeps_ok_findOrCreateTag.
  - intros found. apply keeps_ok_forM_. intros tag. apply keeps_ok_insert_or_ignore.
Qed.

Lemma keeps_ok_update_tags (taskId : Z) (newTags : option (list string)) (user : Z) :
  keeps_ok (update_tags taskId newTags user).
Proof.
  unfold update_tags. destruct newTags as [names|]; [|apply keeps_ok_ret].
  apply keeps_ok_bind; [apply keeps_ok_delete_task_tags_of|]. intros _.
  destruct names; [apply keeps_ok_ret | apply keeps_ok_addTagsToTask].
Qed.

Lemma keeps_ok_updateTask (now : string) (taskId : Z) (upd : updateData) (user : Z) :
  keeps_ok (updateTask now taskId upd user).
Proof.
  unfold updateTask. apply keeps_ok_bind; [apply keeps_ok_query|].
  intros [t|]; [|apply keeps_ok_ret].
  apply keeps_ok_bind; [apply keeps_ok_update_task_row|]. intros _.
  apply keeps_ok_bind; [apply keeps_ok_update_tags|]. intros _. apply keeps_ok_query.
Qed.

Lemma keeps_ok_createTask (now : string) (tasks_seq : Z) (data : taskData) (user : Z) :
  keeps_ok (createTask now tasks_seq data user).
Proof.
  unfold createTask. apply keeps_ok_bind; [apply keeps_ok_insert_task|]. intros i.
  apply keeps_ok_bind; [|intros _; apply keeps_ok_query].
  destruct (td_tags data) as [[|n ns]|];
    [apply keeps_ok_ret | apply keeps_ok_addTagsToTask | apply keeps_ok_ret].
Qed.

Lemma keeps_ok_deleteTask (taskId user : Z) : keeps_ok (deleteTask taskId user).
Proof.
  unfold deleteTask. apply keeps_ok_bind; [apply keeps_ok_delete_task_row|].
  intros c. apply keeps_ok_ret.
Qed.

Lemma keeps_ok_updateTag (tagId : Z) (newName : string) (user : Z) :
  keeps_ok (updateTag tagId newName user).
Proof.
  unfold updateTag. destruct (negb (truthy (trim newName))); [apply keeps_ok_throw|].
  apply keeps_ok_bind; [apply keeps_ok_query|]. intros [t|]; [|apply keeps_ok_throw].
  apply keeps_ok_bind; [apply keeps_ok_query|]. intros [u|]; [|apply keeps_ok_throw].
  apply keeps_ok_bind; [apply keeps_ok_query|]. intros [c|]; [apply keeps_ok_throw|].
  apply keeps_ok_try_catch.
  - apply keeps_ok_bind; [apply keeps_ok_update_tag_name, toLowerCase_idem|].
    intros _. apply keeps_ok_ret.
  - intros e. destruct (includes _ _); apply keeps_ok_throw.
Qed.

Lemma keeps_ok_deleteTag (tagId user : Z) : keeps_ok (deleteTag tagId user).
Proof.
  unfold deleteTag. apply keeps_ok_bind; [apply keeps_ok_query|].
  intros [t|]; [|apply keeps_ok_throw].
  apply keeps_ok_bind; [apply keeps_ok_query|]. intros [u|]; [|apply keeps_ok_throw].
  apply keeps_ok_bind; [apply keeps_ok_query|]. intros [a|]; [apply keeps_ok_throw|].
  apply keeps_ok_bind; [apply keeps_ok_delete_tag_row|].
  intros c. destruct (c =? 0); [apply keeps_ok_throw | apply keeps_ok_ret].
Qed.

Lemma store_ok_empty_db : store_ok empty_db.
Proof.
  constructor.
  - constructor.
  - constructor.
  - constructor.
  - intros t [].
  - constructor.
  - intros r [].
Qed.

Lemma store_ok_two_users_db : store_ok two_users_db.
Proof.
  constructor.
  - exact two_users_db_task_ids_unique.
  - exact two_users_db_tag_ids_unique.
  - unfold tag_names_unique. simpl. repeat constructor; simpl; intuition discriminate.
  - exact two_users_db_tags_lowercase.
  - unfold associations_unique. simpl.
    repeat constructor; simpl; intuition discriminate.
  - intros r Hr. simpl in Hr.
    destruct Hr as [<-|[<-|[<-|[<-|[]]]]]; simpl; auto.
Defined.

(** X6. The task service keeps the store well formed.  On a store where
    the ids of tasks and of tags are keys, tag names are lower case and
    unique whatever the letter case, no association is repeated and every
    association points at an existing task and tag, the same holds after
    [findOrCreateTag], [addTagsToTask], [createTask], [updateTask] and
    [deleteTask], whether the call returns or throws. *)
Theorem taskService_keeps_store_ok (d : Db) :
  store_ok d ->
  (forall name, store_ok (snd (findOrCreateTag name d))) /\
  (forall taskId names user, store_ok (snd (addTagsToTask taskId names user d))) /\
  (forall now tasks_seq data user,
      store_ok (snd (createTask now tasks_seq data user d))) /\
  (forall now taskId upd user, store_ok (snd (updateTask now taskId upd user d))) /\
  (forall taskId user, store_ok (snd (deleteTask taskId user d))).
Proof.
  intros H.
  split; [intros; now apply keeps_ok_findOrCreateTag|].
  split; [intros; now apply keeps_ok_addTagsToTask|].
  split; [intros; now apply keeps_ok_createTask|].
  split; [intros; now apply keeps_ok_updateTask|].
  intros; now apply keeps_ok_deleteTask.
Qed.

Lemma taskService_keeps_store_ok_witness :
  store_ok (snd (createTask same_millisecond 3 new_task_data 2 two_users_db)) /\
  store_ok (snd (deleteTask 1 1 two_users_db)).
Proof.
  destruct (taskService_keeps_store_ok two_users_db store_ok_two_users_db)
    as (_ & _ & Hc & _ & Hd).
  split; [apply Hc | apply Hd].
Defined.

(** X7. The tag service keeps the store well formed: on such a store the
    invariants hold again after [updateTag] and after [deleteTag], whether
    the call returns or throws.  In particular a rename never leaves two
    tags whose names differ only by letter case. *)
Theorem tagService_keeps_store_ok (d : Db) :
  store_ok d ->
  (forall tagId newName user, store_ok (snd (updateTag tagId newName user d))) /\
  (forall tagId user, store_ok (snd (deleteTag tagId user d))).
Proof.
  intros H. split; intros.
  - now apply keeps_ok_updateTag.
  - now apply keeps_ok_deleteTag.
Qed.

Lemma tagService_keeps_store_ok_witness :
  store_ok (snd (updateTag 2 " Zed " 1 two_users_db)).
Proof.
  apply (proj1 (tagService_keeps_store_ok two_users_db store_ok_two_users_db)).
Defined.

Lemma run_call_store_ok (d : Db) (c : call) : store_ok d -> store_ok (run_call d c).
Proof.
  intros H. destruct c; simpl.
  - now apply keeps_ok_findOrCreateTag.
  - now apply keeps_ok_addTagsToTask.
  - now apply keeps_ok_createTask.
  - now apply keeps_ok_updateTask.
  - now apply keeps_ok_deleteTask.
  - now apply keeps_ok_updateTag.
  - now apply keeps_ok_deleteTag.
Qed.

(** X8. Whatever sequence of service calls is run on an empty store, with
    whatever arguments and whether the calls return or throw, the store is
    well formed afterwards: ids are keys, tag names are lower case and
    unique whatever the letter case, no association is repeated and none
    dangles. *)
Theorem run_calls_store_ok (calls : list call) : store_ok (run_calls calls).
Proof.
  unfold run_calls. generalize store_ok_empty_db. generalize empty_db.
  induction calls as [|c cs IH]; intros d Hd; simpl; [exact Hd|].
  apply IH. now apply run_call_store_ok.
Qed.

(* ================================================================= *)
(** ** Attaching tags *)

(** Attaching tags to an owned task of a well-formed store: nothing
    throws, the tasks table is untouched, and the tags then read back for
    the task are those it had and those the names resolve to. *)
Lemma addTagsToTask_owned_tags (taskId user : Z) (names : list string) (d : Db)
      (row : task_row) :
  store_ok d ->
  find (fun t => (id t =? taskId) && (userId t =? user)) (tasks d) = Some row ->
  exists d',
    addTagsToTask taskId names user d = (Ok tt, d') /\
    tasks d' = tasks d /\
    incl (tags d) (tags d') /\
    (forall n, carries taskId n d' <-> carries taskId n d \/ In n (canonical_names names)) /\
    (forall other, other <> taskId ->
                   forall t, In t (getTagsForTask other d') <-> In t (getTagsForTask other d)).
Proof.
  intros Hok Hrow. destruct names as [|n0 ns].
  { exists d. split; [reflexivity|]. split; [reflexivity|]. split; [apply incl_refl|].
    split; [intros n; simpl; tauto | tauto]. }
  rewrite (addTagsToTask_owned taskId user (n0 :: ns) d row); [|discriminate|exact Hrow].
  set (names := n0 :: ns). unfold bind.
  destruct (mapM_findOrCreateTag_spec names d (ok_tag_ids d Hok) (ok_lowercase d Hok))
    as (found & d1 & Hrun & Htt & Hincl & Hu1 & Hl1 & Hin1 & Hnm).
  rewrite Hrun.
  pose proof (keeps_tasks_mapM findOrCreateTag names keeps_tasks_findOrCreateTag d) as Hk.
  rewrite Hrun in Hk. simpl in Hk.
  destruct (attach_tags_spec taskId (somes found) d1)
    as (d2 & Hrun2 & Htasks2 & Htags2 & Hrows2).
  { rewrite Hk. apply find_some in Hrow. destruct Hrow as [Hin Hp].
    apply andb_prop in Hp. destruct Hp as [Hp _]. apply Z.eqb_eq in Hp.
    rewrite <- Hp. now apply in_map. }
  { exact Hin1. }
  exists d2. split; [exact Hrun2|]. split; [congruence|].
  split; [now rewrite Htags2|].
  assert (Hold : forall t, In t (tags d1) ->
             forall r, In r (task_tags d) -> tt_tag_id r = tag_id t -> In t (tags d)).
  { intros t Ht r Hr E. destruct (ok_foreign_keys d Hok r Hr) as [_ Hb].
    apply in_map_iff in Hb. destruct Hb as [t0 [E0 Ht0]].
    assert (t0 = t) as <-; [|exact Ht0].
    apply (tag_of_unique_id (tags d1)); auto. congruence. }
  assert (Hmem : forall t, In t (getTagsForTask taskId d2) <->
                           In t (getTagsForTask taskId d) \/ In t (somes found)).
  { intros t. rewrite !in_getTagsForTask, Htags2. split.
    - intros [Ht [r (Hr & Hid & Htask)]]. apply Hrows2 in Hr.
      destruct Hr as [Hr|[_ Hr]].
      + left. rewrite Htt in Hr. split; [apply (Hold t Ht r Hr Hid)|]. eauto.
      + right. rewrite Hid in Hr. apply in_map_iff in Hr. destruct Hr as [t' [Hid' Ht']].
        assert (t' = t) as <-; [|exact Ht'].
        apply (tag_of_unique_id (tags d1)); auto.
    - intros [[Ht [r (Hr & Hid & Htask)]]|Ht].
      + split; [now apply Hincl|]. exists r. split; [|auto].
        apply Hrows2. left. now rewrite Htt.
      + split; [now apply Hin1|].
        exists (mkTaskTag taskId (tag_id t)). simpl. split; [|auto].
        apply Hrows2. right. simpl. split; [reflexivity|]. now apply in_map. }
  split.
  - intros nm. unfold carries. rewrite <- Hnm, !in_map_iff. split.
    + intros [t [Hn Ht]]. apply Hmem in Ht. destruct Ht as [Ht|Ht]; eauto.
    + intros [[t [Hn Ht]]|[t [Hn Ht]]]; exists t; (split; [exact Hn|]);
        apply Hmem; auto.
  - intros other Hother t. rewrite !in_getTagsForTask, Htags2. split.
    + intros [Ht [r (Hr & Hid & Htask)]]. apply Hrows2 in Hr.
      destruct Hr as [Hr|[Hr _]]; [|congruence].
      rewrite Htt in Hr. split; [apply (Hold t Ht r Hr Hid)|]. eauto.
    + intros [Ht [r (Hr & Hid & Htask)]]. split; [now apply Hincl|].
      exists r. split; [|auto]. apply Hrows2. left. now rewrite Htt.
Qed.

Lemma NoDup_map_eq {A B} (f : A -> B) (l : list A) (a b : A) :
  NoDup (map f l) -> In a l -> In b l -> f a = f b -> a = b.
Proof.
  induction l as [|x r IH]; simpl; [contradiction|].
  intros Hnd Ha Hb E. inversion Hnd as [|? ? Hnot Hnd']; subst.
  destruct Ha as [<-|Ha], Hb as [<-|Hb]; auto.
  - exfalso. apply Hnot. rewrite E. now apply in_map.
  - exfalso. apply Hnot. rewrite <- E. now apply in_map.
Qed.

(** Looking up a name whose tag is in the table returns that tag and
    writes nothing. *)
Lemma findOrCreateTag_existing (s : string) (d : Db) (t : tag_row) :
  store_ok d -> truthy (trim s) = true ->
  In t (tags d) -> tag_name t = canonical s ->
  findOrCreateTag s d = (Ok (Some t), d).
Proof.
  intros Hok Hs Ht Hname. rewrite (findOrCreateTag_eq s d Hs).
  destruct (find_some_of_In (fun t0 => nocase_eqb (tag_name t0) (canonical s))
                            (tags d) t Ht) as [t0 Hf].
  { rewrite Hname. apply nocase_eqb_refl. }
  unfold select_tag_by_name. rewrite Hf.
  destruct (select_tag_by_name_canonical s d t0 (ok_lowercase d Hok) Hf) as [Ht0 Heq].
  rewrite Heq. do 3 f_equal.
  apply (NoDup_map_eq (fun x => toLowerCase (tag_name x)) (tags d));
    [exact (ok_tag_names d Hok) | exact Ht0 | exact Ht |].
  rewrite <- Heq, Hname. reflexivity.
Qed.

Lemma mapM_findOrCreateTag_existing (names : list string) (d : Db) :
  store_ok d ->
  (forall n, In n (canonical_names names) ->
             exists t, In t (tags d) /\ tag_name t = n) ->
  exists found,
    mapM findOrCreateTag names d = (Ok found, d) /\
    (forall t, In t (somes found) ->
               In t (tags d) /\ In (tag_name t) (canonical_names names)).
Proof.
  intros Hok. induction names as [|n ns IH]; intros Hall.
  - exists []. split; [reflexivity|]. intros t [].
  - unfold canonical_names in Hall, IH |- *. simpl in Hall |- *.
    destruct (truthy (trim n)) eqn:Hs.
    + destruct (Hall (canonical n)) as [t [Ht Hname]]; [now left|].
      destruct IH as [found [Hrun Hfound]]; [intros m Hm; apply Hall; now right|].
      exists (Some t :: found). unfold bind.
      rewrite (findOrCreateTag_existing n d t Hok Hs Ht Hname), Hrun.
      split; [reflexivity|]. simpl. intros t' [<-|Ht'].
      * split; [exact Ht|]. left. now symmetry.
      * destruct (Hfound t' Ht'). split; [assumption|]. now right.
    + destruct IH as [found [Hrun Hfound]]; [exact Hall|].
      exists (None :: found). unfold bind.
      apply truthy_false_iff in Hs. rewrite (findOrCreateTag_no_name n d Hs), Hrun.
      split; [reflexivity|]. exact Hfound.
Qed.

Lemma attach_existing (taskId : Z) (ts : list tag_row) (d : Db) :
  (forall t, In t ts -> In (mkTaskTag taskId (tag_id t)) (task_tags d)) ->
  forM_ (fun tag => insert_or_ignore_task_tag taskId (tag_id tag)) ts d = (Ok tt, d).
Proof.
  induction ts as [|t ts IH]; intros H; [reflexivity|].
  simpl. unfold bind. unfold insert_or_ignore_task_tag at 1.
  rewrite (proj2 (existsb_task_tag taskId (tag_id t) (task_tags d)))
    by (apply H; now left).
  apply IH. intros t' Ht'. apply H. now right.
Qed.

(** Attaching names that the task already carries writes nothing. *)
Lemma addTagsToTask_carried (taskId user : Z) (names : list string) (d : Db)
      (row : task_row) :
  store_ok d ->
  find (fun t => (id t =? taskId) && (userId t =? user)) (tasks d) = Some row ->
  (forall n, In n (canonical_names names) -> carries taskId n d) ->
  addTagsToTask taskId names user d = (Ok tt, d).
Proof.
  intros Hok Hrow Hall. destruct names as [|n0 ns]; [reflexivity|].
  rewrite (addTagsToTask_owned taskId user (n0 :: ns) d row); [|discriminate|exact Hrow].
  set (names := n0 :: ns) in *. unfold bind.
  destruct (mapM_findOrCreateTag_existing names d Hok) as [found [Hrun Hfound]].
  { intros n Hn. specialize (Hall n Hn). unfold carries in Hall.
    apply in_map_iff in Hall. destruct Hall as [t [E Ht]].
    apply in_getTagsForTask in Ht. exists t. tauto. }
  rewrite Hrun. apply attach_existing. intros t Ht.
  destruct (Hfound t Ht) as [Htags Hname].
  specialize (Hall _ Hname). unfold carries in Hall.
  apply in_map_iff in Hall. destruct Hall as [t' [E Ht']].
  apply in_getTagsForTask in Ht'. destruct Ht' as [Ht' [r (Hr & Hid & Htask)]].
  assert (t' = t) as ->.
  { apply (NoDup_map_eq (fun x => toLowerCase (tag_name x)) (tags d));
      [exact (ok_tag_names d Hok) | exact Ht' | exact Htags | now rewrite E]. }
  destruct r as [a b]. simpl in *. now subst.
Qed.

(** X9. [addTagsToTask] on an owned task of a well-formed store never
    throws and only adds: afterwards the task carries the names it
    carried before and the canonical names of the list, the tags of every
    other task are what they were, and the tasks table is untouched.
    Attaching the same list again writes nothing. *)
Theorem addTagsToTask_adds (taskId user : Z) (names : list string) (d : Db)
        (old : task) :
  store_ok d ->
  getTaskById taskId user d = Some old ->
  exists d',
    addTagsToTask taskId names user d = (Ok tt, d') /\
    tasks d' = tasks d /\
    (forall n, carries taskId n d' <->
               In n (map tag_name (t_tags old)) \/ In n (canonical_names names)) /\
    (forall other, other <> taskId ->
                   forall t, In t (getTagsForTask other d') <-> In t (getTagsForTask other d)) /\
    addTagsToTask taskId names user d' = (Ok tt, d').
Proof.
  intros Hok Hold.
  destruct (getTaskById_some _ _ _ _ Hold) as (row & Hf & Hold' & Hid & Hu).
  destruct (addTagsToTask_owned_tags taskId user names d row Hok Hf)
    as (d' & Hrun & Htasks & Hincl & Hnames & Hothers).
  exists d'. split; [exact Hrun|]. split; [exact Htasks|].
  assert (Hnames' : forall n, carries taskId n d' <->
             In n (map tag_name (t_tags old)) \/ In n (canonical_names names)).
  { intros n. rewrite Hnames. subst old. simpl. unfold carries. now rewrite Hid. }
  split; [exact Hnames'|]. split; [exact Hothers|].
  apply (addTagsToTask_carried taskId user names d' row).
  - pose proof (keeps_ok_addTagsToTask taskId names user d Hok) as H.
    now rewrite Hrun in H.
  - now rewrite Htasks.
  - intros n Hn. apply Hnames'. now right.
Qed.

Lemma addTagsToTask_adds_witness :
  exists old, getTaskById 2 1 two_users_db = Some old /\
  exists d',
    addTagsToTask 2 ["B "; "new"; "b"] 1 two_users_db = (Ok tt, d') /\
    tasks d' = tasks two_users_db /\
    (forall n, carries 2 n d' <->
               In n (map tag_name (t_tags old)) \/
               In n (canonical_names ["B "; "new"; "b"])) /\
    (forall other, other <> 2 ->
                   forall t, In t (getTagsForTask other d')
                             <-> In t (getTagsForTask other two_users_db)) /\
    addTagsToTask 2 ["B "; "new"; "b"] 1 d' = (Ok tt, d').
Proof.
  eexists. split; [vm_compute; reflexivity|].
  apply (addTagsToTask_adds 2 1 ["B "; "new"; "b"] two_users_db).
  - exact store_ok_two_users_db.
  - vm_compute. reflexivity.
Defined.

(* ================================================================= *)
(** ** createTask *)

Lemma getTagsForTask_unknown_task (taskId : Z) (d : Db) :
  foreign_keys_hold d -> ~ In taskId (map id (tasks d)) ->
  getTagsForTask taskId d = [].
Proof.
  intros Hfk Hnot. apply nil_of_no_member. intros t Ht.
  apply in_getTagsForTask in Ht. destruct Ht as [_ [r (Hr & _ & E)]].
  apply Hnot. rewrite <- E. now apply Hfk.
Qed.

(** X10. [createTask] on a well-formed store returns the new task, read
    back from the store: a fresh id, the given title, the description or
    the empty string, [completed] or false, the clock reading as both
    [createdAt] and [updatedAt], the caller as owner, and as tags exactly
    the canonical names of the given list.  The tasks that were there are
    still there, and the tags of every other task are what they were. *)
Theorem createTask_creates (now : string) (tasks_seq : Z) (data : taskData)
        (user : Z) (d : Db) :
  store_ok d ->
  exists new d',
    createTask now tasks_seq data user d = (Ok (Some new), d') /\
    getTaskById (t_id new) user d' = Some new /\
    ~ In (t_id new) (map id (tasks d)) /\
    t_title new = td_title data /\
    t_description new = match td_description data with Some s => s | None => "" end /\
    t_completed new = match td_completed data with Some b => b | None => false end /\
    t_createdAt new = now /\ t_updatedAt new = now /\ t_userId new = user /\
    (forall n, In n (map tag_name (t_tags new)) <->
               In n (canonical_names
                       (match td_tags data with Some l => l | None => [] end))) /\
    (forall t, In t (tasks d) -> In t (tasks d')) /\
    (forall other, other <> t_id new ->
                   forall t, In t (getTagsForTask other d') <-> In t (getTagsForTask other d)).
Proof.
  intros Hok. unfold createTask. unfold bind at 1.
  set (desc := match td_description data with
               | Some s => if truthy s then s else ""
               | None => ""
               end).
  set (done := match td_completed data with None => false | Some b => b end).
  destruct (insert_task tasks_seq (td_title data) desc done now now user d)
    as [r1 d1] eqn:Hins.
  unfold insert_task in Hins. injection Hins as <- <-.
  set (i := next_task_id tasks_seq d).
  set (row := mkTaskRow i (td_title data) desc (if done then 1 else 0) now now user).
  set (d1 := mkDb (tasks d ++ [row]) (tags d) (task_tags d) (tags_seq d)).
  assert (Hok1 : store_ok d1).
  { exact (keeps_ok_insert_task tasks_seq (td_title data) desc done now now user d Hok). }
  assert (Hfresh : ~ In i (map id (tasks d))) by apply next_task_id_fresh.
  assert (Hfind : find (fun t => (id t =? i) && (userId t =? user)) (tasks d1) = Some row).
  { simpl. rewrite find_app_none.
    - simpl. now rewrite !Z.eqb_refl.
    - apply find_none_of_not_In. intros t Ht.
      destruct (Z.eqb_spec (id t) i) as [E|]; [|reflexivity].
      exfalso. apply Hfresh. rewrite <- E. now apply in_map. }
  assert (Hnone : getTagsForTask i d1 = []).
  { apply nil_of_no_member. intros t Ht. apply in_getTagsForTask in Ht.
    destruct Ht as [_ [r (Hr & _ & E)]]. simpl in Hr. apply Hfresh.
    rewrite <- E. now apply (ok_foreign_keys d Hok). }
  destruct (addTagsToTask_owned_tags i user
              (match td_tags data with Some l => l | None => [] end) d1 row Hok1 Hfind)
    as (d2 & Hrun & Htasks & Hincl & Hnames & Hothers).
  assert (Hstep : (match td_tags data with
                   | Some (n :: ns) => addTagsToTask i (n :: ns) user
                   | _ => ret tt
                   end) d1 = (Ok tt, d2)).
  { destruct (td_tags data) as [[|n ns]|]; exact Hrun. }
  unfold bind. rewrite Hstep. unfold query.
  assert (Hget : getTaskById i user d2
                 = Some (transformTaskFromDb row (getTagsForTask i d2))).
  { unfold getTaskById. rewrite Htasks, Hfind. reflexivity. }
  rewrite Hget. eexists. eexists. split; [reflexivity|]. simpl.
  split; [exact Hget|]. split; [exact Hfresh|]. split; [reflexivity|].
  split.
  { unfold desc. destruct (td_description data) as [[|c s]|]; reflexivity. }
  split; [unfold done; now destruct (td_completed data) as [[|]|]|].
  split; [reflexivity|]. split; [reflexivity|]. split; [reflexivity|].
  split.
  { intros n. fold (carries i n d2). rewrite Hnames. unfold carries.
    rewrite Hnone. simpl. tauto. }
  split.
  { intros t Ht. rewrite Htasks. simpl. apply in_or_app. now left. }
  intros other Hother t. rewrite (Hothers other Hother t).
  rewrite !in_getTagsForTask. reflexivity.
Qed.

Lemma createTask_creates_witness :
  exists new d',
    createTask same_millisecond 3 new_task_data 2 two_users_db = (Ok (Some new), d') /\
    getTaskById (t_id new) 2 d' = Some new /\
    ~ In (t_id new) (map id (tasks two_users_db)) /\
    t_title new = td_title new_task_data /\
    t_description new
    = match td_description new_task_data with Some s => s | None => "" end /\
    t_completed new
    = match td_completed new_task_data with Some b => b | None => false end /\
    t_createdAt new = same_millisecond /\ t_updatedAt new = same_millisecond /\
    t_userId new = 2 /\
    (forall n, In n (map tag_name (t_tags new)) <->
               In n (canonical_names
                       (match td_tags new_task_data with Some l => l | None => [] end))) /\
    (forall t, In t (tasks two_users_db) -> In t (tasks d')) /\
    (forall other, other <> t_id new ->
                   forall t, In t (getTagsForTask other d')
                             <-> In t (getTagsForTask other two_users_db)).
Proof.
  apply (createTask_creates same_millisecond 3 new_task_data 2 two_users_db).
  exact store_ok_two_users_db.
Defined.

Example createTask_example :
  option_map (fun t => (t_id t, t_title t, t_completed t, map tag_name (t_tags t)))
    (match fst (createTask same_millisecond 3 new_task_data 2 two_users_db) with
     | Ok r => r | Err _ => None end)
  = Some (4, "Task With Tags", false, ["work"; "home"]).
Proof. vm_compute. reflexivity. Qed.

(* ================================================================= *)
(** ** updateTag *)

Lemma truthy_of_nonempty (s : string) : s <> "" -> truthy s = true.
Proof. destruct s; [congruence | reflexivity]. Qed.

Lemma find_tag_by_id (tagId : Z) (d : Db) :
  In tagId (map tag_id (tags d)) ->
  exists t, find (fun t => tag_id t =? tagId) (tags d) = Some t.
Proof.
  intros Hin. apply in_map_iff in Hin. destruct Hin as [t [E Ht]].
  apply (find_some_of_In _ _ t Ht). now apply Z.eqb_eq.
Qed.

Lemma user_tag_rows_owner (tagId user : Z) (d : Db) :
  owns_task_with_tag tagId user d ->
  exists p, hd_error (user_tag_rows tagId user d) = Some p.
Proof.
  intros Hown. destruct (user_tag_rows tagId user d) as [|p rest] eqn:E.
  - apply user_tag_rows_nil_iff in E. contradiction.
  - exists p. reflexivity.
Qed.

Lemma getTagsForTask_renamed (taskId tagId : Z) (name : string)
      (ts : list task_row) (tgs : list tag_row) (tts : list task_tag_row) (sq : Z) :
  getTagsForTask taskId (mkDb ts (map (renamed tagId name) tgs) tts sq)
  = map (renamed tagId name) (getTagsForTask taskId (mkDb ts tgs tts sq)).
Proof.
  unfold getTagsForTask. simpl.
  induction tgs as [|x r IH]; simpl; [reflexivity|].
  rewrite map_app, IH. f_equal.
  assert (Hid : tag_id (renamed tagId name x) = tag_id x).
  { unfold renamed. now destruct (tag_id x =? tagId). }
  rewrite Hid. clear IH.
  induction tts as [|a l IHl]; simpl; [reflexivity|].
  rewrite map_app, IHl. f_equal.
  now destruct ((tag_id x =? tt_tag_id a) && (tt_task_id a =? taskId)).
Qed.

(** X11. A rename that is allowed goes through and shows everywhere.  For
    a name that is not blank, a tag that exists, a requester who owns a
    task carrying it, and no other tag under the new canonical name,
    [updateTag] returns the tag with the canonical name and rewrites that
    one row; tasks and associations are untouched, and every task of every
    user that carried the tag now shows it under the new name. *)
Theorem updateTag_renames (tagId user : Z) (newName : string) (d : Db) :
  trim newName <> "" ->
  In tagId (map tag_id (tags d)) ->
  owns_task_with_tag tagId user d ->
  (forall t, In t (tags d) -> tag_id t <> tagId ->
             toLowerCase (tag_name t) <> canonical newName) ->
  exists d',
    updateTag tagId newName user d = (Ok (mkTag tagId (canonical newName)), d') /\
    tags d' = map (renamed tagId (canonical newName)) (tags d) /\
    tasks d' = tasks d /\ task_tags d' = task_tags d /\
    (forall taskId, getTagsForTask taskId d'
                    = map (renamed tagId (canonical newName)) (getTagsForTask taskId d)).
Proof.
  intros Hne Hin Hown Hfree.
  destruct (find_tag_by_id tagId d Hin) as [t0 Hf].
  destruct (user_tag_rows_owner tagId user d Hown) as [p Hp].
  exists (mkDb (tasks d) (map (renamed tagId (canonical newName)) (tags d))
               (task_tags d) (tags_seq d)).
  split.
  - unfold updateTag. rewrite (truthy_of_nonempty _ Hne). simpl.
    fold (canonical newName). unfold bind at 1, query at 1. rewrite Hf.
    unfold bind at 1, query at 1. rewrite Hp.
    unfold bind at 1, query at 1. unfold select_conflicting_tag.
    rewrite find_none_of_not_In.
    + unfold try_catch, bind, update_tag_name, ret.
      rewrite (proj2 (existsb_exists _ _));
        [|exists t0; apply find_some in Hf; exact Hf].
      simpl.
      assert (Hx : existsb (fun t => negb (tag_id t =? tagId)
                                     && nocase_eqb (tag_name t) (canonical newName))
                           (tags d) = false).
      { destruct (existsb _ (tags d)) eqn:Hex; [|reflexivity].
        apply existsb_exists in Hex. destruct Hex as [t [Ht Hc]].
        apply andb_prop in Hc. destruct Hc as [Hc1 Hc2].
        apply negb_true_iff, Z.eqb_neq in Hc1.
        unfold nocase_eqb in Hc2. apply String.eqb_eq in Hc2.
        unfold canonical in Hc2 at 1. rewrite toLowerCase_idem in Hc2.
        exfalso. exact (Hfree t Ht Hc1 Hc2). }
      rewrite Hx. reflexivity.
    + intros t Ht. destruct (Z.eqb_spec (tag_id t) tagId) as [E|E];
        [now rewrite andb_false_r|].
      rewrite andb_true_r. apply String.eqb_neq. now apply Hfree.
  - split; [reflexivity|]. split; [reflexivity|]. split; [reflexivity|].
    intros taskId. rewrite <- (db_eta d) at 2. apply getTagsForTask_renamed.
Qed.

Lemma two_users_db_owns_b : owns_task_with_tag 2 1 two_users_db.
Proof.
  exists (mkTaskTag 1 2), (mkTaskRow 1 "write report" "" 0
            "2024-01-01T00:00:00.000Z" "2024-01-01T00:00:00.000Z" 1).
  simpl. repeat split; auto.
Defined.

Lemma updateTag_renames_witness :
  exists d',
    updateTag 2 " Zed " 1 two_users_db = (Ok (mkTag 2 (canonical " Zed ")), d') /\
    tags d' = map (renamed 2 (canonical " Zed ")) (tags two_users_db) /\
    tasks d' = tasks two_users_db /\ task_tags d' = task_tags two_users_db /\
    (forall taskId, getTagsForTask taskId d'
                    = map (renamed 2 (canonical " Zed "))
                          (getTagsForTask taskId two_users_db)).
Proof.
  apply (updateTag_renames 2 1 " Zed " two_users_db).
  - discriminate.
  - simpl. auto.
  - exact two_users_db_owns_b.
  - intros t [<-|[<-|[]]]; simpl; intros H; [discriminate | congruence].
Defined.

(** X12. What [updateTag] refuses, and in which order: a blank name (400)
    before anything is looked up, then an unknown tag (404), then a
    requester who owns no task carrying the tag (403), then another tag
    already under the new canonical name (409, the message quoting the
    name as typed, trimmed).  None of these writes to the store. *)
Theorem updateTag_refusals (tagId user : Z) (newName : string) (d : Db) :
  (trim newName = "" -> updateTag tagId newName user d = (Err empty_new_name, d)) /\
  (trim newName <> "" -> ~ In tagId (map tag_id (tags d)) ->
   updateTag tagId newName user d = (Err tag_not_found, d)) /\
  (trim newName <> "" -> In tagId (map tag_id (tags d)) ->
   ~ owns_task_with_tag tagId user d ->
   updateTag tagId newName user d = (Err update_not_permitted, d)) /\
  (trim newName <> "" -> In tagId (map tag_id (tags d)) ->
   owns_task_with_tag tagId user d ->
   (exists t, In t (tags d) /\ tag_id t <> tagId /\
              toLowerCase (tag_name t) = canonical newName) ->
   updateTag tagId newName user d = (Err (name_conflict (trim newName)), d)).
Proof.
  split; [|split; [|split]].
  - intros H. unfold updateTag. now rewrite H.
  - intros Hne Hnot. unfold updateTag. rewrite (truthy_of_nonempty _ Hne). simpl.
    unfold bind, query. rewrite find_none_of_not_In; [reflexivity|].
    intros t Ht. apply Z.eqb_neq. intros E. apply Hnot. rewrite <- E. now apply in_map.
  - intros Hne Hin Hno. unfold updateTag. rewrite (truthy_of_nonempty _ Hne). simpl.
    destruct (find_tag_by_id tagId d Hin) as [t0 Hf].
    unfold bind at 1, query at 1. rewrite Hf. unfold bind, query.
    apply user_tag_rows_nil_iff in Hno. now rewrite Hno.
  - intros Hne Hin Hown [t (Ht & Hid & Hname)].
    unfold updateTag. rewrite (truthy_of_nonempty _ Hne). simpl.
    fold (canonical newName).
    destruct (find_tag_by_id tagId d Hin) as [t0 Hf].
    destruct (user_tag_rows_owner tagId user d Hown) as [p Hp].
    unfold bind at 1, query at 1. rewrite Hf.
    unfold bind at 1, query at 1. rewrite Hp.
    unfold bind, query, select_conflicting_tag.
    destruct (find_some_of_In
                (fun t1 => (toLowerCase (tag_name t1) =? canonical newName)%string
                           && negb (tag_id t1 =? tagId)) (tags d) t Ht) as [c Hc].
    { rewrite Hname, String.eqb_refl. simpl. now apply negb_true_iff, Z.eqb_neq. }
    now rewrite Hc.
Qed.

Lemma updateTag_refusals_witness :
  updateTag 9 "   " 1 two_users_db = (Err empty_new_name, two_users_db) /\
  updateTag 2 " A " 1 two_users_db = (Err (name_conflict (trim " A ")), two_users_db).
Proof.
  split.
  - apply (proj1 (updateTag_refusals 9 1 "   " two_users_db)). reflexivity.
  - apply (proj2 (proj2 (proj2 (updateTag_refusals 2 1 " A " two_users_db)))).
    + discriminate.
    + simpl. auto.
    + exact two_users_db_owns_b.
    + exists (mkTag 1 "a"). simpl. repeat split; auto. discriminate.
Defined.

(* ================================================================= *)
(** ** Listing the tags of a user *)

Lemma tag_name_leb_total (a b : tag_row) :
  tag_name_leb a b = true \/ tag_name_leb b a = true.
Proof. apply String.leb_total. Qed.

Lemma in_user_tags_join (user : Z) (d : Db) (t : tag_row) :
  In t (user_tags_join user d) <->
  In t (tags d) /\ owns_task_with_tag (tag_id t) user d.
Proof.
  unfold user_tags_join, owns_task_with_tag. rewrite in_flat_map. split.
  - intros [t' [Ht' Hin]]. rewrite in_flat_map in Hin. destruct Hin as [r [Hr Hin]].
    destruct (Z.eqb_spec (tag_id t') (tt_tag_id r)) as [E1|]; [|contradiction].
    rewrite in_flat_map in Hin. destruct Hin as [tk [Htk Hin]].
    destruct ((tt_task_id r =? id tk) && (userId tk =? user)) eqn:E; [|contradiction].
    destruct Hin as [<-|[]]. apply andb_prop in E. destruct E as [E2 E3].
    apply Z.eqb_eq in E2, E3. split; [exact Ht'|]. exists r, tk. auto.
  - intros [Ht [r [tk (Hr & Htk & E1 & E2 & E3)]]]. exists t. split; [exact Ht|].
    rewrite in_flat_map. exists r. split; [exact Hr|].
    rewrite E2, Z.eqb_refl. rewrite in_flat_map. exists tk. split; [exact Htk|].
    rewrite E1, E3, !Z.eqb_refl. now left.
Qed.

Lemma in_order_by {A} (le : A -> A -> bool) (l : list A) (x : A) :
  In x (order_by le l) <-> In x l.
Proof.
  split; apply Permutation_in; [|symmetry]; apply order_by_perm.
Qed.

(** X13. [getAllTagsForUser] returns exactly the tags carried by some task
    of that user, so never a tag that only other users use; each tag comes
    once, and the list is in ascending order of the lower-cased name. *)
Theorem getAllTagsForUser_own_tags (user : Z) (d : Db) :
  (forall t, In t (getAllTagsForUser user d) <->
             In t (tags d) /\ owns_task_with_tag (tag_id t) user d) /\
  NoDup (getAllTagsForUser user d) /\
  Sorted tag_name_le (getAllTagsForUser user d).
Proof.
  unfold getAllTagsForUser. split; [|split].
  - intros t. rewrite in_order_by, in_distinct. apply in_user_tags_join.
  - eapply Permutation_NoDup; [symmetry; apply order_by_perm | apply NoDup_distinct].
  - apply (order_by_sorted tag_name_leb). exact tag_name_leb_total.
Qed.

(* ================================================================= *)
(** ** Autocomplete *)

Lemma sql_like_percent (s : string) : sql_like "%" s = true.
Proof.
  simpl. induction s as [|c r IH]; [reflexivity|]. simpl. exact IH.
Qed.

Lemma sql_like_prefix (p s : string) :
  no_wildcard p = true ->
  sql_like (p ++ "%") s = starts_with_nocase p s.
Proof.
  revert s. induction p as [|c p IH]; intros s Hp.
  - apply sql_like_percent.
  - simpl in Hp. apply andb_prop in Hp. destruct Hp as [Hc Hp].
    apply andb_prop in Hc. destruct Hc as [Hc1 Hc2].
    apply negb_true_iff in Hc1, Hc2.
    change ((String c p ++ "%")%string) with (String c (p ++ "%")%string).
    cbn [sql_like starts_with_nocase]. rewrite Hc1, Hc2.
    destruct s as [|c' s']; [reflexivity|]. simpl. now rewrite IH.
Qed.

Lemma no_wildcard_toLowerCase (p : string) :
  no_wildcard (toLowerCase p) = no_wildcard p.
Proof.
  induction p as [|c p IH]; simpl; [reflexivity|]. rewrite IH. f_equal.
  destruct c as [[] [] [] [] [] [] [] []]; reflexivity.
Qed.

Lemma starts_with_nocase_toLowerCase (p s : string) :
  starts_with_nocase (toLowerCase p) (toLowerCase s) = starts_with_nocase p s.
Proof.
  revert s. induction p as [|c p IH]; intros s; simpl; [reflexivity|].
  destruct s as [|c' s']; simpl; [reflexivity|].
  now rewrite !lower_char_idem, IH.
Qed.

(** The rows [findTagsByPrefix] cuts its result from. *)
Lemma in_prefix_matches (prefix : string) (user : Z) (d : Db) (t : tag_row) :
  In t (order_by tag_name_leb
          (distinct tag_row_eq_dec
             (filter (fun t0 => sql_like (toLowerCase prefix ++ "%")
                                         (toLowerCase (tag_name t0)))
                     (user_tags_join user d))))
  <-> (In t (tags d) /\ owns_task_with_tag (tag_id t) user d) /\
      sql_like (toLowerCase prefix ++ "%") (toLowerCase (tag_name t)) = true.
Proof.
  rewrite in_order_by, in_distinct, filter_In, in_user_tags_join. reflexivity.
Qed.

Lemma in_limit_offset {A} (limit : Z) (l : list A) (x : A) :
  In x (limit_offset limit 0 l) -> In x l.
Proof.
  unfold limit_offset. simpl. destruct (limit <? 0); [trivial|].
  intros H. rewrite <- (firstn_skipn (Z.to_nat limit) l). apply in_or_app. now left.
Qed.

Lemma limit_offset_all_or_full {A} (limit : Z) (l : list A) :
  limit_offset limit 0 l = l \/
  (0 <= limit /\ List.length (limit_offset limit 0 l) = Z.to_nat limit).
Proof.
  unfold limit_offset. simpl. destruct (Z.ltb_spec limit 0) as [|H]; [now left|].
  destruct (Nat.le_gt_cases (List.length l) (Z.to_nat limit)) as [Hle|Hgt].
  - left. now apply firstn_all2.
  - right. split; [exact H|]. rewrite length_firstn. lia.
Qed.

Lemma Sorted_firstn {A} (R : A -> A -> Prop) (n : nat) (l : list A) :
  Sorted R l -> Sorted R (firstn n l).
Proof.
  revert l. induction n as [|n IH]; intros l Hs; simpl; [constructor|].
  destruct l as [|x r]; [constructor|].
  inversion Hs as [|? ? Hr Hhd]; subst. constructor; [now apply IH|].
  destruct n; simpl; [constructor|].
  destruct r; [constructor|]. inversion Hhd; subst. now constructor.
Qed.

(** X14. [findTagsByPrefix] returns only tags carried by some task of the
    user, in ascending order of the lower-cased name, and no more than
    [limit] of them when [limit] is not negative.  For a prefix without
    the wildcards [%] and [_], every tag returned starts with the prefix,
    letter case aside, and every such tag of the user is returned unless
    the limit is reached. *)
Theorem findTagsByPrefix_own_prefixed (prefix : string) (user : Z) (limit : Z) (d : Db) :
  (forall t, In t (findTagsByPrefix prefix user limit d) ->
             In t (tags d) /\ owns_task_with_tag (tag_id t) user d) /\
  Sorted tag_name_le (findTagsByPrefix prefix user limit d) /\
  (0 <= limit ->
   (List.length (findTagsByPrefix prefix user limit d) <= Z.to_nat limit)%nat) /\
  (no_wildcard prefix = true ->
   (forall t, In t (findTagsByPrefix prefix user limit d) ->
              starts_with_nocase prefix (tag_name t) = true) /\
   (forall t, In t (tags d) -> owns_task_with_tag (tag_id t) user d ->
              starts_with_nocase prefix (tag_name t) = true ->
              In t (findTagsByPrefix prefix user limit d) \/
              (0 <= limit /\
               List.length (findTagsByPrefix prefix user limit d) = Z.to_nat limit))).
Proof.
  unfold findTagsByPrefix.
  set (L := order_by tag_name_leb _).
  assert (HL : forall t, In t L <->
                (In t (tags d) /\ owns_task_with_tag (tag_id t) user d) /\
                sql_like (toLowerCase prefix ++ "%") (toLowerCase (tag_name t)) = true)
    by (intros t; apply in_prefix_matches).
  split; [|split; [|split]].
  - intros t Ht. apply in_limit_offset in Ht. now apply HL in Ht.
  - unfold limit_offset. simpl. destruct (limit <? 0).
    + apply (order_by_sorted tag_name_leb). exact tag_name_leb_total.
    + apply Sorted_firstn. apply (order_by_sorted tag_name_leb).
      exact tag_name_leb_total.
  - intros Hl. unfold limit_offset. simpl.
    destruct (Z.ltb_spec limit 0); [lia|]. rewrite length_firstn. lia.
  - intros Hw.
    assert (Hlike : forall t, sql_like (toLowerCase prefix ++ "%")
                                       (toLowerCase (tag_name t))
                              = starts_with_nocase prefix (tag_name t)).
    { intros t. rewrite sql_like_prefix by now rewrite no_wildcard_toLowerCase.
      apply starts_with_nocase_toLowerCase. }
    split.
    + intros t Ht. apply in_limit_offset in Ht. apply HL in Ht.
      rewrite <- Hlike. tauto.
    + intros t Ht Hown Hpre.
      destruct (limit_offset_all_or_full limit L) as [Hall|Hfull];
        [left | now right].
      rewrite Hall. apply HL. rewrite Hlike. tauto.
Qed.

Lemma findTagsByPrefix_own_prefixed_witness :
  (List.length (findTagsByPrefix "" 1 1 two_users_db) <= Z.to_nat 1)%nat /\
  (forall t, In t (findTagsByPrefix "B" 1 10 two_users_db) ->
             starts_with_nocase "B" (tag_name t) = true).
Proof.
  split.
  - apply (proj1 (proj2 (proj2
             (findTagsByPrefix_own_prefixed "" 1 1 two_users_db)))). lia.
  - apply (proj2 (proj2 (proj2
             (findTagsByPrefix_own_prefixed "B" 1 10 two_users_db)))). reflexivity.
Defined.

Lemma getAllTagsForUser_own_tags_aux (user : Z) (d : Db) :
  forall t, In t (getAllTagsForUser user d) ->
            In t (tags d) /\ owns_task_with_tag (tag_id t) user d.
Proof.
  intros t. unfold getAllTagsForUser.
  rewrite in_order_by, in_distinct. apply in_user_tags_join.
Qed.

Lemma findTagsByPrefix_own_aux (prefix : string) (user : Z) (limit : Z) (d : Db) :
  forall t, In t (findTagsByPrefix prefix user limit d) ->
            In t (tags d) /\ owns_task_with_tag (tag_id t) user d.
Proof.
  intros t Ht. unfold findTagsByPrefix in Ht. apply in_limit_offset in Ht.
  apply in_prefix_matches in Ht. tauto.
Qed.

(** X15. The autocomplete endpoint sends back only tags carried by some
    task of the caller.  With [q] absent or empty it sends nothing unless
    [showAll] is the string true, in which case it sends all the caller's
    tags, without a limit; with a [q] and no [limit] it sends at most 10
    tags. *)
Theorem autocompleteTags_own_tags (user : Z) (q showAll limit : option string) (d : Db) :
  (forall t, In t (autocompleteTags user q showAll limit d) ->
             In t (tags d) /\ owns_task_with_tag (tag_id t) user d) /\
  (q = None \/ q = Some "" ->
   (showAll <> Some "true" -> autocompleteTags user q showAll limit d = []) /\
   (showAll = Some "true" ->
    autocompleteTags user q showAll limit d = getAllTagsForUser user d)) /\
  (forall s, q = Some s -> s <> "" -> limit = None ->
             (List.length (autocompleteTags user q showAll limit d) <= 10)%nat).
Proof.
  split; [|split].
  - intros t. unfold autocompleteTags.
    destruct (_ && negb _); [intros []|].
    destruct (_ && _).
    + apply getAllTagsForUser_own_tags_aux.
    + apply findTagsByPrefix_own_aux.
  - intros Hq.
    assert (Hempty : match q with Some s => if truthy s then s else "" | None => "" end
                     = "") by (destruct Hq as [-> | ->]; reflexivity).
    unfold autocompleteTags. rewrite Hempty. simpl. split.
    + intros Hs. destruct showAll as [s|]; [|reflexivity].
      destruct (String.eqb_spec s "true") as [->|]; [congruence | reflexivity].
    + intros ->. reflexivity.
  - intros s -> Hs ->. unfold autocompleteTags.
    destruct s as [|c s']; [congruence|]. simpl truthy. cbv iota.
    simpl String.length. simpl Nat.ltb. simpl andb. rewrite andb_false_r.
    unfold findTagsByPrefix, limit_offset.
    change (int_or None 10) with 10. change (10 <? 0) with false. cbv iota.
    rewrite length_firstn. change (Z.to_nat 10) with 10%nat. apply Nat.le_min_l.
Qed.

Lemma autocompleteTags_own_tags_witness :
  autocompleteTags 1 (Some "") (Some "yes") None two_users_db = [] /\
  (List.length (autocompleteTags 1 (Some "a") None None two_users_db) <= 10)%nat.
Proof.
  split.
  - apply (proj1 (proj2 (autocompleteTags_own_tags 1 (Some "") (Some "yes") None
                           two_users_db))); [now right | discriminate].
  - apply (proj2 (proj2 (autocompleteTags_own_tags 1 (Some "a") None None
                           two_users_db)) "a"); [reflexivity | discriminate | reflexivity].
Defined.

(* ================================================================= *)
(** ** What the list query selects *)

Lemma in_select_tasks (user : Z) (o : options) (d : Db) (t : task_row) :
  In t (select_tasks user o d) -> In t (tasks d) /\ where_task user o t = true.
Proof.
  unfold select_tasks. destruct (tagNamesToFilter o) as [|n ns].
  - rewrite in_distinct, filter_In. trivial.
  - set (rows := matching_join user o (n :: ns) d).
    assert (Hrows : forall x, In x (map fst rows) ->
                              In x (tasks d) /\ where_task user o x = true).
    { intros x Hx. apply in_map_iff in Hx. destruct Hx as [p [<- Hp]].
      split; [now apply (in_matching_join user o (n :: ns) d)|].
      unfold rows, matching_join in Hp. apply filter_In in Hp.
      destruct Hp as [_ Hw]. apply andb_prop in Hw. tauto. }
    destruct (tagMatchMode o =? "all")%string.
    + rewrite in_distinct. unfold group_having. rewrite filter_In, in_distinct.
      intros [H _]. now apply Hrows.
    + rewrite in_distinct. apply Hrows.
Qed.

Lemma in_limit_offset_any {A} (limit offset : Z) (l : list A) (x : A) :
  In x (limit_offset limit offset l) -> In x l.
Proof.
  unfold limit_offset. intros H.
  assert (Hs : In x (skipn (Z.to_nat offset) l)).
  { destruct (limit <? 0); [exact H|].
    rewrite <- (firstn_skipn (Z.to_nat limit) (skipn (Z.to_nat offset) l)).
    apply in_or_app. now left. }
  rewrite <- (firstn_skipn (Z.to_nat offset) l). apply in_or_app. now right.
Qed.

(** X16. Every task [getAllTasks] returns is a task of the store that
    belongs to the requesting user, passes the [completed] filter when one
    is given, and comes with all the tags it carries, not only those asked
    for; this holds for every option, valid or not. *)
Theorem getAllTasks_only_own_tasks (user : Z) (o : options) (d : Db) (t : task) :
  In t (r_tasks (getAllTasks user o d)) ->
  exists row,
    In row (tasks d) /\
    t = transformTaskFromDb row (getTagsForTask (id row) d) /\
    t_userId t = user /\
    (forall v, opt_completed o = Some v -> completed row = completedValue v).
Proof.
  unfold getAllTasks. simpl r_tasks. intros Ht. apply in_map_iff in Ht.
  destruct Ht as [row [<- Hrow]]. apply in_limit_offset_any in Hrow.
  apply (Permutation_in _ (apply_sort_perm o _)) in Hrow.
  apply in_select_tasks in Hrow. destruct Hrow as [Hin Hw].
  exists row. split; [exact Hin|]. split; [reflexivity|].
  unfold where_task in Hw. apply andb_prop in Hw. destruct Hw as [Hu Hc].
  apply Z.eqb_eq in Hu. split; [exact Hu|].
  intros v Hv. rewrite Hv in Hc. now apply Z.eqb_eq.
Qed.

Lemma getAllTasks_only_own_tasks_witness :
  exists t row,
    In t (r_tasks (getAllTasks 1 paged_options two_users_db)) /\
    In row (tasks two_users_db) /\
    t = transformTaskFromDb row (getTagsForTask (id row) two_users_db) /\
    t_userId t = 1 /\
    (forall v, opt_completed paged_options = Some v -> completed row = completedValue v).
Proof.
  pose (t := transformTaskFromDb
               (mkTaskRow 2 "book flights" "" 1
                          "2024-01-02T00:00:00.000Z" "2024-01-02T00:00:00.000Z" 1)
               (getTagsForTask 2 two_users_db)).
  assert (Hin : In t (r_tasks (getAllTasks 1 paged_options two_users_db)))
    by (vm_compute; auto).
  destruct (getAllTasks_only_own_tasks 1 paged_options two_users_db t Hin)
    as (row & H).
  exists t, row. split; [exact Hin | exact H].
Defined.

(** X17. Without a tag filter the list query selects exactly the user's
    tasks that pass the [completed] filter.  With tags and match mode
    "any" it selects, of those, exactly the tasks that carry at least one
    of the names asked for, each task once. *)
Theorem select_tasks_any_or_unfiltered (user : Z) (o : options) (d : Db) :
  NoDup (select_tasks user o d) /\
  (tagNamesToFilter o = [] ->
   forall t, In t (select_tasks user o d) <->
             In t (tasks d) /\ where_task user o t = true) /\
  (tagNamesToFilter o <> [] -> tagMatchMode o = "any" ->
   forall t, In t (select_tasks user o d) <->
             In t (tasks d) /\ where_task user o t = true /\
             exists n, In n (tagNamesToFilter o) /\ In n (attached_names t d)).
Proof.
  split; [|split].
  - unfold select_tasks. destruct (tagNamesToFilter o); [apply NoDup_distinct|].
    destruct (_ =? _)%string; apply NoDup_distinct.
  - intros Hnil t. unfold select_tasks. rewrite Hnil.
    rewrite in_distinct, filter_In. reflexivity.
  - intros Hne Hmode t. unfold select_tasks.
    pose proof (tagNamesToFilter_lower o) as Hlow.
    destruct (tagNamesToFilter o) as [|n0 ns] eqn:Hnames; [congruence|].
    set (names := n0 :: ns) in *. rewrite Hmode. simpl String.eqb. cbv iota.
    rewrite in_distinct, in_map_iff. unfold attached_names. split.
    + intros [[t' ta] [E Hp]]. simpl in E. subst t'.
      unfold matching_join in Hp. apply filter_In in Hp. destruct Hp as [Hj Hw].
      simpl in Hw. apply andb_prop in Hw. destruct Hw as [Hw1 Hw2].
      apply in_task_tag_join_iff in Hj. destruct Hj as [Ht Hta].
      apply (where_tag_iff names ta Hlow) in Hw2.
      split; [exact Ht|]. split; [exact Hw1|].
      exists (toLowerCase (tag_name ta)). split; [exact Hw2|].
      apply in_map_iff. eauto.
    + intros (Ht & Hw & n & Hn & Hatt). apply in_map_iff in Hatt.
      destruct Hatt as [ta [E Hta]]. exists (t, ta). split; [reflexivity|].
      unfold matching_join. apply filter_In. split.
      * apply in_task_tag_join_iff. auto.
      * simpl. rewrite Hw. simpl. apply (where_tag_iff names ta Hlow). now rewrite E.
Qed.

Lemma select_tasks_any_or_unfiltered_witness :
  tagNamesToFilter paged_options <> [] /\
  tagMatchMode paged_options = "any" /\
  (In (mkTaskRow 2 "book flights" "" 1
                 "2024-01-02T00:00:00.000Z" "2024-01-02T00:00:00.000Z" 1)
      (select_tasks 1 paged_options two_users_db) <->
   In (mkTaskRow 2 "book flights" "" 1
                 "2024-01-02T00:00:00.000Z" "2024-01-02T00:00:00.000Z" 1)
      (tasks two_users_db) /\
   where_task 1 paged_options
              (mkTaskRow 2 "book flights" "" 1
                         "2024-01-02T00:00:00.000Z" "2024-01-02T00:00:00.000Z" 1)
   = true /\
   exists n, In n (tagNamesToFilter paged_options) /\
             In n (attached_names
                     (mkTaskRow 2 "book flights" "" 1
                                "2024-01-02T00:00:00.000Z" "2024-01-02T00:00:00.000Z" 1)
                     two_users_db)).
Proof.
  split; [discriminate|]. split; [reflexivity|].
  apply (proj2 (proj2 (select_tasks_any_or_unfiltered 1 paged_options two_users_db)));
    [discriminate | reflexivity].
Defined.

Lemma select_tasks_all_superset_witness :
  let o := with_tags no_options (Some "a, B") in
  let t := mkTaskRow 1 "write report" "" 0
                     "2024-01-01T00:00:00.000Z" "2024-01-01T00:00:00.000Z" 1 in
  NoDup (tagNamesToFilter o) /\
  (In t (select_tasks 1 o two_users_db) <->
   In t (tasks two_users_db) /\ where_task 1 o t = true /\
   incl (tagNamesToFilter o) (attached_names t two_users_db)).
Proof.
  intros o t.
  assert (Hnd : NoDup (tagNamesToFilter o))
    by (vm_compute; repeat constructor; simpl; intuition discriminate).
  split; [exact Hnd|].
  apply (select_tasks_all_superset 1 o two_users_db t).
  - reflexivity.
  - discriminate.
  - exact Hnd.
Defined.

(* ================================================================= *)
(** ** Walking through the pages *)

Lemma firstn_plus {A} (a b : nat) (l : list A) :
  firstn (a + b) l = firstn a l ++ firstn b (skipn a l).
Proof.
  revert l. induction a as [|a IH]; intros l; [reflexivity|].
  destruct l as [|x r]; simpl; [now rewrite firstn_nil|]. now rewrite IH.
Qed.

Lemma concat_pages {A} (l : list A) (L k : nat) :
  List.concat (map (fun p => firstn L (skipn ((p - 1) * L) l)) (seq 1 k))
  = firstn (k * L) l.
Proof.
  induction k as [|k IH]; [reflexivity|].
  rewrite seq_S, map_app, concat_app, IH. simpl map. simpl List.concat.
  rewrite app_nil_r. rewrite ?Nat.sub_0_r. replace (1 + k - 1)%nat with k by lia.
  replace (S k * L)%nat with (k * L + L)%nat by lia.
  now rewrite firstn_plus.
Qed.

(** The rows of page [p], for a page number from 1 on and a positive page
    size. *)
Lemma page_rows (user : Z) (o : options) (d : Db) (p : nat) :
  (1 <= p)%nat -> 0 < int_or (opt_limit o) 10 ->
  r_tasks (getAllTasks user (with_page o (Z.of_nat p)) d)
  = map (with_tags_of d)
        (firstn (Z.to_nat (int_or (opt_limit o) 10))
                (skipn ((p - 1) * Z.to_nat (int_or (opt_limit o) 10))
                       (all_rows user o d))).
Proof.
  intros Hp HL. unfold getAllTasks. simpl r_tasks.
  fold (all_rows user (with_page o (Z.of_nat p)) d). rewrite all_rows_with_page.
  simpl opt_limit. simpl opt_page. unfold limit_offset.
  set (L := int_or (opt_limit o) 10) in *.
  destruct (Z.ltb_spec L 0) as [Hneg|_]; [lia|].
  unfold with_tags_of. do 3 f_equal. unfold int_or.
  destruct (Z.eqb_spec (Z.of_nat p) 0) as [H0|_]; [lia|].
  rewrite Z2Nat.inj_mul by lia. f_equal. lia.
Qed.

Lemma total_pages_cover (user : Z) (o : options) (d : Db) :
  task_ids_unique d ->
  tagMatchMode o = "all" \/ tagMatchMode o = "any" ->
  0 < int_or (opt_limit o) 10 ->
  0 <= r_totalPages (getAllTasks user o d) /\
  (List.length (all_rows user o d)
   <= Z.to_nat (r_totalPages (getAllTasks user o d))
      * Z.to_nat (int_or (opt_limit o) 10))%nat.
Proof.
  intros Hu Hmode HL.
  change (r_totalPages (getAllTasks user o d))
    with (ceil_div (count_tasks user o d) (int_or (opt_limit o) 10)).
  rewrite (count_tasks_select_tasks user o d Hu Hmode), <- length_all_rows.
  destruct (ceil_div_covers (Z.of_nat (List.length (all_rows user o d)))
                            (int_or (opt_limit o) 10)) as [H0 Hc]; [lia|lia|].
  split; [exact H0|].
  apply Nat2Z.inj_le. rewrite Nat2Z.inj_mul, !Z2Nat.id by lia. exact Hc.
Qed.

(** X19. Read one after another, the pages 1 to [totalPages] of a list
    request give every selected task exactly once, in the order of the
    whole sorted result. *)
Theorem getAllTasks_pages_cover (user : Z) (o : options) (d : Db) :
  task_ids_unique d ->
  tagMatchMode o = "all" \/ tagMatchMode o = "any" ->
  (forall l, opt_limit o = Some l -> 0 <= l) ->
  List.concat (map (fun p => r_tasks (getAllTasks user (with_page o (Z.of_nat p)) d))
              (seq 1 (Z.to_nat (r_totalPages (getAllTasks user o d)))))
  = map (with_tags_of d) (all_rows user o d).
Proof.
  intros Hu Hmode Hlimit.
  pose proof (int_or_limit_pos o Hlimit) as HL.
  destruct (total_pages_cover user o d Hu Hmode HL) as [_ Hcover].
  rewrite (map_ext_in _
             (fun p => map (with_tags_of d)
                (firstn (Z.to_nat (int_or (opt_limit o) 10))
                        (skipn ((p - 1) * Z.to_nat (int_or (opt_limit o) 10))
                               (all_rows user o d))))).
  - rewrite <- (map_map (fun p => firstn _ (skipn ((p - 1) * _) _))
                        (map (with_tags_of d))).
    rewrite <- concat_map, concat_pages. f_equal. now apply firstn_all2.
  - intros p Hp. apply in_seq in Hp. apply page_rows; [lia | exact HL].
Qed.

Lemma getAllTasks_pages_cover_witness :
  List.concat (map (fun p => r_tasks (getAllTasks 1 (with_page paged_options (Z.of_nat p))
                                             two_users_db))
              (seq 1 (Z.to_nat (r_totalPages (getAllTasks 1 paged_options two_users_db)))))
  = map (with_tags_of two_users_db) (all_rows 1 paged_options two_users_db).
Proof.
  apply (getAllTasks_pages_cover 1 paged_options two_users_db).
  - exact two_users_db_task_ids_unique.
  - right. reflexivity.
  - intros l H. injection H as <-. lia.
Defined.

(** X20. A page never holds more tasks than the page size, and a page
    past the last one is empty while [total] and [totalPages] stay what
    they are on page 1. *)
Theorem getAllTasks_page_bounds (user : Z) (o : options) (d : Db) (p : nat) :
  task_ids_unique d ->
  tagMatchMode o = "all" \/ tagMatchMode o = "any" ->
  (forall l, opt_limit o = Some l -> 0 <= l) ->
  (1 <= p)%nat ->
  let r := getAllTasks user (with_page o (Z.of_nat p)) d in
  (List.length (r_tasks r) <= Z.to_nat (r_limit r))%nat /\
  r_total r = r_total (getAllTasks user (with_page o 1) d) /\
  r_totalPages r = r_totalPages (getAllTasks user (with_page o 1) d) /\
  (r_totalPages r < Z.of_nat p -> r_tasks r = []).
Proof.
  intros Hu Hmode Hlimit Hp r.
  pose proof (int_or_limit_pos o Hlimit) as HL.
  split; [|split; [reflexivity|split; [reflexivity|]]].
  - unfold r. rewrite (page_rows user o d p Hp HL), length_map, length_firstn.
    simpl r_limit. apply Nat.le_min_l.
  - intros Hpast. unfold r. rewrite (page_rows user o d p Hp HL).
    destruct (total_pages_cover user o d Hu Hmode HL) as [H0 Hcover].
    change (r_totalPages r) with (r_totalPages (getAllTasks user o d)) in Hpast.
    rewrite skipn_all2; [now rewrite firstn_nil|].
    assert (Hk : (Z.to_nat (r_totalPages (getAllTasks user o d)) <= p - 1)%nat) by lia.
    eapply Nat.le_trans; [exact Hcover|]. now apply Nat.mul_le_mono_r.
Qed.

Lemma getAllTasks_page_bounds_witness :
  let r := getAllTasks 1 (with_page paged_options (Z.of_nat 3)) two_users_db in
  (List.length (r_tasks r) <= Z.to_nat (r_limit r))%nat /\
  r_total r = r_total (getAllTasks 1 (with_page paged_options 1) two_users_db) /\
  r_totalPages r = r_totalPages (getAllTasks 1 (with_page paged_options 1) two_users_db) /\
  (r_totalPages r < Z.of_nat 3 -> r_tasks r = []).
Proof.
  apply (getAllTasks_page_bounds 1 paged_options two_users_db 3).
  - exact two_users_db_task_ids_unique.
  - right. reflexivity.
  - intros l H. injection H as <-. lia.
  - lia.
Defined.

(* ================================================================= *)
(** ** The order of the result *)

Lemma toUpperCase_empty (s : string) : toUpperCase s = "DESC" -> truthy s = true.
Proof. destruct s; [discriminate | reflexivity]. Qed.

(** X21. The order of the result.  Without [sortBy] the rows come newest
    first ([createdAt] descending).  With [sortBy] made of an allowed
    field, an underscore and an order word, they come ordered by that
    field: descending when the order word, upper-cased, is DESC, and
    ascending for any other word. *)
Theorem all_rows_sorted (user : Z) (o : options) (d : Db) :
  (opt_sortBy o = None \/ opt_sortBy o = Some "" ->
   Sorted (column_le "createdAt" true) (all_rows user o d)) /\
  (forall field order : string,
      In field allowedFields ->
      opt_sortBy o = Some (field ++ "_" ++ order)%string ->
      Sorted (column_le field (toUpperCase (sort_field order) =? "DESC")%string)
             (all_rows user o d)).
Proof.
  split.
  - intros H. unfold all_rows, apply_sort.
    destruct H as [-> | ->]; apply order_by_column_sorted.
  - intros field order Hf Hs. unfold all_rows, apply_sort. rewrite Hs.
    assert (Hparts : split "_" (field ++ "_" ++ order)%string = field :: split "_" order).
    { simpl in Hf. destruct Hf as [<-|[<-|[<-|[<-|[]]]]]; reflexivity. }
    assert (Htruthy : truthy (field ++ "_" ++ order)%string = true).
    { simpl in Hf. destruct Hf as [<-|[<-|[<-|[<-|[]]]]]; reflexivity. }
    rewrite Htruthy, Hparts. cbn [hd nth_error].
    assert (Hin : existsb (String.eqb field) allowedFields = true).
    { apply existsb_exists. exists field. split; [exact Hf | apply String.eqb_refl]. }
    rewrite Hin.
    unfold sort_field. destruct (split "_" order) as [|x r] eqn:E.
    + destruct order as [|a order']; simpl in E; [discriminate|].
      destruct (Ascii.eqb a "_"); [discriminate|].
      destruct (split "_" order'); discriminate.
    + cbn [hd]. replace (truthy x && (toUpperCase x =? "DESC")%string)
        with (toUpperCase x =? "DESC")%string; [apply order_by_column_sorted|].
      destruct (String.eqb_spec (toUpperCase x) "DESC") as [Hx|];
        [now rewrite (toUpperCase_empty x Hx) | now rewrite andb_false_r].
Qed.

Lemma all_rows_sorted_witness :
  Sorted (column_le "title" (toUpperCase (sort_field "desc") =? "DESC")%string)
         (all_rows 1 (with_sortBy no_options (Some "title_desc")) two_users_db).
Proof.
  apply (proj2 (all_rows_sorted 1 (with_sortBy no_options (Some "title_desc"))
                                two_users_db) "title" "desc").
  - simpl. auto.
  - reflexivity.
Defined.

(* ================================================================= *)
(** ** What an update leaves alone *)

Lemma update_tags_frame (taskId user : Z) (newTags : option (list string)) (d : Db)
      (row : task_row) :
  store_ok d ->
  find (fun t => (id t =? taskId) && (userId t =? user)) (tasks d) = Some row ->
  exists d',
    update_tags taskId newTags user d = (Ok tt, d') /\
    tasks d' = tasks d /\
    incl (tags d) (tags d') /\
    (forall other, other <> taskId ->
                   forall t, In t (getTagsForTask other d') <-> In t (getTagsForTask other d)).
Proof.
  intros Hok Hrow. destruct newTags as [names|].
  - unfold update_tags, bind.
    set (dc := mkDb (tasks d) (tags d)
                    (filter (fun r => negb (tt_task_id r =? taskId)) (task_tags d))
                    (tags_seq d)).
    change (clearTagsForTask taskId d) with (@Ok unit tt, dc).
    assert (Hokc : store_ok dc) by exact (keeps_ok_delete_task_tags_of taskId d Hok).
    destruct (addTagsToTask_owned_tags taskId user names dc row Hokc Hrow)
      as (d' & Hrun & Htasks & Hincl & _ & Hothers).
    exists d'. split.
    { destruct names as [|n ns]; exact Hrun. }
    split; [exact Htasks|]. split; [exact Hincl|].
    intros other Hother t. rewrite (Hothers other Hother t).
    rewrite !in_getTagsForTask. simpl. split.
    + intros [Ht [r (Hr & E1 & E2)]]. apply filter_In in Hr. split; [exact Ht|].
      exists r. tauto.
    + intros [Ht [r (Hr & E1 & E2)]]. split; [exact Ht|]. exists r.
      split; [|auto]. apply filter_In. split; [exact Hr|].
      apply negb_true_iff, Z.eqb_neq. congruence.
  - exists d. split; [reflexivity|]. split; [reflexivity|].
    split; [apply incl_refl|]. tauto.
Qed.

(** X22. An update touches one task only.  On a well-formed store
    [updateTask] of an owned task never throws, leaves every row of every
    other task as it was, leaves every other task with the tags it had,
    and removes no tag from the tags table. *)
Theorem updateTask_others_untouched (now : string) (taskId user : Z)
        (upd : updateData) (d : Db) (old : task) :
  store_ok d ->
  getTaskById taskId user d = Some old ->
  exists r d',
    updateTask now taskId upd user d = (Ok r, d') /\
    (forall t, In t (tasks d) -> id t <> taskId -> In t (tasks d')) /\
    (forall other, other <> taskId ->
                   forall t, In t (getTagsForTask other d') <-> In t (getTagsForTask other d)) /\
    incl (tags d) (tags d').
Proof.
  intros Hok Hold. rewrite (updateTask_eq now taskId user upd d old Hold).
  set (nt := match u_title upd with Some x => x | None => t_title old end).
  set (nd := match u_description upd with Some x => x | None => t_description old end).
  set (nc := match u_completed upd with Some b => b | None => t_completed old end).
  set (d1 := snd (update_task_row nt nd nc now taskId user d)).
  destruct (getTaskById_some _ _ _ _ Hold) as (row & Hf & _ & Hid & Hu).
  assert (Hok1 : store_ok d1)
    by exact (keeps_ok_update_task_row nt nd nc now taskId user d Hok).
  assert (Hf1 : exists row1,
             find (fun t => (id t =? taskId) && (userId t =? user)) (tasks d1)
             = Some row1).
  { unfold d1. simpl. rewrite find_map_same_pred.
    - rewrite Hf. simpl. eauto.
    - intros x. destruct ((id x =? taskId) && (userId x =? user)) eqn:E;
        simpl; now rewrite E. }
  destruct Hf1 as [row1 Hf1].
  destruct (update_tags_frame taskId user (u_tags upd) d1 row1 Hok1 Hf1)
    as (d' & Hrun & Htasks & Hincl & Hothers).
  rewrite Hrun. eexists. exists d'. split; [reflexivity|].
  split; [|split; [exact Hothers | exact Hincl]].
  intros t Ht Hne. rewrite Htasks. unfold d1. simpl. apply in_map_iff.
  exists t. split; [|exact Ht].
  destruct (Z.eqb_spec (id t) taskId); [contradiction | reflexivity].
Qed.

Lemma updateTask_others_untouched_witness :
  exists old, getTaskById 1 1 two_users_db = Some old /\
  exists r d',
    updateTask same_millisecond 1 retag_update 1 two_users_db = (Ok r, d') /\
    (forall t, In t (tasks two_users_db) -> id t <> 1 -> In t (tasks d')) /\
    (forall other, other <> 1 ->
                   forall t, In t (getTagsForTask other d')
                             <-> In t (getTagsForTask other two_users_db)) /\
    incl (tags two_users_db) (tags d').
Proof.
  eexists. split; [vm_compute; reflexivity|].
  eapply (updateTask_others_untouched same_millisecond 1 1 retag_update two_users_db).
  - exact store_ok_two_users_db.
  - vm_compute. reflexivity.
Defined.

(* ================================================================= *)
(** ** Requests that pass the query schema *)

(** X23. Every [tagMatchMode] that the query schema lets through, in the
    form the schema hands on, gives a list result whose [total] is the
    number of tasks the page query selects: the count cannot drift from
    the pages for a validated request. *)
Theorem validated_mode_total (user : Z) (o : options) (d : Db) (mode : option string) :
  task_ids_unique d ->
  validate_tagMatchMode (opt_tagMatchMode o) = Some mode ->
  r_total (getAllTasks user (with_tagMatchMode o mode) d)
  = Z.of_nat (List.length (all_rows user (with_tagMatchMode o mode) d)).
Proof.
  intros Hu Hv. simpl r_total. rewrite length_all_rows.
  apply count_tasks_select_tasks; [exact Hu|].
  destruct (validate_tagMatchMode_accepted _ _ Hv) as [-> | [-> | ->]];
    [left | left | right]; reflexivity.
Qed.

Lemma validated_mode_total_witness :
  r_total (getAllTasks 1 (with_tagMatchMode paged_options (Some "any")) two_users_db)
  = Z.of_nat (List.length
                (all_rows 1 (with_tagMatchMode paged_options (Some "any")) two_users_db)).
Proof.
  apply (validated_mode_total 1 (with_tagMatchMode paged_options (Some "  any "))
           two_users_db (Some "any")).
  - exact two_users_db_task_ids_unique.
  - reflexivity.
Defined.

(* ================================================================= *)
(** ** What the task routes answer *)

Lemma no_owned_row (taskId user : Z) (d : Db) :
  (forall t, In t (tasks d) -> id t = taskId -> userId t <> user) ->
  getTaskById taskId user d = None.
Proof.
  intros H. apply getTaskById_none. intros t Ht.
  destruct (Z.eqb_spec (id t) taskId) as [E|]; [|reflexivity].
  simpl. apply Z.eqb_neq. exact (H t Ht E).
Qed.

(** X24. The task routes do not tell a task of another user from a task
    that does not exist.  When no task with the requested id belongs to
    the requester, GET, PUT (whatever the body) and DELETE on that id all
    answer 404 with the one message, and nothing is written. *)
Theorem taskController_not_owned (now : string) (taskId user : Z)
        (body : updateData) (d : Db) :
  (forall t, In t (tasks d) -> id t = taskId -> userId t <> user) ->
  taskController.getTaskById taskId user d = (task_not_found, d) /\
  taskController.updateTask now taskId body user d = (task_not_found, d) /\
  taskController.deleteTask taskId user d = (task_not_found, d).
Proof.
  intros H. pose proof (no_owned_row taskId user d H) as Hnone.
  split; [|split].
  - unfold taskController.getTaskById, handler, bind, query. now rewrite Hnone.
  - unfold taskController.updateTask, handler, bind.
    unfold updateTask, bind, query. now rewrite Hnone.
  - unfold taskController.deleteTask, handler. unfold bind at 1.
    rewrite (deleteTask_no_row taskId user d); [reflexivity|].
    now apply getTaskById_none.
Qed.

Lemma taskController_not_owned_witness :
  taskController.getTaskById 3 1 two_users_db = (task_not_found, two_users_db) /\
  taskController.updateTask same_millisecond 3 retag_update 1 two_users_db
  = (task_not_found, two_users_db) /\
  taskController.deleteTask 3 1 two_users_db = (task_not_found, two_users_db).
Proof.
  apply (taskController_not_owned same_millisecond 3 1 retag_update two_users_db).
  intros t Ht Hid. simpl in Ht.
  repeat (destruct Ht as [<- | Ht]; [simpl in Hid |- *; lia|]). destruct Ht.
Defined.

(** X25. For a task the requester owns, on a well-formed store, the task
    routes never end in the error handler: GET answers 200 with the task,
    PUT answers 200 with the task as it reads after the update, and
    DELETE answers 204 without a body. *)
Theorem taskController_owned (now : string) (taskId user : Z)
        (body : updateData) (d : Db) (t : task) :
  store_ok d ->
  getTaskById taskId user d = Some t ->
  taskController.getTaskById taskId user d = (mkResponse 200 (JsonTask t), d) /\
  (exists t' d',
      taskController.updateTask now taskId body user d
      = (mkResponse 200 (JsonTask t'), d') /\
      getTaskById taskId user d' = Some t') /\
  (exists d',
      taskController.deleteTask taskId user d = (mkResponse 204 NoBody, d') /\
      getTaskById taskId user d' = None).
Proof.
  intros Hok Hold. split; [|split].
  - unfold taskController.getTaskById, handler, bind, query. now rewrite Hold.
  - unfold taskController.updateTask, handler. unfold bind at 1.
    rewrite (updateTask_eq now taskId user body d t Hold).
    set (nt := match u_title body with Some x => x | None => t_title t end).
    set (nd := match u_description body with Some x => x | None => t_description t end).
    set (nc := match u_completed body with Some b => b | None => t_completed t end).
    set (d1 := snd (update_task_row nt nd nc now taskId user d)).
    destruct (getTaskById_some _ _ _ _ Hold) as (row & Hf & _ & Hid & Hu).
    assert (Hok1 : store_ok d1)
      by exact (keeps_ok_update_task_row nt nd nc now taskId user d Hok).
    assert (Hf1 : exists row1,
               find (fun t => (id t =? taskId) && (userId t =? user)) (tasks d1)
               = Some row1).
    { unfold d1. simpl. rewrite find_map_same_pred.
      - rewrite Hf. simpl. eauto.
      - intros x. destruct ((id x =? taskId) && (userId x =? user)) eqn:E;
          simpl; now rewrite E. }
    destruct Hf1 as [row1 Hf1].
    destruct (update_tags_frame taskId user (u_tags body) d1 row1 Hok1 Hf1)
      as (d' & Hrun & Htasks & _ & _).
    rewrite Hrun.
    assert (Hnew : getTaskById taskId user d'
                   = Some (transformTaskFromDb row1 (getTagsForTask (id row1) d'))).
    { unfold getTaskById. now rewrite Htasks, Hf1. }
    rewrite Hnew. eexists. exists d'. split; [reflexivity | exact Hnew].
  - destruct (getTaskById_some _ _ _ _ Hold) as (row & Hf & _ & Hid & Hu).
    apply find_some in Hf. destruct Hf as [Hrow Hp].
    set (p := fun t0 : task_row => (id t0 =? taskId) && (userId t0 =? user)) in *.
    assert (Hgone : In row (filter p (tasks d))) by (apply filter_In; auto).
    assert (Hlen : (0 <? Z.of_nat (List.length (filter p (tasks d)))) = true).
    { destruct (filter p (tasks d)); [contradiction|]. simpl. reflexivity. }
    exists (snd (delete_task_row taskId user d)). split.
    + unfold taskController.deleteTask, handler, deleteTask, bind, ret, delete_task_row.
      fold p. now rewrite Hlen.
    + apply getTaskById_none. cbn [snd delete_task_row tasks]. fold p.
      intros t0 Ht0. apply filter_In in Ht0. destruct Ht0 as [_ Hn].
      now apply negb_true_iff.
Qed.

Lemma taskController_owned_witness :
  exists t, getTaskById 1 1 two_users_db = Some t /\
  taskController.getTaskById 1 1 two_users_db = (mkResponse 200 (JsonTask t), two_users_db) /\
  (exists t' d',
      taskController.updateTask same_millisecond 1 retag_update 1 two_users_db
      = (mkResponse 200 (JsonTask t'), d') /\
      getTaskById 1 1 d' = Some t') /\
  (exists d',
      taskController.deleteTask 1 1 two_users_db = (mkResponse 204 NoBody, d') /\
      getTaskById 1 1 d' = None).
Proof.
  eexists. split; [vm_compute; reflexivity|].
  eapply (taskController_owned same_millisecond 1 1 retag_update two_users_db).
  - exact store_ok_two_users_db.
  - vm_compute. reflexivity.
Defined.
